(** * MinerU-webui: batch conversion orchestration

    A shallow embedding of [utils.py] (ParallelProcessor, FileUtils,
    ProgressTracker) and of [app.py] (MinerUWebConverter), followed by the
    properties of the orchestration core.

    Conventions of the embedding:
    - a Python [str] is a [string] (its UTF-8 bytes); [int] is [Z];
    - a Python [float] is read as the rational it denotes ([Q]); operations
      that round (true division, multiplication) go through an explicit
      rounding function, see [ProgressTracker];
    - a call that may raise returns an [outcome];
    - [os.path] is [posixpath];
    - the file system is a finite map from path strings to nodes;
    - the external collaborators (magic_pdf, python-docx, PIL) are section
      variables. *)

From Stdlib Require Import ZArith QArith Qminmax Qabs Ascii String List Sorted Lia.
From stdpp Require Import base option list gmap strings pretty.

Local Open Scope Z_scope.

(* ================================================================== *)
(** * Python values: exceptions, outcomes, strings                     *)
(* ================================================================== *)

(** The exceptions raised along the modelled paths.  Everything except
    [BaseException] is a subclass of Python's [Exception], so it is caught
    by [except Exception]; [BaseException what] stands for the others
    (KeyboardInterrupt, SystemExit, ...). *)
Inductive exn : Type :=
  | ValueError
  | IndexError
  | ZeroDivisionError
  | OverflowError
  | TypeError
  | OSError (what : string)
  | Exception (what : string)
  | BaseException (what : string).

Definition is_Exception (e : exn) : bool :=
  match e with
  | BaseException _ => false
  | _ => true
  end.

(** What a call does: it returns a value or raises. *)
Inductive outcome (A : Type) : Type :=
  | Returned (a : A)
  | Raised (e : exn).
Arguments Returned {A} a.
Arguments Raised {A} e.

Definition returned {A} (o : outcome A) : option A :=
  match o with
  | Returned a => Some a
  | Raised _ => None
  end.

Module Str.

Definition slash : ascii := "/"%char.
Definition dot : ascii := "."%char.
Definition newline : string := String (ascii_of_nat 10) "".

(** [s.startswith(p)], [s.endswith(p)] *)
Definition startswith (p s : string) : bool := String.prefix p s.

Fixpoint endswith_char (c : ascii) (s : string) : bool :=
  match s with
  | EmptyString => false
  | String a EmptyString => Ascii.eqb a c
  | String _ s' => endswith_char c s'
  end.

(** [c in s] for a one-character [c] *)
Fixpoint contains (c : ascii) (s : string) : bool :=
  match s with
  | EmptyString => false
  | String a s' => Ascii.eqb a c || contains c s'
  end.

(** [s.rfind(c)] counted from index [i] of the first character; [-1] when
    [c] does not occur. *)
Fixpoint rfind_from (i : Z) (c : ascii) (s : string) : Z :=
  match s with
  | EmptyString => -1
  | String a s' =>
      let r := rfind_from (i + 1) c s' in
      if r =? -1 then (if Ascii.eqb a c then i else -1) else r
  end.
Definition rfind (c : ascii) (s : string) : Z := rfind_from 0 c s.

(** [s[i:j]] and [s[i:]] for [0 <= i <= j] *)
Definition slice (i j : Z) (s : string) : string :=
  String.substring (Z.to_nat i) (Z.to_nat (j - i)) s.
Definition slice_from (i : Z) (s : string) : string :=
  String.substring (Z.to_nat i) (String.length s - Z.to_nat i) s.

(** [s.split(c)[0]]: the text before the first [c] *)
Fixpoint split_first (c : ascii) (s : string) : string :=
  match s with
  | EmptyString => EmptyString
  | String a s' => if Ascii.eqb a c then EmptyString else String a (split_first c s')
  end.

(** [s.lower()] on ASCII letters; bytes of other code points are kept. *)
Definition lower_char (c : ascii) : ascii :=
  let n := nat_of_ascii c in
  if (65 <=? n)%nat && (n <=? 90)%nat then ascii_of_nat (n + 32) else c.
Fixpoint lower (s : string) : string :=
  match s with
  | EmptyString => EmptyString
  | String a s' => String (lower_char a) (lower s')
  end.

(** [c.isspace()] for the characters of one byte: TAB, LF, VT, FF, CR,
    FS, GS, RS, US, SPACE. *)
Definition isspace (c : ascii) : bool :=
  let n := nat_of_ascii c in
  ((9 <=? n)%nat && (n <=? 13)%nat) || ((28 <=? n)%nat && (n <=? 32)%nat).

(** [c.isspace()] for the characters of two bytes, U+0085 and U+00A0
    (C2 85, C2 A0), and of three bytes: U+1680 (E1 9A 80), U+2000 to
    U+200A, U+2028, U+2029, U+202F (E2 80 80 to 8A, A8, A9, AF), U+205F
    (E2 81 9F) and U+3000 (E3 80 80).  No character of four bytes is white
    space. *)
Definition isspace2 (a b : ascii) : bool :=
  let '(x, y) := (nat_of_ascii a, nat_of_ascii b) in
  (x =? 194)%nat && ((y =? 133)%nat || (y =? 160)%nat).
Definition isspace3 (a b c : ascii) : bool :=
  let '(x, y, z) := (nat_of_ascii a, nat_of_ascii b, nat_of_ascii c) in
  ((x =? 225)%nat && (y =? 154)%nat && (z =? 128)%nat)
  || ((x =? 226)%nat && (y =? 128)%nat
      && (((128 <=? z)%nat && (z <=? 138)%nat)
          || (z =? 168)%nat || (z =? 169)%nat || (z =? 175)%nat))
  || ((x =? 226)%nat && (y =? 129)%nat && (z =? 159)%nat)
  || ((x =? 227)%nat && (y =? 128)%nat && (z =? 128)%nat).

(** The white space of one byte that [int] skips: TAB, LF, VT, FF, CR,
    SPACE (not FS, GS, RS, US); the white space of two and three bytes it
    skips as [strip] does. *)
Definition int_space (c : ascii) : bool :=
  let n := nat_of_ascii c in
  ((9 <=? n)%nat && (n <=? 13)%nat) || (n =? 32)%nat.

(** The white-space characters at the start are removed, whatever their
    length in bytes; [space] tells the white space of one byte. *)
Fixpoint lstrip_with (space : ascii -> bool) (s : string) : string :=
  match s with
  | EmptyString => EmptyString
  | String a s1 =>
      if space a then lstrip_with space s1
      else match s1 with
           | EmptyString => s
           | String b s2 =>
               if isspace2 a b then lstrip_with space s2
               else match s2 with
                    | EmptyString => s
                    | String c s3 => if isspace3 a b c then lstrip_with space s3 else s
                    end
           end
  end.

(** The string is cut where what follows is white space only.  (In UTF-8
    a suffix that starts inside a character starts with a byte from 80 to
    BF, which starts no white-space character.) *)
Fixpoint rstrip_with (space : ascii -> bool) (s : string) : string :=
  match s with
  | EmptyString => EmptyString
  | String a s' =>
      match lstrip_with space s with
      | EmptyString => EmptyString
      | _ => String a (rstrip_with space s')
      end
  end.

(** [s.strip()] *)
Definition strip (s : string) : string := rstrip_with isspace (lstrip_with isspace s).

(** [sep.join(l)] *)
Definition join (sep : string) (l : list string) : string := String.concat sep l.

(** [s * n]: the empty string for [n <= 0] *)
Definition times (s : string) (n : Z) : string :=
  Nat.iter (Z.to_nat n) (String.append s) EmptyString.

(** [s.replace(old, new)] for a non-empty [old]: occurrences are replaced
    left to right without overlap.  [skip] counts the characters of the
    occurrence just replaced that are still to be dropped. *)
Fixpoint replace_go (old new : string) (skip : nat) (s : string) : string :=
  match s with
  | EmptyString => EmptyString
  | String a s' =>
      match skip with
      | S k => replace_go old new k s'
      | O =>
          if String.prefix old s
          then new +:+ replace_go old new (String.length old - 1) s'
          else String a (replace_go old new 0 s')
      end
  end.
Definition replace (old new s : string) : string := replace_go old new 0 s.

(** The lines of a text, as [s.split("\n")] gives them. *)
Fixpoint split_lines_go (cur : string) (s : string) : list string :=
  match s with
  | EmptyString => [String.rev cur]
  | String a s' =>
      if Ascii.eqb a (ascii_of_nat 10)
      then String.rev cur :: split_lines_go EmptyString s'
      else split_lines_go (String a cur) s'
  end.
Definition split_lines (s : string) : list string := split_lines_go EmptyString s.

(** Python truthiness of a [str] *)
Definition truthy (s : string) : bool :=
  match s with EmptyString => false | _ => true end.

Definition is_digit (c : ascii) : option Z :=
  let n := nat_of_ascii c in
  if (48 <=? n)%nat && (n <=? 57)%nat then Some (Z.of_nat n - 48) else None.

(** The digits of an [int] literal: decimal digits, single underscores
    allowed between two digits. *)
Fixpoint digits_go (acc : Z) (after_digit : bool) (s : string) : option Z :=
  match s with
  | EmptyString => if after_digit then Some acc else None
  | String a s' =>
      match is_digit a with
      | Some d => digits_go (10 * acc + d) true s'
      | None =>
          if Ascii.eqb a "_"%char && after_digit then digits_go acc false s' else None
      end
  end.

(** [int(s)] in base 10: surrounding white space, an optional sign, digits;
    [ValueError] otherwise.  (The decimal digits of other scripts, which
    [int] reads as well, are not covered: the model answers ValueError for
    them.) *)
Definition int (s : string) : outcome Z :=
  let t := rstrip_with int_space (lstrip_with int_space s) in
  let '(sign, body) :=
    match t with
    | String "+"%char r => (1, r)
    | String "-"%char r => (-1, r)
    | _ => (1, t)
    end in
  match digits_go 0 false body with
  | Some n => Returned (sign * n)
  | None => Raised ValueError
  end.

End Str.

(** [int(x)] of a float: truncation towards zero. *)
Definition int_of_float (x : Q) : Z := Z.quot (Qnum x) (Zpos (Qden x)).

(* ================================================================== *)
(** * posixpath                                                        *)
(* ================================================================== *)

Module Path.

(** [os.path.join(a, b)] *)
Definition join (a b : string) : string :=
  if Str.startswith "/" b then b
  else if negb (Str.truthy a) || Str.endswith_char Str.slash a then a +:+ b
  else a +:+ "/" +:+ b.

(** [os.path.basename(p)]: [p[p.rfind('/') + 1:]] *)
Definition basename (p : string) : string :=
  Str.slice_from (Str.rfind Str.slash p + 1) p.

(** [os.path.dirname(p)]: the head [p[:p.rfind('/') + 1]], with its
    trailing slashes removed unless it consists of slashes only. *)
Fixpoint all_slashes (s : string) : bool :=
  match s with
  | EmptyString => true
  | String a s' => Ascii.eqb a Str.slash && all_slashes s'
  end.
Fixpoint rstrip_slashes (s : string) : string :=
  match s with
  | EmptyString => EmptyString
  | String a s' =>
      match rstrip_slashes s' with
      | EmptyString => if Ascii.eqb a Str.slash then EmptyString else String a EmptyString
      | t => String a t
      end
  end.
Definition dirname (p : string) : string :=
  let head := Str.slice 0 (Str.rfind Str.slash p + 1) p in
  if all_slashes head then head else rstrip_slashes head.

Fixpoint all_dots (s : string) : bool :=
  match s with
  | EmptyString => true
  | String a s' => Ascii.eqb a Str.dot && all_dots s'
  end.

(** [os.path.splitext(p)] (genericpath._splitext with sep '/', extsep
    '.'): the extension starts at the last dot of the last component,
    unless only dots precede it there. *)
Definition splitext (p : string) : string * string :=
  let sepIndex := Str.rfind Str.slash p in
  let dotIndex := Str.rfind Str.dot p in
  if sepIndex <? dotIndex then
    if all_dots (Str.slice (sepIndex + 1) dotIndex p)
    then (p, EmptyString)
    else (Str.slice 0 dotIndex p, Str.slice_from dotIndex p)
  else (p, EmptyString).

End Path.

(* ================================================================== *)
(** * utils.py: ProgressTracker                                       *)
(* ================================================================== *)

Module ProgressTracker.

(** The dictionary returned by [update] and [get_progress]. *)
Module Info.
Record t : Type := { current : Z; total : Z; progress : Q; percentage : Q }.
End Info.

(** The object's fields.  [self.lock] has no content of its own: it makes
    every call atomic, so that a concurrent history of calls is the
    sequence of calls in the order in which they took the lock. *)
Record t : Type := { total : Z; current : Z; description : string }.

Definition __init__ (total : Z) (description : string) : t :=
  {| total := total; current := 0; description := description |}.

(** [int / int] rounds the exact quotient to the nearest double and
    raises OverflowError when that is no finite double: when the absolute
    value of the quotient is at least [2^1024 - 2^970], half a unit in the
    last place above the largest double. *)
Definition float_bound : Z := 2 ^ 1024 - 2 ^ 970.
Definition overflows (q : Q) : bool := Qle_bool (inject_Z float_bound) (Qabs q).

Section Float.
(** [fl q] is the double nearest to [q]: [int / int] and [float * float]
    compute the exact quotient or product and round it. *)
Variable fl : Q -> Q.

(** Lines 160-170 and 180-188: the snapshot of the current fields;
    [current / total] raises ZeroDivisionError for [total = 0] and
    OverflowError for a quotient outside the range of the doubles.
    (A product [progress * 100] below that range is minus infinity in
    Python, which [percentage] does not represent: it is exact for
    [progress] above [-1.79e306], so for every counter that is not
    negative.) *)
Definition info (self : t) : outcome Info.t :=
  if total self =? 0 then Raised ZeroDivisionError
  else
    let quotient := (inject_Z (current self) / inject_Z (total self))%Q in
    if overflows quotient then Raised OverflowError
    else
      let progress := Qmin (fl quotient) 1 in
      let percentage := fl (progress * 100) in
      Returned {| Info.current := current self; Info.total := total self;
                  Info.progress := progress; Info.percentage := percentage |}.

(** [update]: the counter is incremented before the division, so the
    increment persists when the division raises. *)
Definition update (increment : Z) (self : t) : t * outcome Info.t :=
  let self' := {| total := total self; current := current self + increment;
                  description := description self |} in
  (self', info self').

Definition get_progress (self : t) : t * outcome Info.t := (self, info self).

(** A history of calls on one tracker, each made by some caller. *)
Inductive method : Type := Update (increment : Z) | GetProgress.
Record call : Type := { caller : nat; meth : method }.

Definition invoke (c : call) (self : t) : t * outcome Info.t :=
  match meth c with
  | Update increment => update increment self
  | GetProgress => get_progress self
  end.

Fixpoint run (calls : list call) (self : t) : t * list (outcome Info.t) :=
  match calls with
  | [] => (self, [])
  | c :: rest =>
      let '(self1, o) := invoke c self in
      let '(self2, os) := run rest self1 in
      (self2, o :: os)
  end.

(** [update()] with the default increment *)
Definition is_default_update (c : call) : bool :=
  match meth c with Update 1 => true | _ => false end.
Definition default_or_read (c : call) : bool :=
  match meth c with Update 1 => true | Update _ => false | GetProgress => true end.
End Float.

End ProgressTracker.

(* ================================================================== *)
(** * utils.py: ParallelProcessor                                     *)
(* ================================================================== *)

Module ParallelProcessor.

(** [__init__]: [self.max_workers] is the argument, or twice the number
    of CPU cores when it is [None]. *)
Definition __init__ (max_workers : option nat) (cpu_count : nat) : nat :=
  match max_workers with
  | None => cpu_count * 2
  | Some n => n
  end.

Section ProcessItems.
(** Items, job results, the state the jobs work on (the file system) and
    the state the callback works on. *)
Context {I V W C : Type}.

(** [callback(item, result)] changes its state and returns ([None]) or
    raises. *)
Definition callback_t : Type := I -> V -> C -> C * option exn.

(** What the loop of lines 58-69 has done so far: the [results] list,
    the callback's state, the callback invocations in order and the
    errors handed to [logger.error] in order. *)
Record loop_state : Type :=
  { results : list V; cb_state : C; calls : list (I * V); errors : list exn }.

Definition start (s : C) : loop_state :=
  {| results := []; cb_state := s; calls := []; errors := [] |}.

Definition log_error (e : exn) (st : loop_state) : loop_state :=
  {| results := results st; cb_state := cb_state st; calls := calls st;
     errors := errors st ++ [e] |}.

(** [except Exception as e]: an [Exception] is logged and the loop goes
    on, anything else leaves the loop. *)
Definition except_Exception (e : exn) (st : loop_state) : loop_state * option exn :=
  if is_Exception e then (log_error e st, None) else (st, Some e).

(** One iteration of lines 58-69 for the future of [item] whose
    [result()] is [o]. *)
Definition handle_future (callback : option callback_t) (item : I) (o : outcome V)
    (st : loop_state) : loop_state * option exn :=
  match o with
  | Raised e => except_Exception e st
  | Returned result =>
      let st1 := {| results := results st ++ [result]; cb_state := cb_state st;
                    calls := calls st; errors := errors st |} in
      match callback with
      | None => (st1, None)
      | Some cb =>
          let '(s', r) := cb item result (cb_state st1) in
          let st2 := {| results := results st1; cb_state := s';
                        calls := calls st1 ++ [(item, result)]; errors := errors st1 |} in
          match r with
          | None => (st2, None)
          | Some e => except_Exception e st2
          end
      end
  end.

(** [for future in future_to_item]: the futures are distinct keys of the
    dictionary, so the loop visits them in insertion order, which is
    the order of submission. *)
Fixpoint collect (callback : option callback_t) (futures : list (I * outcome V))
    (st : loop_state) : loop_state * option exn :=
  match futures with
  | [] => (st, None)
  | (item, o) :: rest =>
      match handle_future callback item o st with
      | (st', None) => collect callback rest st'
      | (st', Some e) => (st', Some e)
      end
  end.

(** [executor.submit(process_func, item) for item in items]: every item
    is submitted once, in order; its future resolves to what the job
    did.  The jobs are run here one after the other in submission
    order, each on the state that the one before left: the behaviour of
    a pool with one worker, and of any pool whose jobs do not overlap.
    Jobs that overlap in time work on the shared state concurrently;
    what they do to each other is outside this function.  What the
    calling thread does with the futures does not depend on it: the
    loop below and the step relation [Pool] take the outcomes of the
    futures as given, whatever made them. *)
Fixpoint submit_all (process_func : I -> W -> W * outcome V) (items : list I) (w : W)
    : W * list (I * outcome V) :=
  match items with
  | [] => (w, [])
  | item :: rest =>
      let '(w1, o) := process_func item w in
      let '(w2, fs) := submit_all process_func rest w1 in
      (w2, (item, o) :: fs)
  end.

(** [process_items(items, process_func, callback)].  The pool is
    constructed with [max_workers >= 1] (ThreadPoolExecutor refuses
    other values before anything is submitted); leaving the [with]
    block waits for every job.  The method returns [results] or lets
    the exception that left the loop through. *)
Definition process_items (items : list I) (process_func : I -> W -> W * outcome V)
    (callback : option callback_t) (w : W) (s : C)
    : W * loop_state * outcome (list V) :=
  let '(w', futures) := submit_all process_func items w in
  match collect callback futures (start s) with
  | (st, None) => (w', st, Returned (results st))
  | (st, Some e) => (w', st, Raised e)
  end.
End ProcessItems.

Arguments callback_t : clear implicits.
Arguments loop_state : clear implicits.

(** ** The thread pool

    The worker threads take the submitted jobs from a FIFO queue, at most
    [max_workers] at a time, and finish them in any order; the calling
    thread first submits every item and then runs the loop of lines
    58-69, waiting for each future in turn. *)
Module Pool.
Inductive event : Type :=
  | Submit (k : nat)      (* the calling thread submits item k *)
  | Start (k : nat)       (* a worker starts the job of item k *)
  | Finish (k : nat)      (* the job of item k has returned or raised *)
  | Await (k : nat)       (* future.result() of item k is taken *)
  | Callback (k : nat).   (* callback(item k, result) is called *)

Section Run.
Context {I V C : Type}.
Variable max_workers : nat.
Variable futures : list (I * outcome V).
Variable callback : option (callback_t I V C).

Record config : Type :=
  { submitted : nat;          (* items 0 .. submitted-1 are submitted *)
    started : nat;            (* jobs 0 .. started-1 have been started *)
    finished : list nat;      (* the jobs that are done, latest last *)
    awaited : nat;            (* the loop has handled futures 0 .. awaited-1 *)
    loop : loop_state I V C;
    left_loop : option exn;   (* an exception that left the loop *)
    trace : list event }.

Definition init (s : C) : config :=
  {| submitted := 0; started := 0; finished := []; awaited := 0;
     loop := start s; left_loop := None; trace := [] |}.

Definition events_of (k : nat) (o : outcome V) : list event :=
  match o, callback with
  | Returned _, Some _ => [Await k; Callback k]
  | _, _ => [Await k]
  end.

Inductive step : config -> config -> Prop :=
  | step_submit c :
      (submitted c < length futures)%nat ->
      step c {| submitted := S (submitted c); started := started c;
                finished := finished c; awaited := awaited c; loop := loop c;
                left_loop := left_loop c;
                trace := trace c ++ [Submit (submitted c)] |}
  | step_start c :
      (started c < submitted c)%nat ->
      (started c - length (finished c) < max_workers)%nat ->
      step c {| submitted := submitted c; started := S (started c);
                finished := finished c; awaited := awaited c; loop := loop c;
                left_loop := left_loop c;
                trace := trace c ++ [Start (started c)] |}
  | step_finish c k :
      (k < started c)%nat ->
      k ∉ finished c ->
      step c {| submitted := submitted c; started := started c;
                finished := finished c ++ [k]; awaited := awaited c; loop := loop c;
                left_loop := left_loop c;
                trace := trace c ++ [Finish k] |}
  | step_await c item o st' r :
      submitted c = length futures ->
      left_loop c = None ->
      futures !! awaited c = Some (item, o) ->
      awaited c ∈ finished c ->
      handle_future callback item o (loop c) = (st', r) ->
      step c {| submitted := submitted c; started := started c;
                finished := finished c; awaited := S (awaited c); loop := st';
                left_loop := r;
                trace := trace c ++ events_of (awaited c) o |}.

Definition reachable (s : C) (c : config) : Prop := rtc step (init s) c.

(** The loop is over: every future was handled, or an exception left it. *)
Definition loop_done (c : config) : Prop :=
  awaited c = length futures \/ is_Some (left_loop c).
End Run.

End Pool.

End ParallelProcessor.

(* ================================================================== *)
(** * The world of app.py: file system and wall clock                  *)
(* ================================================================== *)

Module FS.

(** A file holds raw bytes or is a zip archive, given by its members
    (archive name and data) in the order in which they were written;
    an archive may hold the same name twice. *)
#[warnings="-register-all"] Inductive content : Type :=
  | Raw (bytes : string)
  | Archive (members : list (string * content)).

Inductive node : Type :=
  | Dir
  | File (c : content).

(** Paths are compared as strings: the model is faithful for paths in
    normal form (no empty, [.] or [..] component, no trailing slash).
    The working directory [""] and the root are directories that always
    exist and are not stored. *)
Abbreviation t := (gmap string node).

Definition exists_ (w : t) (p : string) : bool := bool_decide (is_Some (w !! p)).
Definition isfile (w : t) (p : string) : bool :=
  match w !! p with Some (File _) => true | _ => false end.
Definition isdir (w : t) (p : string) : bool :=
  match w !! p with Some Dir => true | _ => false end.
Definition parent_is_dir (w : t) (p : string) : bool :=
  let d := Path.dirname p in
  Path.all_slashes d || isdir w d.

(** [os.mkdir(p)] *)
Definition mkdir (p : string) (w : t) : outcome t :=
  if negb (Str.truthy p) then Raised (OSError "FileNotFoundError")
  else if exists_ w p then Raised (OSError "FileExistsError")
  else if parent_is_dir w p then Returned (<[p := Dir]> w)
  else Raised (OSError "FileNotFoundError").

(** The proper ancestors of [p] that [os.makedirs] may have to create,
    outermost first. *)
Fixpoint heads_go (fuel : nat) (p : string) (acc : list string) : list string :=
  match fuel with
  | O => acc
  | S n =>
      let h := Path.dirname p in
      if Path.all_slashes h then acc else heads_go n h (h :: acc)
  end.
Definition heads (p : string) : list string := heads_go (String.length p) p [].

(** [os.makedirs(name, exist_ok=True)]: missing ancestors are created
    first; an existing directory [name] is accepted. *)
Fixpoint makedirs_go (hs : list string) (name : string) (w : t) : outcome t :=
  match hs with
  | [] =>
      match mkdir name w with
      | Returned w' => Returned w'
      | Raised e => if isdir w name then Returned w else Raised e
      end
  | h :: hs' =>
      if exists_ w h then makedirs_go hs' name w
      else match mkdir h w with
           | Returned w' => makedirs_go hs' name w'
           | Raised e => Raised e
           end
  end.
Definition makedirs (name : string) (w : t) : outcome t := makedirs_go (heads name) name w.

(** [open(p, 'w')] followed by writing [c] and closing *)
Definition write_file (p : string) (c : content) (w : t) : outcome t :=
  match w !! p with
  | Some Dir => Raised (OSError "IsADirectoryError")
  | _ => if parent_is_dir w p then Returned (<[p := File c]> w)
         else Raised (OSError "FileNotFoundError")
  end.

Definition read_file (p : string) (w : t) : outcome content :=
  match w !! p with
  | Some (File c) => Returned c
  | Some Dir => Raised (OSError "IsADirectoryError")
  | None => Raised (OSError "FileNotFoundError")
  end.

(** [os.listdir(d)]: the names [n] such that [os.path.join(d, n)] is a
    node; the order is the map's. *)
Definition child_name (d : string) (p : string) : option string :=
  let pre := Path.join d "" in
  if String.prefix pre p then
    let n := Str.slice_from (Z.of_nat (String.length pre)) p in
    if Str.truthy n && negb (Str.contains Str.slash n) then Some n else None
  else None.
Definition listdir (d : string) (w : t) : outcome (list string) :=
  if isdir w d then Returned (omap (child_name d) (map fst (map_to_list w)))
  else Raised (OSError "FileNotFoundError").

End FS.

(** The wall clock is an oracle: the k-th call of [time.time()] returns
    [clock k]. *)
Record world : Type :=
  { files : gmap string FS.node; clock : nat -> Q; ticks : nat }.

(** Code that works on the world and may raise. *)
Definition M (A : Type) : Type := world -> world * outcome A.

Definition ret {A} (a : A) : M A := fun w => (w, Returned a).
Definition raise {A} (e : exn) : M A := fun w => (w, Raised e).
Definition bind {A B} (m : M A) (k : A -> M B) : M B :=
  fun w => match m w with
           | (w', Returned a) => k a w'
           | (w', Raised e) => (w', Raised e)
           end.
Notation "'let*' x ':=' m 'in' k" := (bind m (fun x => k))
  (at level 10, x name, m at level 100, k at level 200).
Notation "m ';;' k" := (bind m (fun _ => k))
  (at level 100, k at level 200, right associativity).

(** [try: m except Exception as e: h e] *)
Definition try_except {A} (m : M A) (h : exn -> M A) : M A :=
  fun w => match m w with
           | (w', Raised e) => if is_Exception e then h e w' else (w', Raised e)
           | r => r
           end.

Definition of_outcome {A} (o : outcome A) : M A := fun w => (w, o).
Definition with_files (f : gmap string FS.node -> outcome (gmap string FS.node)) : M unit :=
  fun w => match f (files w) with
           | Returned fs' => ({| files := fs'; clock := clock w; ticks := ticks w |}, Returned tt)
           | Raised e => (w, Raised e)
           end.
Definition read_files {A} (f : gmap string FS.node -> A) : M A :=
  fun w => (w, Returned (f (files w))).

(** [time.time()] *)
Definition time_time : M Q :=
  fun w => ({| files := files w; clock := clock w; ticks := S (ticks w) |},
            Returned (clock w (ticks w))).

(** ** utils.py: FileUtils.ensure_dir *)
Module FileUtils.
Definition ensure_dir (directory : string) : M string :=
  let* there := read_files (fun fs => FS.exists_ fs directory) in
  (if there : bool then ret tt else with_files (FS.makedirs directory)) ;;
  ret directory.

(** [get_file_type] (lines 88-97) *)
Definition get_file_type (file_path : string) : string :=
  let ext := Str.lower (snd (Path.splitext file_path)) in
  if String.eqb ext ".pdf" then "pdf"
  else if existsb (String.eqb ext) [".doc"; ".docx"] then "docx"
  else if existsb (String.eqb ext) [".jpg"; ".jpeg"; ".png"; ".gif"] then "image"
  else "unknown".


End FileUtils.

(** Loops over a list. *)
Fixpoint for_each {A} (l : list A) (body : A -> M unit) : M unit :=
  match l with
  | [] => ret tt
  | a :: l' => body a ;; for_each l' body
  end.
Fixpoint fold_M {A B} (body : A -> B -> M B) (l : list A) (b : B) : M B :=
  match l with
  | [] => ret b
  | a :: l' => let* b' := body a b in fold_M body l' b'
  end.

(** ** zipfile *)
Module Zip.
Definition member : Type := string * FS.content.

(** [zipfile.ZipFile(zip_path, 'w')]: the archive file is created empty.
    Each later [write] is recorded in the file at once, so that an
    exception inside the [with] block leaves the members written so far,
    as closing the archive on the way out does. *)
Definition ZipFile_w (zip_path : string) : M unit :=
  with_files (FS.write_file zip_path (FS.Archive [])).

Definition append_member (zip_path : string) (m : member) : M unit :=
  with_files (fun fs =>
    match fs !! zip_path with
    | Some (FS.File (FS.Archive ms)) =>
        Returned (<[zip_path := FS.File (FS.Archive (ms ++ [m]))]> fs)
    | _ => Raised (OSError "archive is not open")
    end).

(** [zipf.write(filename, arcname)]: a file is stored under [arcname], a
    directory as an empty entry [arcname/]. *)
Definition write (zip_path filename arcname : string) : M unit :=
  let* n := read_files (fun fs => fs !! filename) in
  match n with
  | Some (FS.File c) => append_member zip_path (arcname, c)
  | Some FS.Dir => append_member zip_path (arcname +:+ "/", FS.Raw "")
  | None => raise (OSError "FileNotFoundError")
  end.

(** [zipfile.ZipFile(zip_path, 'r')] *)
Definition ZipFile_r (zip_path : string) : M (list member) :=
  let* n := read_files (fun fs => fs !! zip_path) in
  match n with
  | Some (FS.File (FS.Archive ms)) => ret ms
  | Some (FS.File (FS.Raw _)) => raise (Exception "BadZipFile")
  | Some FS.Dir => raise (OSError "IsADirectoryError")
  | None => raise (OSError "FileNotFoundError")
  end.

(** [extractall(temp_dir)] into a fresh directory followed by
    [os.walk(temp_dir)]: the regular files of the extracted tree with
    their paths relative to [temp_dir].  A name written twice is
    extracted twice to the same file, so its last data stay; directory
    entries give no file.  Member names are taken as they are (those
    written by this program are relative and in normal form); the files
    are listed in member order, [os.walk] lists them in the system's
    directory order. *)
Fixpoint extract_walk (ms : list member) : list member :=
  match ms with
  | [] => []
  | (n, c) :: rest =>
      if Str.endswith_char Str.slash n || bool_decide (n ∈ map fst rest)
      then extract_walk rest
      else (n, c) :: extract_walk rest
  end.
End Zip.

(* ================================================================== *)
(** * app.py: MinerUWebConverter                                      *)
(* ================================================================== *)

(** What python-docx shows of a document. *)
Module Docx.
(** A paragraph: its text, the name of its style, and for every run the
    inline drawings of the run; a drawing is what reading its [blob]
    gives. *)
Record paragraph : Type :=
  { text : string; style_name : string; runs : list (list (outcome string)) }.
(** A table: rows of cell texts. *)
Record table : Type := { rows : list (list string) }.
Record document : Type := { paragraphs : list paragraph; tables : list table }.
End Docx.

(** An external collaborator works on the files only. *)
Definition Ext (A : Type) : Type :=
  gmap string FS.node -> gmap string FS.node * outcome A.
Definition external {A} (f : Ext A) : M A :=
  fun w => let '(fs', o) := f (files w) in
           ({| files := fs'; clock := clock w; ticks := ticks w |}, o).

Module MinerUWebConverter.

(** The dictionary returned by the three converters. *)
Record result : Type :=
  { md_content : string; zip_path : string; md_file_path : string; image_dir : string }.

(** [name_without_extension = os.path.basename(file_path).split('.')[0]] *)
Definition name_without_extension (file_path : string) : string :=
  Str.split_first Str.dot (Path.basename file_path).

(** Lines 96-105 and 189-198: the per-job archive holds the Markdown file
    at its root and the files of the image directory under [images/]. *)
Definition zip_md_and_images (zip_path md_file_path local_image_dir : string) : M unit :=
  Zip.ZipFile_w zip_path ;;
  Zip.write zip_path md_file_path (Path.basename md_file_path) ;;
  let* names := (fun w => (w, FS.listdir local_image_dir (files w))) in
  for_each names (fun img_file =>
    let img_path := Path.join local_image_dir img_file in
    let* is_file := read_files (fun fs => FS.isfile fs img_path) in
    if is_file : bool then Zip.write zip_path img_path (Path.join "images" img_file)
    else ret tt).

(** *** Markdown of a DOCX document (lines 136-181) *)

(** [_extract_and_save_docx_image]: the file is opened for writing, then
    the blob is read and written; any [Exception] gives [False]. *)
Definition _extract_and_save_docx_image (shape : outcome string) (image_path : string)
    : M bool :=
  try_except
    (with_files (FS.write_file image_path (FS.Raw "")) ;;
     let* blob := of_outcome shape in
     with_files (FS.write_file image_path (FS.Raw blob)) ;;
     ret true)
    (fun _ => ret false).

(** Lines 143-149: the Markdown of the paragraph's text, appended to
    [md_content]. *)
Definition paragraph_text (para : Docx.paragraph) (md_content : list string)
    : outcome (list string) :=
  if Str.truthy (Str.strip (Docx.text para)) then
    if Str.startswith "Heading" (Docx.style_name para) then
      match Str.int (Str.replace "Heading" "" (Docx.style_name para)) with
      | Returned heading_level =>
          Returned (md_content ++ [Str.times "#" heading_level +:+ " " +:+ Docx.text para])
      | Raised e => Raised e
      end
    else Returned (md_content ++ [Docx.text para])
  else Returned md_content.

(** Lines 153-160: one drawing; the state is [(md_content, image_index)]. *)
Definition save_drawing (local_image_dir : string) (shape : outcome string)
    (st : list string * Z) : M (list string * Z) :=
  let '(md_content, image_index) := st in
  let image_path :=
    Path.join local_image_dir ("image_" +:+ pretty image_index +:+ ".png") in
  let* saved := _extract_and_save_docx_image shape image_path in
  if saved : bool then
    ret (md_content ++ ["![图片 " +:+ pretty image_index +:+ "](images/image_"
                          +:+ pretty image_index +:+ ".png)"],
         image_index + 1)
  else ret st.

(** Lines 141-160: one paragraph. *)
Definition paragraph_md (local_image_dir : string) (para : Docx.paragraph)
    (st : list string * Z) : M (list string * Z) :=
  let* md_content := of_outcome (paragraph_text para (fst st)) in
  fold_M (fun run st' => fold_M (save_drawing local_image_dir) run st')
         (Docx.runs para) (md_content, snd st).

Definition table_row (cells : list string) : string :=
  "| " +:+ Str.join " | " cells +:+ " |".

(** Lines 164-176: the lines of one table; [table.rows[0]] raises
    IndexError for a table without rows. *)
Definition table_md (table : Docx.table) : outcome (list string) :=
  match Docx.rows table with
  | [] => Raised IndexError
  | header_row :: data_rows =>
      let header_cells := map Str.strip header_row in
      Returned (table_row header_cells
                :: table_row (repeat "---" (length header_cells))
                :: map (fun row => table_row (map Str.strip row)) data_rows)
  end.

(** Lines 163-178 *)
Fixpoint tables_md (tables : list Docx.table) (md_content : list string)
    : outcome (list string) :=
  match tables with
  | [] => Returned md_content
  | table :: rest =>
      match table_md table with
      | Returned lines => tables_md rest (md_content ++ [Str.join Str.newline lines])
      | Raised e => Raised e
      end
  end.

(** Lines 137-181: [full_md_content] *)
Definition document_md (local_image_dir : string) (doc : Docx.document) : M string :=
  let* st := fold_M (paragraph_md local_image_dir) (Docx.paragraphs doc) ([], 1) in
  let* md_content := of_outcome (tables_md (Docx.tables doc) (fst st)) in
  ret (Str.join (Str.newline +:+ Str.newline) md_content).

Section Converter.
(** [self.output_dir] *)
Variable output_dir : string.

(** The collaborators.
    - [pdf_pipeline file_path local_image_dir task_output_dir name]:
      lines 69-93, magic_pdf reads the PDF, writes the images and the
      Markdown file [name.md] and returns the Markdown text;
    - [docx_Document file_path]: [docx.Document(file_path)];
    - [image_ocr file_path local_image_dir task_output_dir]: lines
      251-269, PIL and magic_pdf on an image, returning the Markdown
      text. *)
Variable pdf_pipeline : string -> string -> string -> string -> Ext string.
Variable docx_Document : string -> Ext Docx.document.
Variable image_ocr : string -> string -> string -> Ext string.

(** Rounding to the nearest double, for the progress tracker. *)
Variable fl : Q -> Q.

Definition __init__ : M unit :=
  FileUtils.ensure_dir output_dir ;; ret tt.

Definition _process_pdf (file_path task_id : string) : M result :=
  let name_without_extension := name_without_extension file_path in
  let task_output_dir := Path.join output_dir task_id in
  let local_image_dir := Path.join task_output_dir "images" in
  FileUtils.ensure_dir local_image_dir ;;
  let* md_content :=
    external (pdf_pipeline file_path local_image_dir task_output_dir
                           name_without_extension) in
  let md_file_path := Path.join task_output_dir (name_without_extension +:+ ".md") in
  let zip_path := Path.join task_output_dir (name_without_extension +:+ ".zip") in
  zip_md_and_images zip_path md_file_path local_image_dir ;;
  ret {| md_content := md_content; zip_path := zip_path;
         md_file_path := md_file_path; image_dir := local_image_dir |}.

Definition _process_docx (file_path task_id : string) : M result :=
  let name_without_extension := name_without_extension file_path in
  let task_output_dir := Path.join output_dir task_id in
  let local_image_dir := Path.join task_output_dir "images" in
  FileUtils.ensure_dir local_image_dir ;;
  let* doc := external (docx_Document file_path) in
  let* full_md_content := document_md local_image_dir doc in
  let md_file_path := Path.join task_output_dir (name_without_extension +:+ ".md") in
  with_files (FS.write_file md_file_path (FS.Raw full_md_content)) ;;
  let zip_path := Path.join task_output_dir (name_without_extension +:+ ".zip") in
  zip_md_and_images zip_path md_file_path local_image_dir ;;
  ret {| md_content := full_md_content; zip_path := zip_path;
         md_file_path := md_file_path; image_dir := local_image_dir |}.

(** Lines 241-294.  [shutil.copy(file_path, output_image_path)] reads
    the file and writes the copy. *)
Definition _process_image (file_path task_id : string) : M result :=
  let name_without_extension := name_without_extension file_path in
  let task_output_dir := Path.join output_dir task_id in
  let local_image_dir := Path.join task_output_dir "images" in
  FileUtils.ensure_dir local_image_dir ;;
  let output_image_path := Path.join local_image_dir (Path.basename file_path) in
  let* data := (fun w => (w, FS.read_file file_path (files w))) in
  with_files (FS.write_file output_image_path data) ;;
  let* ocr_text := external (image_ocr file_path local_image_dir task_output_dir) in
  let md_content :=
    if Str.truthy (Str.strip ocr_text) then ocr_text
    else "![" +:+ name_without_extension +:+ "](images/"
           +:+ Path.basename file_path +:+ ")" in
  let md_file_path := Path.join task_output_dir (name_without_extension +:+ ".md") in
  with_files (FS.write_file md_file_path (FS.Raw md_content)) ;;
  let zip_path := Path.join task_output_dir (name_without_extension +:+ ".zip") in
  Zip.ZipFile_w zip_path ;;
  Zip.write zip_path md_file_path (Path.basename md_file_path) ;;
  Zip.write zip_path output_image_path (Path.join "images" (Path.basename file_path)) ;;
  ret {| md_content := md_content; zip_path := zip_path;
         md_file_path := md_file_path; image_dir := local_image_dir |}.

(** [task_id = f"task_{int(time.time())}"] *)
Definition task_id_at (prefix : string) (now : Q) : string :=
  prefix +:+ pretty (int_of_float now).

Definition unsupported : string * option string := ("不支持的文件类型", None).

(** [return result["md_content"], result["zip_path"]] *)
Definition pair_of (r : result) : string * option string :=
  (md_content r, Some (zip_path r)).

Definition process_file (file_path : string) : M (string * option string) :=
  let* now := time_time in
  let task_id := task_id_at "task_" now in
  let file_ext := Str.lower (snd (Path.splitext file_path)) in
  if String.eqb file_ext ".pdf" then
    let* result := _process_pdf file_path task_id in ret (pair_of result)
  else if existsb (String.eqb file_ext) [".doc"; ".docx"] then
    let* result := _process_docx file_path task_id in ret (pair_of result)
  else if existsb (String.eqb file_ext) [".jpg"; ".jpeg"; ".png"; ".gif"] then
    let* result := _process_image file_path task_id in ret (pair_of result)
  else ret unsupported.

(** *** Batch aggregation (lines 355-371) *)

(** [base_name = os.path.basename(zip_path).split('.')[0]] *)
Definition base_name (zip_path : string) : string :=
  Str.split_first Str.dot (Path.basename zip_path).

(** The body of the loop over [results].  A value returned by
    [process_file] is always a tuple of length 2, so of the test of line
    357 the truth of [result[1]] remains: [None] and [''] are false. *)
Definition archive_result (batch_zip_path : string) (result : string * option string)
    : M unit :=
  match snd result with
  | Some zip_path =>
      if Str.truthy zip_path then
        let* there := read_files (fun fs => FS.exists_ fs zip_path) in
        if there : bool then
          let* members := Zip.ZipFile_r zip_path in
          let base_name := base_name zip_path in
          for_each (Zip.extract_walk members) (fun '(rel_path, data) =>
            Zip.append_member batch_zip_path (Path.join base_name rel_path, data))
        else ret tt
      else ret tt
  | None => ret tt
  end.

Definition aggregate (batch_zip_path : string) (results : list (string * option string))
    : M unit :=
  Zip.ZipFile_w batch_zip_path ;;
  for_each results (archive_result batch_zip_path).

(** [process_callback] of lines 342-344, on the tracker it closes over. *)
Definition process_callback (file_path : string) (result : string * option string)
    (progress : ProgressTracker.t) : ProgressTracker.t * option exn :=
  match ProgressTracker.update fl 1 progress with
  | (progress1, Raised e) => (progress1, Some e)
  | (progress1, Returned _) =>
      match ProgressTracker.get_progress fl progress1 with
      | (progress2, Raised e) => (progress2, Some e)
      | (progress2, Returned _) => (progress2, None)
      end
  end.

Definition batch_process_files (file_paths : list string) : M string :=
  let* now := time_time in
  let task_id := task_id_at "batch_" now in
  let task_output_dir := Path.join output_dir task_id in
  FileUtils.ensure_dir task_output_dir ;;
  let progress :=
    ProgressTracker.__init__ (Z.of_nat (length file_paths)) "批量处理文件" in
  let* results :=
    (fun w => let '(w', _, o) :=
                ParallelProcessor.process_items file_paths process_file
                  (Some process_callback) w progress in (w', o)) in
  let batch_zip_path := Path.join task_output_dir "batch_results.zip" in
  aggregate batch_zip_path results ;;
  ret batch_zip_path.
End Converter.

End MinerUWebConverter.


(* ================================================================== *)
(** * Test data                                                        *)
(* ================================================================== *)

Module Sample.
(** A PDF pipeline that writes the Markdown file and one page image. *)
Definition pdf_pipeline (file_path local_image_dir task_output_dir name : string)
    : Ext string :=
  fun fs =>
    (<[Path.join local_image_dir "page1.png" := FS.File (FS.Raw "PNG")]>
       (<[Path.join task_output_dir (name +:+ ".md") := FS.File (FS.Raw "pdf text")]> fs),
     Returned "pdf text").


(** The document of the DOCX scenario: one paragraph "Intro" of the given
    style and one table of two rows and two columns. *)
Definition intro_document (style_name : string) (a b c d : string) : Docx.document :=
  {| Docx.paragraphs :=
       [ {| Docx.text := "Intro"; Docx.style_name := style_name; Docx.runs := [] |} ];
     Docx.tables := [ {| Docx.rows := [[a; b]; [c; d]] |} ] |}.
Definition docx_Document (file_path : string) : Ext Docx.document :=
  fun fs => (fs, Returned (intro_document "Heading 1" "A" "B" "1" "2")).

(** An OCR that finds no text. *)
Definition image_ocr (file_path local_image_dir task_output_dir : string) : Ext string :=
  fun fs => (fs, Returned "").

(** Exact arithmetic in place of rounding. *)
Definition fl (q : Q) : Q := q.

(** An empty working directory.  [quarters]: the clock advances by a
    quarter of a second from one reading to the next, starting at
    1700000000.25; [seconds]: by a whole second, starting at 1700000000. *)
Definition quarter_clock (k : nat) : Q :=
  match k with
  | 0%nat => 6800000001 # 4
  | 1%nat => 6800000002 # 4
  | 2%nat => 6800000003 # 4
  | _ => 6800000004 # 4
  end.
Definition second_clock (k : nat) : Q :=
  match k with
  | 0%nat => 1700000000 # 1
  | 1%nat => 1700000001 # 1
  | 2%nat => 1700000002 # 1
  | _ => 1700000003 # 1
  end.
Definition quarters : world := {| files := ∅; clock := quarter_clock; ticks := 0 |}.
Definition seconds : world := {| files := ∅; clock := second_clock; ticks := 0 |}.

Definition process_file : string -> M (string * option string) :=
  MinerUWebConverter.process_file "output" pdf_pipeline docx_Document image_ocr.
Definition batch_process_files : list string -> M string :=
  MinerUWebConverter.batch_process_files "output" pdf_pipeline docx_Document image_ocr fl.

(** The world once the converter is constructed ([output/] exists), and
    the paths of the batch scenario. *)
Definition ready (w : world) : world := fst (MinerUWebConverter.__init__ "output" w).
Definition scenario_paths : list string := ["a.pdf"; "b.docx"; "c.xyz"].

(** Two per-job archives with the same file name in different
    workspaces, and the results that point to them. *)
Definition collision : world :=
  {| files := list_to_map
       [ ("out", FS.Dir); ("out/batch_3", FS.Dir);
         ("out/task_1", FS.Dir); ("out/task_2", FS.Dir);
         ("out/task_1/report.zip",
          FS.File (FS.Archive [("report.md", FS.Raw "from the PDF")]));
         ("out/task_2/report.zip",
          FS.File (FS.Archive [("report.md", FS.Raw "from the DOCX")])) ];
     clock := second_clock; ticks := 3 |}.
Definition collision_results : list (string * option string) :=
  [ ("from the PDF", Some "out/task_1/report.zip");
    ("from the DOCX", Some "out/task_2/report.zip");
    MinerUWebConverter.unsupported ].

(** The jobs of the thread-pool examples: the job of item 2 raises
    ValueError, the others return ten times their item; the callback counts
    its calls. *)
Definition job (item : nat) (w : unit) : unit * outcome nat :=
  (w, if (item =? 2)%nat then Raised ValueError else Returned (10 * item)%nat).
Definition count_calls : ParallelProcessor.callback_t nat nat nat :=
  fun _ _ n => (S n, None).

(** A callback that writes down the items it is called for, in the order
    of its calls. *)
Definition record_calls : ParallelProcessor.callback_t nat nat (list nat) :=
  fun item _ seen => (seen ++ [item], None).

(** Three futures; the jobs of items 0 and 1 return, that of item 2
    raises.  In [run] two workers finish the jobs in the order 1, 2, 0
    before the loop takes the results. *)
Definition futures : list (nat * outcome nat) :=
  [(0, Returned 10); (1, Returned 11); (2, Raised ValueError)]%nat.

Section Run.
Import ParallelProcessor ParallelProcessor.Pool.
Definition run : config (I := nat) (V := nat) (C := nat) :=
  {| submitted := 3; started := 3; finished := [1; 2; 0]%nat; awaited := 3;
     loop := {| results := [10; 11]%nat; cb_state := 2%nat;
                calls := [(0, 10); (1, 11)]%nat; errors := [ValueError] |};
     left_loop := None;
     trace := [ Submit 0; Submit 1; Start 0; Submit 2; Start 1; Finish 1; Start 2;
                Finish 2; Finish 0; Await 0; Callback 0; Await 1; Callback 1;
                Await 2 ]%nat |}.
End Run.

(** A history of calls on a progress tracker by three callers. *)
Definition history : list ProgressTracker.call :=
  [ {| ProgressTracker.caller := 0; ProgressTracker.meth := ProgressTracker.Update 1 |};
    {| ProgressTracker.caller := 1; ProgressTracker.meth := ProgressTracker.GetProgress |};
    {| ProgressTracker.caller := 1; ProgressTracker.meth := ProgressTracker.Update 1 |};
    {| ProgressTracker.caller := 2; ProgressTracker.meth := ProgressTracker.Update 1 |} ].
End Sample.


(* ================================================================== *)
(** * Vocabulary of the statements                                     *)
(* ================================================================== *)

(** ** ProgressTracker *)

(** The number of [update()] calls in a history. *)
Definition updates (calls : list ProgressTracker.call) : nat :=
  length (filter (fun c => ProgressTracker.is_default_update c = true) calls).

(** The counter of the tracker when the call at position [k] (from 0) of a
    history of default calls answers: the number of [update()] calls among
    the first [k + 1] calls. *)
Definition counter_at (calls : list ProgressTracker.call) (k : nat) : Z :=
  Z.of_nat (updates (take (S k) calls)).

(** The tracker whose counter has moved on by [n]. *)
Definition moved (self : ProgressTracker.t) (n : Z) : ProgressTracker.t :=
  {| ProgressTracker.total := ProgressTracker.total self;
     ProgressTracker.current := ProgressTracker.current self + n;
     ProgressTracker.description := ProgressTracker.description self |}.

(** The snapshot of a tracker with the given total at the moment its counter
    is [counter]: it shows that counter and that total, and its
    [progress = min(counter / total, 1.0)] lies within [0, 1]. *)
Definition snapshot_ok (fl : Q -> Q) (total counter : Z)
    (o : outcome ProgressTracker.Info.t) : Prop :=
  exists i, o = Returned i /\
    ProgressTracker.Info.current i = counter /\
    ProgressTracker.Info.total i = total /\
    ProgressTracker.Info.progress i = Qmin (fl (inject_Z counter / inject_Z total)%Q) 1 /\
    (0 <= ProgressTracker.Info.progress i)%Q /\ (ProgressTracker.Info.progress i <= 1)%Q.

(** What a call answers when the counter is [counter]: that snapshot, unless
    the quotient is outside the range of the doubles, where the division
    raises. *)
Definition answer_ok (fl : Q -> Q) (total counter : Z)
    (o : outcome ProgressTracker.Info.t) : Prop :=
  if ProgressTracker.overflows (inject_Z counter / inject_Z total)%Q
  then o = Raised OverflowError
  else snapshot_ok fl total counter o.

(** ** ParallelProcessor *)

Section Futures.
Context {I V C : Type}.
Implicit Types (futures : list (I * outcome V))
               (callback : option (ParallelProcessor.callback_t I V C)).

(** The results of the jobs that returned, the callback invocations they
    lead to, and the exceptions of the jobs that raised, each in the order
    of submission. *)
Definition returned_values futures : list V :=
  omap (fun f => returned (snd f)) futures.
Definition returned_calls futures : list (I * V) :=
  omap (fun f => pair (fst f) <$> returned (snd f)) futures.
Definition raised_errors futures : list exn :=
  omap (fun f => match snd f with Raised e => Some e | Returned _ => None end) futures.
Definition calls_of callback futures : list (I * V) :=
  match callback with Some _ => returned_calls futures | None => [] end.

(** The state in which the callback leaves what it works on when it is called
    for [calls] one after the other, starting from [s]. *)
Definition run_callbacks callback (calls : list (I * V)) (s : C) : C :=
  match callback with
  | Some cb => fold_left (fun s' c => fst (cb (fst c) (snd c) s')) calls s
  | None => s
  end.

(** No job and no callback call raises outside [Exception]. *)
Definition catchable_jobs futures : Prop :=
  Forall (fun f => match snd f with
                   | Raised e => is_Exception e = true
                   | Returned _ => True
                   end) futures.
Definition catchable_callback callback : Prop :=
  forall cb, callback = Some cb ->
  forall i v s e, snd (cb i v s) = Some e -> is_Exception e = true.

End Futures.


(** What holds in every configuration of a run of the pool. *)
Section Invariant.
Import ParallelProcessor ParallelProcessor.Pool.
Context {I V C : Type}.
Variable futures : list (I * outcome V).
Variable callback : option (callback_t I V C).
Variable s : C.

End Invariant.

(** ** MinerUWebConverter *)

(** The extensions that [process_file] dispatches on, and the extension of a
    path as [process_file] compares it:
    [os.path.splitext(file_path)[1].lower()]. *)
Definition supported_extensions : list string :=
  [".pdf"; ".doc"; ".docx"; ".jpg"; ".jpeg"; ".png"; ".gif"].
Definition file_ext (file_path : string) : string :=
  Str.lower (snd (Path.splitext file_path)).

Definition nl : string := Str.newline.

(** [grows p new w w']: from [w] to [w'] the members [new] were appended to
    the archive at [p], and nothing else changed. *)
Definition grows (p : string) (new : list Zip.member) (w w' : world) : Prop :=
  clock w' = clock w /\ ticks w' = ticks w /\
  ((new = [] /\ files w' = files w) \/
   exists ms, files w !! p = Some (FS.File (FS.Archive ms)) /\
              files w' = <[p := FS.File (FS.Archive (ms ++ new))]> (files w)).

(** What [archive_result] appends for a result when nothing raises: the
    files of the result's archive, each under the directory named by the
    archive's base name. *)
Definition job_entries (fs : gmap string FS.node) (r : string * option string)
    : list Zip.member :=
  match snd r with
  | Some zip_path =>
      if Str.truthy zip_path then
        match fs !! zip_path with
        | Some (FS.File (FS.Archive members)) =>
            map (fun m => (Path.join (MinerUWebConverter.base_name zip_path) (fst m), snd m))
                (Zip.extract_walk members)
        | _ => []
        end
      else []
  | None => []
  end.

(** A member written for a result: the result carries a true archive path,
    and the member lies under the base name of that path. *)
Definition from_result (r : string * option string) (m : Zip.member) : Prop :=
  exists zip_path rel_path,
    snd r = Some zip_path /\ Str.truthy zip_path = true /\
    fst m = Path.join (MinerUWebConverter.base_name zip_path) rel_path.

Section Jobs.
Variable output_dir : string.
Variable pdf_pipeline : string -> string -> string -> string -> Ext string.
Variable docx_Document : string -> Ext Docx.document.
Variable image_ocr : string -> string -> string -> Ext string.

(** The archive path that a job for [file_path] with ID [task_id] returns. *)
Definition job_zip_path (task_id file_path : string) : string :=
  Path.join (Path.join output_dir task_id)
            (MinerUWebConverter.name_without_extension file_path +:+ ".zip").
End Jobs.


(* ================================================================== *)
(** * Vocabulary of the further properties                             *)
(* ================================================================== *)

(** ** FileUtils *)




(** ** ProgressTracker *)





(** ** ParallelProcessor *)

(** The counters of a configuration of the pool fit together: what is
    started was submitted, what is finished was started, no job finishes
    twice, and the loop has not gone past the last future. *)
Definition well_formed (n : nat) {I V C : Type}
    (c : ParallelProcessor.Pool.config (I := I) (V := V) (C := C)) : Prop :=
  (ParallelProcessor.Pool.submitted c <= n)%nat /\
  (ParallelProcessor.Pool.started c <= ParallelProcessor.Pool.submitted c)%nat /\
  NoDup (ParallelProcessor.Pool.finished c) /\
  (forall k, k ∈ ParallelProcessor.Pool.finished c ->
             (k < ParallelProcessor.Pool.started c)%nat) /\
  (ParallelProcessor.Pool.awaited c <= n)%nat.

(** ** MinerUWebConverter *)

(** The file of the image with the given index (line 155) and the Markdown
    link to it (line 159). *)
Definition image_file (local_image_dir : string) (image_index : Z) : string :=
  Path.join local_image_dir ("image_" +:+ pretty image_index +:+ ".png").
Definition image_link (image_index : Z) : string :=
  "![图片 " +:+ pretty image_index +:+ "](images/image_" +:+ pretty image_index +:+ ".png)".

(** The images numbered from [first] up to, not including, [next] are saved
    and linked: the state of the loop over the drawings of a document. *)
Definition images_saved (local_image_dir : string) (first : Z)
    (st : list string * Z) (w : world) : Prop :=
  first <= snd st /\
  forall j, first <= j < snd st ->
    (exists blob, files w !! image_file local_image_dir j = Some (FS.File (FS.Raw blob))) /\
    image_link j ∈ fst st.

(** Code that does not read the clock. *)
Definition keeps_clock {A : Type} (m : M A) : Prop :=
  forall w, clock (fst (m w)) = clock w /\ ticks (fst (m w)) = ticks w.

(** Further test data. *)
Module Sample2.
(** The job of item 2 raises KeyboardInterrupt, which is no [Exception]. *)
Definition interrupted_job (item : nat) (w : unit) : unit * outcome nat :=
  (w, if (item =? 2)%nat then Raised (BaseException "KeyboardInterrupt")
      else Returned (10 * item)%nat).

(** Jobs on paths: the job of b.docx raises, the others return. *)
Definition path_job (file_path : string) (w : unit)
    : unit * outcome (string * option string) :=
  (w, if String.eqb file_path "b.docx" then Raised (Exception "PackageNotFoundError")
      else Returned ("text", Some (file_path +:+ ".zip"))).

(** A document with three drawings in two paragraphs; the blob of the
    second drawing cannot be read. *)
Definition illustrated : list Docx.paragraph :=
  [ {| Docx.text := "Figures"; Docx.style_name := "Normal";
       Docx.runs := [[Returned "PNG1"; Raised (Exception "AttributeError")]] |};
    {| Docx.text := ""; Docx.style_name := "Normal";
       Docx.runs := [[]; [Returned "PNG3"]] |} ].

(** A document whose second table has no rows. *)
Definition with_empty_table : Docx.document :=
  {| Docx.paragraphs :=
       [ {| Docx.text := "Intro"; Docx.style_name := "Heading 1"; Docx.runs := [] |} ];
     Docx.tables := [ {| Docx.rows := [["A"; "B"]] |}; {| Docx.rows := [] |} ] |}.

(** A working directory with the image directory of a job. *)
Definition with_images : world :=
  {| files := list_to_map [("out", FS.Dir); ("out/images", FS.Dir)];
     clock := Sample.second_clock; ticks := 0 |}.
End Sample2.


(* ================================================================== *)
(** * Checks of the string and path functions                          *)
(* ================================================================== *)

Example splitext_ex1 : Path.splitext "dir.d/Report.PDF" = ("dir.d/Report", ".PDF").
Proof. reflexivity. Qed.
Example splitext_ex2 : Path.splitext "a/.bashrc" = ("a/.bashrc", "").
Proof. reflexivity. Qed.
Example splitext_ex3 : Path.splitext "x.tar.gz" = ("x.tar", ".gz").
Proof. reflexivity. Qed.
Example basename_ex : Path.basename "out/task_1/a.zip" = "a.zip".
Proof. reflexivity. Qed.
Example dirname_ex :
  Path.dirname "out/task_1/a.zip" = "out/task_1" /\ Path.dirname "a.zip" = "" /\
  Path.dirname "/a" = "/".
Proof. repeat split; reflexivity. Qed.
Example join_ex :
  Path.join "output" "task_1" = "output/task_1" /\ Path.join "" "a" = "a" /\
  Path.join "x/" "a" = "x/a" /\ Path.join "x" "/a" = "/a" /\ Path.join "x" "" = "x/".
Proof. repeat split; reflexivity. Qed.
Example int_ex :
  Str.int " 1" = Returned 1 /\ Str.int "1_0" = Returned 10 /\
  Str.int "1__0" = Raised ValueError /\ Str.int "" = Raised ValueError /\
  Str.int "-07" = Returned (-7) /\ Str.int " 1 Char" = Raised ValueError /\
  Str.int "+5" = Returned 5 /\ Str.int "_1" = Raised ValueError /\
  Str.int (String (ascii_of_nat 31) "3") = Raised ValueError.
Proof. repeat split; reflexivity. Qed.
Example times_ex : Str.times "#" 3 = "###" /\ Str.times "#" 0 = "" /\ Str.times "#" (-2) = "".
Proof. repeat split; reflexivity. Qed.
Example splitext_ex4 :
  Path.splitext "...a" = ("...a", "") /\ Path.splitext "a." = ("a", ".") /\
  Path.splitext "..a.b" = ("..a", ".b") /\ Path.splitext "a/b.c/" = ("a/b.c/", "") /\
  Path.splitext "a..pdf" = ("a.", ".pdf") /\ Path.splitext ".pdf" = (".pdf", "").
Proof. repeat split; reflexivity. Qed.
Example makedirs_ex :
  FS.makedirs "output/task_1/images" ∅
    = Returned (list_to_map [ ("output", FS.Dir); ("output/task_1", FS.Dir);
                              ("output/task_1/images", FS.Dir) ]) /\
  FS.makedirs "" ∅ = Raised (OSError "FileNotFoundError") /\
  FS.makedirs "a/b" {[ "a" := FS.File (FS.Raw "") ]} = Raised (OSError "FileNotFoundError").
Proof. repeat split; vm_compute; reflexivity. Qed.
Example listdir_ex :
  FS.listdir "d/images"
    (list_to_map [ ("d", FS.Dir); ("d/images", FS.Dir); ("d/a.md", FS.File (FS.Raw ""));
                   ("d/images/p.png", FS.File (FS.Raw "")); ("d/images/sub", FS.Dir);
                   ("d/images/sub/q.png", FS.File (FS.Raw "")) ])
  = Returned ["sub"; "p.png"].
Proof. vm_compute. reflexivity. Qed.
Example extract_walk_ex :
  Zip.extract_walk [ ("r.md", FS.Raw "one"); ("adir/", FS.Raw ""); ("r.md", FS.Raw "two") ]
  = [ ("r.md", FS.Raw "two") ].
Proof. reflexivity. Qed.
Example replace_ex :
  Str.replace "Heading" "" "Heading 1" = " 1" /\ Str.replace "aa" "b" "aaaa a aa" = "bb a b".
Proof. repeat split; reflexivity. Qed.
Example strip_ex : Str.strip "  a b  " = "a b" /\ Str.strip "   " = "".
Proof. repeat split; reflexivity. Qed.
Example lines_ex : Str.split_lines ("a" +:+ Str.newline +:+ "b") = ["a"; "b"].
Proof. reflexivity. Qed.
Example strip_unicode_ex :
  let ideographic_space := String (ascii_of_nat 227) (String (ascii_of_nat 128)
                             (String (ascii_of_nat 128) EmptyString)) in
  let no_break_space := String (ascii_of_nat 194) (String (ascii_of_nat 160) EmptyString) in
  Str.strip (ideographic_space +:+ "a b" +:+ no_break_space) = "a b" /\
  Str.strip (no_break_space +:+ ideographic_space) = "" /\
  Str.int (no_break_space +:+ "12" +:+ ideographic_space) = Returned 12 /\
  Str.int (String (ascii_of_nat 28) "12") = Raised ValueError.
Proof. repeat split; reflexivity. Qed.
Example overflow_ex :
  snd (ProgressTracker.update Sample.fl (10 ^ 400) (ProgressTracker.__init__ 1 "batch"))
    = Raised OverflowError /\
  snd (ProgressTracker.update Sample.fl (10 ^ 400) (ProgressTracker.__init__ 0 "batch"))
    = Raised ZeroDivisionError /\
  ProgressTracker.overflows (inject_Z (2 ^ 1024 - 2 ^ 970 - 1) / 1) = false.
Proof. repeat split; vm_compute; reflexivity. Qed.


(* ================================================================== *)
(** * Facts about strings and paths                                    *)
(* ================================================================== *)

Section StrFacts.
Implicit Types (s a b : string) (c : ascii).
Local Arguments String.append !s1 s2 : simpl nomatch.

Lemma string_app_assoc s1 s2 s3 : (s1 +:+ s2) +:+ s3 = s1 +:+ s2 +:+ s3.
Proof. induction s1 as [|x s1 IH]; simpl; [reflexivity | by rewrite IH]. Qed.

Lemma string_length_app s1 s2 :
  String.length (s1 +:+ s2) = (String.length s1 + String.length s2)%nat.
Proof. induction s1 as [|x s1 IH]; simpl; [reflexivity | by rewrite IH]. Qed.

Lemma substring_all s : String.substring 0 (String.length s) s = s.
Proof. induction s as [|x s IH]; simpl; [reflexivity | by rewrite IH]. Qed.

Lemma substring_skip a c b :
  String.substring (S (String.length a)) (String.length b) (a +:+ String c b) = b.
Proof. induction a as [|x a IH]; simpl; [apply substring_all | apply IH]. Qed.

Lemma contains_app c s1 s2 :
  Str.contains c (s1 +:+ s2) = Str.contains c s1 || Str.contains c s2.
Proof.
  induction s1 as [|x s1 IH]; simpl; [reflexivity|]. by rewrite IH, orb_assoc.
Qed.

Lemma rfind_from_none i c s : Str.contains c s = false -> Str.rfind_from i c s = -1.
Proof.
  revert i. induction s as [|x s IH]; intros i; simpl; [reflexivity|].
  intros H. apply orb_false_elim in H as [Hx Hs]. by rewrite (IH _ Hs), Hx.
Qed.

(** The last occurrence of [c] is found. *)
Lemma rfind_from_last i c a b :
  0 <= i -> Str.contains c b = false ->
  Str.rfind_from i c (a +:+ String c b) = i + Z.of_nat (String.length a).
Proof.
  revert i. induction a as [|x a IH]; intros i Hi Hb; simpl.
  - rewrite (rfind_from_none _ _ _ Hb), Ascii.eqb_refl. simpl. lia.
  - rewrite IH by (lia || assumption).
    destruct (_ =? -1) eqn:E; [apply Z.eqb_eq in E; lia | lia].
Qed.

(** A string splits at its last [c], if it has one. *)
Lemma last_split c s :
  Str.contains c s = false \/
  exists a b, s = a +:+ String c b /\ Str.contains c b = false.
Proof.
  induction s as [|x s [IH|(a & b & -> & Hb)]]; simpl.
  - by left.
  - destruct (Ascii.eqb x c) eqn:E.
    + right. apply Ascii.eqb_eq in E as ->. by exists EmptyString, s.
    + by left.
  - right. by exists (String x a), b.
Qed.

Lemma basename_noslash s : Str.contains Str.slash s = false -> Path.basename s = s.
Proof.
  intros H. unfold Path.basename, Str.rfind, Str.slice_from.
  rewrite (rfind_from_none _ _ _ H). simpl. rewrite Nat.sub_0_r. apply substring_all.
Qed.

Lemma basename_app a b :
  Str.contains Str.slash b = false -> Path.basename (a +:+ String Str.slash b) = b.
Proof.
  intros H. unfold Path.basename, Str.rfind, Str.slice_from.
  rewrite (rfind_from_last _ _ _ _ (Z.le_refl 0) H).
  replace (Z.to_nat (0 + Z.of_nat (String.length a) + 1)) with (S (String.length a)) by lia.
  rewrite string_length_app. simpl.
  replace (String.length a + S (String.length b) - S (String.length a))%nat
    with (String.length b) by lia.
  apply substring_skip.
Qed.

Lemma basename_has_no_slash s : Str.contains Str.slash (Path.basename s) = false.
Proof.
  destruct (last_split Str.slash s) as [H|(a & b & -> & H)].
  - by rewrite basename_noslash.
  - by rewrite basename_app.
Qed.

Lemma endswith_char_split c s :
  Str.endswith_char c s = true -> exists a, s = a +:+ String c EmptyString.
Proof.
  induction s as [|x s IH]; simpl; [discriminate|].
  destruct s as [|y s].
  - intros ->%Ascii.eqb_eq. by exists EmptyString.
  - intros H. destruct (IH H) as [a ->]. by exists (String x a).
Qed.

(** [basename(join(d, f)) = f] for a name [f] without slash. *)
Lemma basename_join d f :
  Str.contains Str.slash f = false -> Path.basename (Path.join d f) = f.
Proof.
  intros Hf. unfold Path.join, Str.startswith.
  assert (Hpre : String.prefix "/" f = false).
  { destruct f as [|x f]; [reflexivity|]. cbn [String.prefix].
    destruct (ascii_dec "/" x) as [<-|]; [discriminate Hf | reflexivity]. }
  rewrite Hpre. destruct d as [|y d].
  - simpl. by apply basename_noslash.
  - change (negb (Str.truthy (String y d))) with false. rewrite orb_false_l.
    destruct (Str.endswith_char Str.slash (String y d)) eqn:E.
    + apply endswith_char_split in E as [a ->].
      rewrite string_app_assoc. by apply (basename_app a).
    + by apply (basename_app (String y d)).
Qed.


Lemma split_first_keeps_none c c' s :
  Str.contains c' s = false -> Str.contains c' (Str.split_first c s) = false.
Proof.
  induction s as [|x s IH]; simpl; [reflexivity|].
  intros H. apply orb_false_elim in H as [Hx Hs].
  destruct (Ascii.eqb x c); simpl; [reflexivity | by rewrite Hx, IH].
Qed.


Lemma startswith_slash_none (n : string) :
  Str.contains Str.slash n = false -> Str.startswith "/" n = false.
Proof.
  unfold Str.startswith. destruct n as [|x n]; [reflexivity|]. cbn [String.prefix].
  intros H. destruct (ascii_dec "/" x) as [<-|]; [discriminate H | reflexivity].
Qed.


Lemma name_has_no_slash file_path :
  Str.contains Str.slash (MinerUWebConverter.name_without_extension file_path) = false.
Proof. apply split_first_keeps_none, basename_has_no_slash. Qed.

Lemma md_name_has_no_slash file_path ext :
  Str.contains Str.slash ext = false ->
  Str.contains Str.slash (MinerUWebConverter.name_without_extension file_path +:+ ext)
  = false.
Proof. intros H. by rewrite contains_app, name_has_no_slash, H. Qed.

End StrFacts.

(* ================================================================== *)
(** * Properties of ProgressTracker                                    *)
(* ================================================================== *)

Section ProgressTrackerFacts.
Import ProgressTracker.
Variable fl : Q -> Q.

Lemma ratio_nonneg (c t : Z) : 0 <= c -> 0 < t -> (0 <= inject_Z c / inject_Z t)%Q.
Proof.
  intros Hc Ht. destruct t as [|p|p]; try lia.
  unfold Qdiv, Qinv, Qmult, Qle, inject_Z. simpl. lia.
Qed.

Lemma float_bound_gt_1 : 1 < float_bound.
Proof. vm_compute. reflexivity. Qed.

(** A quotient below the bound is in the range of the doubles. *)
Lemma no_overflow (c t : Z) :
  0 <= c -> 0 < t -> c < float_bound * t ->
  overflows (inject_Z c / inject_Z t) = false.
Proof.
  intros Hc Ht Hlt. unfold overflows.
  destruct (Qle_bool _ _) eqn:E; [|reflexivity]. exfalso.
  apply Qle_bool_iff in E. rewrite Qabs_pos in E by (by apply ratio_nonneg).
  assert (Htq : (0 < inject_Z t)%Q) by (unfold Qlt, inject_Z; simpl; lia).
  apply (Qmult_le_compat_r _ _ (inject_Z t)) in E; [|by apply Qlt_le_weak].
  rewrite Qmult_comm, (Qmult_comm (_ / _)), Qmult_div_r in E
    by (intros H0; rewrite H0 in Htq; by apply Qlt_irrefl in Htq).
  rewrite <- inject_Z_mult, <- Zle_Qle in E. lia.
Qed.

Lemma updates_cons (c : call) (calls : list call) :
  updates (c :: calls)
  = if is_default_update c then S (updates calls) else updates calls.
Proof.
  unfold updates. rewrite filter_cons.
  destruct (is_default_update c); destruct (decide _); simpl; congruence.
Qed.

Lemma counter_at_0 (c : call) (calls : list call) :
  counter_at (c :: calls) 0 = if is_default_update c then 1 else 0.
Proof.
  unfold counter_at. cbn [take]. rewrite updates_cons.
  by destruct (is_default_update c).
Qed.

Lemma counter_at_S (c : call) (calls : list call) (k : nat) :
  counter_at (c :: calls) (S k)
  = (if is_default_update c then 1 else 0) + counter_at calls k.
Proof.
  unfold counter_at. cbn [take]. rewrite updates_cons.
  destruct (is_default_update c); lia.
Qed.

Lemma updates_take_le (calls : list call) (n : nat) :
  (updates (take n calls) <= updates calls)%nat.
Proof.
  revert n. induction calls as [|c rest IH]; intros [|n]; cbn [take];
    rewrite ?updates_cons; try (unfold updates; simpl; lia).
  specialize (IH n). destruct (is_default_update c); lia.
Qed.

(** In a history of default calls every answer is the snapshot of the
    tracker at that call: its counter is where it started plus the
    [update()] calls so far. *)
Lemma run_default_updates (calls : list call) (self : t) :
  forallb default_or_read calls = true ->
  total (fst (run fl calls self)) = total self /\
  current (fst (run fl calls self)) = current self + Z.of_nat (updates calls) /\
  length (snd (run fl calls self)) = length calls /\
  forall k o, snd (run fl calls self) !! k = Some o ->
              o = info fl (moved self (counter_at calls k)).
Proof.
  revert self. induction calls as [|c rest IH]; intros self Hall.
  - simpl. repeat split; [unfold updates; simpl; lia|]. intros k o [=].
  - simpl in Hall. apply andb_prop in Hall as [Hc1 Hrest]. cbn [run].
    rewrite updates_cons.
    unfold invoke, default_or_read, is_default_update in *.
    assert (Hstep : exists self1 : t,
               (match meth c with
                | Update increment => update fl increment self
                | GetProgress => get_progress fl self
                end) = (self1, info fl self1) /\
               self1 = moved self (counter_at (c :: rest) 0) /\
               counter_at (c :: rest) 0
               = if is_default_update c then 1 else 0).
    { rewrite counter_at_0. unfold is_default_update.
      destruct (meth c) as [inc|] eqn:Em.
      - assert (inc = 1) as -> by (destruct inc as [|[]|]; congruence).
        eexists. split; [reflexivity|]. split; reflexivity.
      - exists self. unfold get_progress, moved. split; [reflexivity|].
        split; [|reflexivity]. destruct self; simpl. f_equal. lia. }
    destruct Hstep as (self1 & -> & Hself1 & H0).
    destruct (IH self1 Hrest) as (T & Cu & L & A).
    destruct (run fl rest self1) as [self2 os]. cbn [fst snd] in *.
    assert (T1 : total self1 = total self) by (by rewrite Hself1).
    assert (C1 : current self1
                 = current self + (if is_default_update c then 1 else 0)).
    { rewrite Hself1, H0. reflexivity. }
    unfold is_default_update in C1.
    split; [congruence|]. split.
    { rewrite Cu, C1. destruct (meth c) as [[|[]|]|]; lia. }
    split; [simpl; lia|].
    intros [|k] o Hk; simpl in Hk.
    + injection Hk as <-. by rewrite Hself1.
    + rewrite (A k o Hk). f_equal. unfold moved. rewrite T1, C1, counter_at_S.
      unfold is_default_update. rewrite Hself1. cbn [description moved].
      f_equal. destruct (meth c) as [[|[]|]|]; lia.
Qed.

Hypothesis fl_nonneg : forall q : Q, (0 <= q)%Q -> (0 <= fl q)%Q.

(** The answer of a tracker with a counter that is not negative. *)
Lemma info_ok (self : t) :
  0 < total self -> 0 <= current self ->
  answer_ok fl (total self) (current self) (info fl self).
Proof.
  intros Ht Hc. unfold info, answer_ok.
  destruct (total self =? 0) eqn:E; [apply Z.eqb_eq in E; lia|]. cbv zeta.
  destruct (overflows _); [reflexivity|].
  eexists. split; [reflexivity|]. simpl. repeat split.
  - apply Q.min_glb; [apply fl_nonneg, ratio_nonneg; assumption | discriminate].
  - apply Q.le_min_r.
Qed.
End ProgressTrackerFacts.


(* ================================================================== *)
(** * Properties of ParallelProcessor.process_items                    *)
(* ================================================================== *)

Section ProcessItemsFacts.
Import ParallelProcessor.
Context {I V W C : Type}.
Implicit Types (futures : list (I * outcome V)) (callback : option (callback_t I V C)).

Lemma returned_raised_length futures :
  (length (returned_values futures) + length (raised_errors futures))%nat = length futures.
Proof.
  induction futures as [|[i [v|e]] rest IH]; simpl; [reflexivity | |];
    unfold returned_values, raised_errors in *; simpl; lia.
Qed.


Lemma submit_all_items (process_func : I -> W -> W * outcome V) items w :
  map fst (snd (submit_all process_func items w)) = items.
Proof.
  revert w. induction items as [|item rest IH]; intros w; simpl; [reflexivity|].
  destruct (process_func item w) as [w1 o].
  specialize (IH w1). destruct (submit_all process_func rest w1) as [w2 fs].
  simpl in *. by rewrite IH.
Qed.

(** One iteration, when it does not leave the loop. *)
Lemma handle_future_spec callback item o st st' :
  handle_future callback item o st = (st', None) ->
  results st' = results st ++ returned_values [(item, o)] /\
  calls st' = calls st ++ calls_of callback [(item, o)] /\
  (forall e, e ∈ errors st \/ e ∈ raised_errors [(item, o)] -> e ∈ errors st').
Proof.
  unfold handle_future, except_Exception, calls_of, returned_values, returned_calls,
    raised_errors.
  destruct o as [v|e]; simpl.
  - destruct callback as [cb|].
    + destruct (cb item v (cb_state st)) as [s' [e|]] eqn:Ecb.
      * destruct (is_Exception e); intros [= <-]; simpl.
        split; [reflexivity|]. split; [reflexivity|].
        intros e' [He'|He']; [apply elem_of_app; by left | by apply elem_of_nil in He'].
      * intros [= <-]; simpl.
        split; [reflexivity|]. split; [reflexivity|].
        intros e' [He'|He']; [assumption | by apply elem_of_nil in He'].
    + intros [= <-]; simpl. rewrite app_nil_r.
      split; [reflexivity|]. split; [reflexivity|].
      intros e' [He'|He']; [assumption | by apply elem_of_nil in He'].
  - destruct (is_Exception e); intros [= <-]; simpl.
    rewrite !app_nil_r.
    split; [reflexivity|]. split; [by destruct callback; rewrite ?app_nil_r|].
    intros e' [He'|He']; apply elem_of_app; [by left | by right].
Qed.

Lemma handle_future_catchable callback item o st :
  catchable_jobs [(item, o)] -> catchable_callback callback ->
  exists st', handle_future callback item o st = (st', None).
Proof.
  intros Hj Hc. apply Forall_inv in Hj. simpl in Hj.
  unfold handle_future, except_Exception.
  destruct o as [v|e].
  - destruct callback as [cb|]; [|eauto].
    simpl. destruct (cb item v (cb_state st)) as [s' [e|]] eqn:Ecb; [|eauto].
    rewrite (Hc cb eq_refl item v (cb_state st) e); [eauto | by rewrite Ecb].
  - rewrite Hj. eauto.
Qed.

Lemma returned_values_cons f futures :
  returned_values (f :: futures) = returned_values [f] ++ returned_values futures.
Proof. apply (omap_app _ [f] futures). Qed.
Lemma raised_errors_cons f futures :
  raised_errors (f :: futures) = raised_errors [f] ++ raised_errors futures.
Proof. apply (omap_app _ [f] futures). Qed.
Lemma calls_of_cons callback f futures :
  calls_of callback (f :: futures) = calls_of callback [f] ++ calls_of callback futures.
Proof. destruct callback; [apply (omap_app _ [f] futures) | reflexivity]. Qed.

(** The loop, when no exception leaves it. *)
Lemma collect_spec callback futures st st' :
  collect callback futures st = (st', None) ->
  results st' = results st ++ returned_values futures /\
  calls st' = calls st ++ calls_of callback futures /\
  (forall e, e ∈ errors st \/ e ∈ raised_errors futures -> e ∈ errors st').
Proof.
  revert st. induction futures as [|[item o] rest IH]; intros st; cbn [collect].
  - intros [= <-]. split; [by rewrite app_nil_r|].
    split; [by destruct callback; simpl; rewrite app_nil_r|].
    intros e [He|He]; [assumption | by apply elem_of_nil in He].
  - destruct (handle_future callback item o st) as [st1 [e|]] eqn:Eh; [discriminate|].
    intros Hrest. apply handle_future_spec in Eh as (R1 & C1 & E1).
    apply IH in Hrest as (R2 & C2 & E2).
    rewrite returned_values_cons, calls_of_cons, raised_errors_cons.
    rewrite R2, R1, C2, C1, <- !app_assoc.
    split; [reflexivity|]. split; [reflexivity|].
    intros e [He|He]; apply E2.
    + left. apply E1. by left.
    + apply elem_of_app in He as [He|He]; [left; apply E1; by right | by right].
Qed.

(** The callback has worked on its state for the returned jobs, in the
    order of the futures. *)
Lemma handle_future_cb_state callback item o st st' r :
  handle_future callback item o st = (st', r) ->
  cb_state st' = run_callbacks callback (returned_calls [(item, o)]) (cb_state st).
Proof.
  unfold handle_future, except_Exception, run_callbacks, returned_calls.
  destruct o as [v|e]; simpl.
  - destruct callback as [cb|]; [|by intros [= <- _]].
    destruct (cb item v (cb_state st)) as [s' [e|]]; simpl.
    + destruct (is_Exception e); by intros [= <- _].
    + by intros [= <- _].
  - destruct (is_Exception e); intros [= <- _]; by destruct callback.
Qed.

Lemma run_callbacks_app callback (calls1 calls2 : list (I * V)) (s : C) :
  run_callbacks callback (calls1 ++ calls2) s
  = run_callbacks callback calls2 (run_callbacks callback calls1 s).
Proof. destruct callback; simpl; [apply fold_left_app | reflexivity]. Qed.

Lemma returned_calls_cons f futures :
  returned_calls (f :: futures) = returned_calls [f] ++ returned_calls futures.
Proof. apply (omap_app _ [f] futures). Qed.

Lemma collect_cb_state callback futures st st' :
  collect callback futures st = (st', None) ->
  cb_state st' = run_callbacks callback (returned_calls futures) (cb_state st).
Proof.
  revert st. induction futures as [|[item o] rest IH]; intros st; cbn [collect].
  - intros [= <-]. by destruct callback.
  - destruct (handle_future callback item o st) as [st1 [e|]] eqn:Eh; [discriminate|].
    intros Hrest. apply handle_future_cb_state in Eh. apply IH in Hrest.
    by rewrite returned_calls_cons, run_callbacks_app, <- Eh.
Qed.

Lemma collect_catchable callback futures st :
  catchable_jobs futures -> catchable_callback callback ->
  exists st', collect callback futures st = (st', None).
Proof.
  intros Hj Hc. revert st.
  induction Hj as [|[item o] rest Hhd Htl IH]; intros st; simpl; [eauto|].
  destruct (handle_future_catchable callback item o st) as [st1 ->]; [|assumption|].
  - constructor; [assumption | constructor].
  - apply IH.
Qed.

(** The loop visits the futures one after the other. *)
Lemma collect_app callback futures1 futures2 st :
  collect callback (futures1 ++ futures2) st =
    match collect callback futures1 st with
    | (st', None) => collect callback futures2 st'
    | r => r
    end.
Proof.
  revert st. induction futures1 as [|[item o] rest IH]; intros st; simpl; [reflexivity|].
  destruct (handle_future callback item o st) as [st1 [e|]]; [reflexivity | apply IH].
Qed.

(** [process_items] in terms of the futures. *)
Lemma process_items_unfold items (process_func : I -> W -> W * outcome V) callback w s :
  process_items items process_func callback w s =
    let futures := snd (submit_all process_func items w) in
    (fst (submit_all process_func items w),
     fst (collect callback futures (start s)),
     match snd (collect callback futures (start s)) with
     | None => Returned (results (fst (collect callback futures (start s))))
     | Some e => Raised e
     end).
Proof.
  unfold process_items. destruct (submit_all process_func items w) as [w' futures]. simpl.
  destruct (collect callback futures (start s)) as [st [e|]]; reflexivity.
Qed.
End ProcessItemsFacts.


(* ================================================================== *)
(** * Properties of the thread pool                                    *)
(* ================================================================== *)

Section PoolFacts.
Import ParallelProcessor ParallelProcessor.Pool.
Context {I V C : Type}.
Variable max_workers : nat.
Variable futures : list (I * outcome V).
Variable callback : option (callback_t I V C).
Variable s : C.







End PoolFacts.


(* ================================================================== *)
(** * Properties of the batch aggregation                              *)
(* ================================================================== *)

Section MonadFacts.
Lemma bind_inv {A B} (m : M A) (k : A -> M B) (w w' : world) (o : outcome B) :
  bind m k w = (w', o) ->
  (exists e, m w = (w', Raised e) /\ o = Raised e) \/
  (exists a w1, m w = (w1, Returned a) /\ k a w1 = (w', o)).
Proof.
  unfold bind. destruct (m w) as [w1 [a|e]].
  - intros H. right. eauto.
  - intros [= <- <-]. left. eauto.
Qed.

Lemma bind_returned {A B} (m : M A) (k : A -> M B) (w w' : world) (b : B) :
  bind m k w = (w', Returned b) ->
  exists a w1, m w = (w1, Returned a) /\ k a w1 = (w', Returned b).
Proof.
  intros H. apply bind_inv in H as [(e & _ & [=])|H]. exact H.
Qed.
End MonadFacts.

Section AggregateFacts.
Import MinerUWebConverter.
Implicit Types (p : string) (w : world) (r : string * option string).

Lemma grows_refl p w : grows p [] w w.
Proof. repeat split. by left. Qed.

Lemma grows_trans p new1 new2 w w1 w2 :
  grows p new1 w w1 -> grows p new2 w1 w2 -> grows p (new1 ++ new2) w w2.
Proof.
  intros (C1 & T1 & F1) (C2 & T2 & F2).
  split; [congruence|]. split; [congruence|].
  destruct F1 as [[-> F1]|(ms & L1 & F1)], F2 as [[-> F2]|(ms2 & L2 & F2)].
  - left. split; [reflexivity | congruence].
  - right. exists ms2. rewrite F1 in L2, F2. by split.
  - right. exists ms. rewrite app_nil_r. split; [assumption | congruence].
  - right. exists ms. split; [assumption|].
    rewrite F1, lookup_insert_eq in L2. injection L2 as <-.
    by rewrite F2, F1, insert_insert_eq, app_assoc.
Qed.

Lemma grows_other p new w w' q : grows p new w w' -> q <> p -> files w' !! q = files w !! q.
Proof.
  intros (_ & _ & [[_ ->]|(ms & _ & ->)]) Hq; [reflexivity|].
  by rewrite lookup_insert_ne.
Qed.

Lemma grows_members p new w w' ms :
  files w !! p = Some (FS.File (FS.Archive ms)) -> grows p new w w' ->
  files w' !! p = Some (FS.File (FS.Archive (ms ++ new))).
Proof.
  intros L (_ & _ & [[-> ->]|(ms' & L' & ->)]).
  - by rewrite app_nil_r.
  - rewrite L in L'. injection L' as <-. by rewrite lookup_insert_eq.
Qed.

Lemma append_member_spec p (m : Zip.member) w w' o :
  Zip.append_member p m w = (w', o) ->
  (grows p [m] w w' /\ o = Returned tt) \/ (w' = w /\ exists e, o = Raised e).
Proof.
  unfold Zip.append_member, with_files.
  destruct (files w !! p) as [[|[bytes|ms]]|] eqn:L; intros [= <- <-]; eauto.
  left. split; [|reflexivity]. repeat split. right. eauto.
Qed.

(** A loop of [append_member]: a prefix of the members is appended, all of
    them when the loop returns. *)
Lemma for_each_append p {A} (g : A -> Zip.member) (body : A -> M unit) (l : list A) w w' o :
  (forall x w0, body x w0 = Zip.append_member p (g x) w0) ->
  for_each l body w = (w', o) ->
  exists done, grows p (map g done) w w' /\ done `prefix_of` l /\
               (o = Returned tt -> done = l).
Proof.
  intros Hbody. revert w. induction l as [|x l IH]; intros w; cbn [for_each].
  - intros [= <- <-]. exists []. split; [apply grows_refl | done].
  - intros H. apply bind_inv in H as [(e & H & ->)|(a & w1 & H & Hrest)];
      rewrite Hbody in H; apply append_member_spec in H as [[Hg Ho]|[Hw (e' & Ho)]];
      try discriminate.
    + injection Ho as ->. subst w'. exists []. split; [apply grows_refl|].
      split; [apply prefix_nil | discriminate].
    + apply IH in Hrest as (done & Hg' & Hpre & Hall).
      exists (x :: done). split; [apply (grows_trans p [g x] _ w w1 w'); assumption|].
      split; [by apply prefix_cons|]. intros Ho'. by rewrite (Hall Ho').
Qed.

Lemma job_entries_from_result fs r m : m ∈ job_entries fs r -> from_result r m.
Proof.
  unfold job_entries, from_result.
  destruct (snd r) as [zp|]; [|by intros ?%elem_of_nil].
  destruct (Str.truthy zp) eqn:T; [|by intros ?%elem_of_nil].
  destruct (fs !! zp) as [[|[bytes|ms]]|]; try by intros ?%elem_of_nil.
  intros Hm. apply list_elem_of_In, in_map_iff in Hm as (x & <- & _).
  exists zp, (fst x). auto.
Qed.

Lemma job_entries_ext fs1 fs2 r :
  (forall zip_path, snd r = Some zip_path -> fs1 !! zip_path = fs2 !! zip_path) ->
  job_entries fs1 r = job_entries fs2 r.
Proof.
  unfold job_entries. intros H. destruct (snd r) as [zp|]; [|reflexivity].
  by rewrite (H zp eq_refl).
Qed.

Lemma flat_map_job_entries_ext fs1 fs2 (results : list (string * option string)) :
  Forall (fun r => forall zip_path, snd r = Some zip_path ->
                     fs1 !! zip_path = fs2 !! zip_path) results ->
  flat_map (job_entries fs1) results = flat_map (job_entries fs2) results.
Proof.
  induction 1 as [|r results Hr _ IH]; cbn [flat_map]; [reflexivity|].
  by rewrite (job_entries_ext fs1 fs2 r Hr), IH.
Qed.

Lemma archive_result_spec p r w w' o :
  archive_result p r w = (w', o) ->
  exists new, grows p new w w' /\ new `prefix_of` job_entries (files w) r /\
              (o = Returned tt -> new = job_entries (files w) r).
Proof.
  unfold archive_result, job_entries.
  destruct (snd r) as [zp|];
    [|intros [= <- <-]; exists []; split; [apply grows_refl | done]].
  destruct (Str.truthy zp);
    [|intros [= <- <-]; exists []; split; [apply grows_refl | done]].
  unfold bind at 1, read_files at 1, FS.exists_.
  destruct (files w !! zp) as [n|] eqn:L.
  - rewrite bool_decide_eq_true_2 by eauto.
    unfold bind at 1, Zip.ZipFile_r, bind at 1, read_files. rewrite L.
    destruct n as [|[bytes|ms]]; unfold raise, ret.
    + intros [= <- <-]. exists []. split; [apply grows_refl|]. split; [done | discriminate].
    + intros [= <- <-]. exists []. split; [apply grows_refl|]. split; [done | discriminate].
    + intros H.
      apply (for_each_append p (fun m => (Path.join (base_name zp) (fst m), snd m))) in H
        as (done & Hg & Hpre & Hall); [|by intros [rel data] w0].
      exists (map (fun m => (Path.join (base_name zp) (fst m), snd m)) done).
      split; [assumption|]. split.
      * destruct Hpre as [rest ->]. rewrite List.map_app. by eexists.
      * intros Ho. by rewrite (Hall Ho).
  - rewrite bool_decide_eq_false_2 by (by intros [? ?]).
    intros [= <- <-]. exists []. split; [apply grows_refl | done].
Qed.

(** The loop over [results]. *)
Lemma for_each_archive_result p (results : list (string * option string)) w w' o :
  for_each results (archive_result p) w = (w', o) ->
  exists new,
    grows p new w w' /\
    Forall (fun m => exists r, r ∈ results /\ from_result r m) new /\
    (o = Returned tt -> Forall (fun r => snd r <> Some p) results ->
     new = flat_map (job_entries (files w)) results).
Proof.
  revert w. induction results as [|r results IH]; intros w; cbn [for_each].
  - intros [= <- <-]. exists []. split; [apply grows_refl|]. split; [constructor | done].
  - intros H. apply bind_inv in H as [(e & H & ->)|([] & w1 & H & Hrest)];
      apply archive_result_spec in H as (new1 & Hg1 & Hpre1 & Hall1).
    + exists new1. split; [assumption|]. split; [|discriminate].
      apply Forall_forall. intros m Hm. exists r. split; [apply list_elem_of_here|].
      apply (job_entries_from_result (files w)).
      destruct Hpre1 as [rest ->]. apply elem_of_app. by left.
    + apply IH in Hrest as (new2 & Hg2 & Horigin & Hall2).
      exists (new1 ++ new2). split; [by apply (grows_trans p new1 new2 w w1 w')|].
      split.
      * apply Forall_app. split.
        -- apply Forall_forall. intros m Hm. exists r. split; [apply list_elem_of_here|].
           apply (job_entries_from_result (files w)).
           destruct Hpre1 as [rest ->]. apply elem_of_app. by left.
        -- eapply Forall_impl; [exact Horigin|]. intros m (r' & Hr' & Hm).
           exists r'. split; [by apply list_elem_of_further | assumption].
      * intros Ho Hne. apply Forall_cons in Hne as [Hr Hne].
        cbn [flat_map]. rewrite (Hall1 eq_refl), (Hall2 Ho Hne). f_equal.
        apply flat_map_job_entries_ext.
        eapply Forall_impl; [exact Hne|]. intros r' Hr' zp Hzp.
        apply (grows_other p new1 w w1); [assumption|].
        intros ->. by apply Hr'.
Qed.
End AggregateFacts.


Section BatchFacts.
Import MinerUWebConverter.
Variable output_dir : string.
Variable pdf_pipeline : string -> string -> string -> string -> Ext string.
Variable docx_Document : string -> Ext Docx.document.
Variable image_ocr : string -> string -> string -> Ext string.
Variable fl : Q -> Q.

Abbreviation process_file :=
  (process_file output_dir pdf_pipeline docx_Document image_ocr).
Abbreviation batch_process_files :=
  (batch_process_files output_dir pdf_pipeline docx_Document image_ocr fl).

Lemma _process_pdf_zip_path file_path task_id w w' r :
  _process_pdf output_dir pdf_pipeline file_path task_id w = (w', Returned r) ->
  zip_path r = job_zip_path output_dir task_id file_path.
Proof.
  unfold _process_pdf. intros H.
  apply bind_returned in H as (? & ? & _ & H).
  apply bind_returned in H as (? & ? & _ & H).
  apply bind_returned in H as (? & ? & _ & H).
  by injection H as _ <-.
Qed.




(** Every future of [submit_all] is the outcome of a call of the job on
    its item. *)
Lemma submit_all_outcomes {I V W : Type} (f : I -> W -> W * outcome V) items w item o :
  (item, o) ∈ snd (ParallelProcessor.submit_all f items w) ->
  item ∈ items /\ exists w0, o = snd (f item w0).
Proof.
  revert w. induction items as [|i items IH]; intros w; simpl.
  - by intros ?%elem_of_nil.
  - destruct (f i w) as [w1 o1] eqn:E1.
    specialize (IH w1). destruct (ParallelProcessor.submit_all f items w1) as [w2 fs].
    simpl in *. intros [[= -> ->]|Hin]%elem_of_cons.
    + split; [apply list_elem_of_here|]. exists w. by rewrite E1.
    + destruct (IH Hin) as [Hitem Hw0]. split; [by apply list_elem_of_further | assumption].
Qed.

Lemma returned_values_elem {I V : Type} (futures : list (I * outcome V)) v :
  v ∈ returned_values futures -> exists item, (item, Returned v) ∈ futures.
Proof.
  unfold returned_values. intros ([item [v'|e]] & Hin & Hv)%list_elem_of_omap; [|discriminate].
  injection Hv as ->. eauto.
Qed.

(** The results that [process_items] returns are results of jobs. *)
Lemma process_items_results {I V W C : Type} items (f : I -> W -> W * outcome V)
    (callback : option (ParallelProcessor.callback_t I V C)) w s w' st rs v :
  ParallelProcessor.process_items items f callback w s = (w', st, Returned rs) ->
  v ∈ rs -> exists item w0, item ∈ items /\ snd (f item w0) = Returned v.
Proof.
  rewrite process_items_unfold. cbv zeta.
  destruct (ParallelProcessor.collect callback _ _) as [st1 [e|]] eqn:Ec; [discriminate|].
  simpl. intros [= _ _ <-] Hv.
  apply collect_spec in Ec as (R & _ & _). simpl in R. rewrite R in Hv.
  apply returned_values_elem in Hv as [item Hin].
  apply submit_all_outcomes in Hin as [Hitem [w0 Ho]]. eauto.
Qed.

(** The batch archive after a batch that returned. *)
Lemma aggregate_spec p (results : list (string * option string)) w w' o :
  aggregate p results w = (w', o) ->
  (w' = w /\ exists e, o = Raised e) \/
  exists new,
    files w' = <[p := FS.File (FS.Archive new)]> (files w) /\
    Forall (fun m => exists r, r ∈ results /\ from_result r m) new /\
    (o = Returned tt -> Forall (fun r => snd r <> Some p) results ->
     new = flat_map (job_entries (files w)) results).
Proof.
  unfold aggregate. intros H.
  apply bind_inv in H as [(e & H & ->)|([] & w1 & H & Hloop)].
  - left. unfold Zip.ZipFile_w, with_files in H.
    destruct (FS.write_file _ _ _); [discriminate|]. injection H as <- _. eauto.
  - right. unfold Zip.ZipFile_w, with_files in H.
    destruct (FS.write_file p _ (files w)) as [fs1|] eqn:Ew; [|discriminate].
    injection H as <-.
    assert (Hfs1 : fs1 = <[p := FS.File (FS.Archive [])]> (files w)).
    { unfold FS.write_file in Ew. destruct (files w !! p) as [[|c]|];
        try discriminate; destruct (FS.parent_is_dir _ _); by inversion Ew. }
    apply for_each_archive_result in Hloop as (new & Hg & Horigin & Hall).
    exists new. split; [|split; [assumption|]].
    + destruct Hg as (_ & _ & [[-> ->]|(ms & L & ->)]); simpl in *; [assumption|].
      rewrite Hfs1, lookup_insert_eq in L. injection L as <-.
      by rewrite Hfs1, insert_insert_eq.
    + intros Ho Hne. rewrite (Hall Ho Hne). simpl.
      apply flat_map_job_entries_ext.
      eapply Forall_impl; [exact Hne|]. intros r Hr zp Hzp.
      rewrite Hfs1. apply lookup_insert_ne. intros ->. by apply Hr.
Qed.
End BatchFacts.


(* ================================================================== *)
(** * Main results: ProgressTracker and ParallelProcessor              *)
(* ================================================================== *)

(** ** C2 *)

(** C2.  For a tracker constructed with [total > 0] and any history of
    [update()] calls with the default increment and [get_progress()] calls,
    made by any callers: the counter ends at the number of [update()] calls,
    every call answers, and the answer of the call at position [k] is the
    snapshot of the tracker at that moment: it shows the counter, which is the
    number of [update()] calls made so far, and
    [progress = min(counter / total, 1.0)], within [0, 1].  The only other
    answer is the OverflowError of the division, for a counter of at least
    [(2^1024 - 2^970) * total]; a history with fewer [update()] calls than
    [2^1024 - 2^970] has no such call.  The bounds hold for every rounding
    [fl] of the division that keeps non-negative numbers non-negative, as
    rounding to the nearest double does. *)
Theorem C2_progress_within_unit_interval
    (fl : Q -> Q) (fl_nonneg : forall q : Q, (0 <= q)%Q -> (0 <= fl q)%Q)
    (total : Z) (description : string) (calls : list ProgressTracker.call) :
  0 < total ->
  forallb ProgressTracker.default_or_read calls = true ->
  let '(final, snapshots) :=
    ProgressTracker.run fl calls (ProgressTracker.__init__ total description) in
  ProgressTracker.current final = Z.of_nat (updates calls) /\
  length snapshots = length calls /\
  (forall k o, snapshots !! k = Some o -> answer_ok fl total (counter_at calls k) o) /\
  (Z.of_nat (updates calls) < ProgressTracker.float_bound ->
   forall k o, snapshots !! k = Some o -> snapshot_ok fl total (counter_at calls k) o).
Proof.
  intros Ht Hall.
  pose proof (run_default_updates fl calls
                (ProgressTracker.__init__ total description) Hall)
    as (_ & Hcur & Hlen & Hsnap).
  destruct (ProgressTracker.run fl calls _) as [final snapshots].
  cbn [fst snd] in *.
  assert (Hanswer : forall k o, snapshots !! k = Some o ->
                      answer_ok fl total (counter_at calls k) o).
  { intros k o Hk. rewrite (Hsnap k o Hk).
    apply (info_ok fl fl_nonneg (moved (ProgressTracker.__init__ total description)
                                       (counter_at calls k)));
      [exact Ht | unfold counter_at; simpl; lia]. }
  split; [simpl in Hcur; lia|]. split; [exact Hlen|]. split; [exact Hanswer|].
  intros Hbound k o Hk. specialize (Hanswer k o Hk). unfold answer_ok in Hanswer.
  rewrite no_overflow in Hanswer; [exact Hanswer | unfold counter_at; lia | exact Ht |].
  pose proof (updates_take_le calls (S k)). pose proof float_bound_gt_1.
  unfold counter_at. nia.
Qed.

Lemma C2_witness :
  (forall q : Q, (0 <= q)%Q -> (0 <= Sample.fl q)%Q) /\
  0 < 2 /\
  forallb ProgressTracker.default_or_read Sample.history = true /\
  Z.of_nat (updates Sample.history) < ProgressTracker.float_bound /\
  let '(final, snapshots) :=
    ProgressTracker.run Sample.fl Sample.history (ProgressTracker.__init__ 2 "batch") in
  ProgressTracker.current final = Z.of_nat (updates Sample.history) /\
  length snapshots = length Sample.history /\
  forall k o, snapshots !! k = Some o ->
              snapshot_ok Sample.fl 2 (counter_at Sample.history k) o.
Proof.
  split; [intros q Hq; exact Hq|].
  split; [lia|].
  split; [reflexivity|].
  assert (Hb : Z.of_nat (updates Sample.history) < ProgressTracker.float_bound)
    by (vm_compute; reflexivity).
  split; [exact Hb|].
  pose proof (C2_progress_within_unit_interval Sample.fl (fun q Hq => Hq) 2 "batch"
                Sample.history ltac:(lia) eq_refl) as H.
  destruct (ProgressTracker.run Sample.fl Sample.history _) as [final snapshots].
  destruct H as (Hcur & Hlen & _ & Hsnap).
  split; [exact Hcur|]. split; [exact Hlen | exact (Hsnap Hb)].
Defined.

(** ** C6 *)

(** C6, as the code has it.  The constructor accepts [total = 0]: it stores
    the fields and checks nothing.  The division by zero then happens in the
    first [update] (after the counter was incremented) or [get_progress],
    which raise ZeroDivisionError. *)
Theorem C6_zero_total_is_accepted (fl : Q -> Q) (description : string) (increment : Z) :
  ProgressTracker.__init__ 0 description
    = {| ProgressTracker.total := 0; ProgressTracker.current := 0;
         ProgressTracker.description := description |} /\
  ProgressTracker.update fl increment (ProgressTracker.__init__ 0 description)
    = ({| ProgressTracker.total := 0; ProgressTracker.current := increment;
          ProgressTracker.description := description |}, Raised ZeroDivisionError) /\
  ProgressTracker.get_progress fl (ProgressTracker.__init__ 0 description)
    = (ProgressTracker.__init__ 0 description, Raised ZeroDivisionError).
Proof. repeat split. Qed.

(** C6 as stated fails: what a rejecting constructor would guarantee, that
    every constructed tracker has [total > 0] and never divides by zero, does
    not hold for [total = 0]. *)
Lemma C6_counterexample :
  ~ (forall (total : Z) (description : string) (fl : Q -> Q),
       0 < ProgressTracker.total (ProgressTracker.__init__ total description) /\
       snd (ProgressTracker.update fl 1 (ProgressTracker.__init__ total description))
         <> Raised ZeroDivisionError).
Proof.
  intros H. destruct (H 0 "batch" Sample.fl) as [Hpos _]. simpl in Hpos. lia.
Qed.


(** ** C1 *)




(** ** C10 *)

(** C10.  The futures are visited in the order of submission.  When nothing
    outside [Exception] is raised, the returned list holds the results of the
    jobs that returned, in the order in which their items were submitted (its
    k-th element is the result of the k-th item whose job did not raise), and
    the callback has run for the same items one after the other in that
    order: the state it works on is the one that these calls leave, each call
    starting from what the call before left, and the log of the calls lists
    them in that order. *)
Theorem C10_results_in_submission_order {I V W C : Type}
    (items : list I) (process_func : I -> W -> W * outcome V)
    (callback : option (ParallelProcessor.callback_t I V C)) (w : W) (s : C) :
  let futures := snd (ParallelProcessor.submit_all process_func items w) in
  catchable_jobs futures ->
  catchable_callback callback ->
  map fst futures = items /\
  exists w' st,
    ParallelProcessor.process_items items process_func callback w s
      = (w', st, Returned (returned_values futures)) /\
    ParallelProcessor.cb_state st = run_callbacks callback (returned_calls futures) s /\
    ParallelProcessor.calls st = calls_of callback futures.
Proof.
  intros futures Hj Hc. split; [apply submit_all_items|].
  rewrite process_items_unfold. fold futures. cbv zeta.
  destruct (collect_catchable callback futures (ParallelProcessor.start s) Hj Hc) as [st Est].
  rewrite Est. simpl.
  pose proof (collect_cb_state _ _ _ _ Est) as Hstate.
  apply collect_spec in Est as (R & Cs & _). simpl in R, Cs, Hstate.
  eexists _, st. rewrite R. split; [reflexivity|]. split; assumption.
Qed.

Lemma C10_witness :
  let futures := snd (ParallelProcessor.submit_all Sample.job [3; 2; 1]%nat tt) in
  catchable_jobs futures /\
  catchable_callback (Some Sample.record_calls) /\
  map fst futures = [3; 2; 1]%nat /\
  returned_values futures = [30; 10]%nat /\
  exists w' st,
    ParallelProcessor.process_items [3; 2; 1]%nat Sample.job (Some Sample.record_calls) tt []
      = (w', st, Returned [30; 10]%nat) /\
    ParallelProcessor.cb_state st = [3; 1]%nat /\
    ParallelProcessor.calls st = [(3, 30); (1, 10)]%nat.
Proof.
  assert (Hj : catchable_jobs (snd (ParallelProcessor.submit_all Sample.job [3; 2; 1]%nat tt))).
  { repeat constructor. }
  assert (Hc : catchable_callback (Some Sample.record_calls)).
  { intros cb [= <-] i v n e. discriminate. }
  split; [exact Hj|]. split; [exact Hc|].
  destruct (C10_results_in_submission_order [3; 2; 1]%nat Sample.job (Some Sample.record_calls)
              tt [] Hj Hc) as [Hitems (w' & st & Hrun & Hstate & Hcalls)].
  split; [exact Hitems|]. split; [reflexivity|].
  exists w', st. split; [exact Hrun|]. split; [exact Hstate | exact Hcalls].
Defined.




(** ** C7 *)





(* ================================================================== *)
(** * Main results: MinerUWebConverter                                 *)
(* ================================================================== *)

(** ** C5 *)

(** C5.  For a path whose lower-cased extension is none of .pdf, .doc,
    .docx, .jpg, .jpeg, .png, .gif, [process_file] returns the pair of the
    message and [None] at once: the clock was read once, no file or directory
    was touched, and no collaborator was called, whatever the collaborators
    are. *)
Theorem C5_unsupported_extension_is_immediate
    (output_dir : string)
    (pdf_pipeline : string -> string -> string -> string -> Ext string)
    (docx_Document : string -> Ext Docx.document)
    (image_ocr : string -> string -> string -> Ext string)
    (file_path : string) (w : world) :
  file_ext file_path ∉ supported_extensions ->
  MinerUWebConverter.process_file output_dir pdf_pipeline docx_Document image_ocr file_path w
    = ({| files := files w; clock := clock w; ticks := S (ticks w) |},
       Returned ("不支持的文件类型", None)).
Proof.
  intros Hext. unfold MinerUWebConverter.process_file, bind, time_time.
  cbv beta iota zeta.
  change (Str.lower (snd (Path.splitext file_path))) with (file_ext file_path).
  assert (Hne : forall e, e ∈ supported_extensions -> String.eqb (file_ext file_path) e = false).
  { intros e He. apply String.eqb_neq. intros Heq. rewrite Heq in Hext. contradiction. }
  unfold supported_extensions in Hne.
  cbn [existsb].
  rewrite !Hne by (repeat first [apply list_elem_of_here | apply list_elem_of_further]).
  reflexivity.
Qed.

Lemma C5_witness :
  (file_ext "uploads/c.XYZ" ∉ supported_extensions) /\
  Sample.process_file "uploads/c.XYZ" Sample.quarters
    = ({| files := ∅; clock := clock Sample.quarters; ticks := 1 |},
       Returned ("不支持的文件类型", None)).
Proof.
  assert (H : file_ext "uploads/c.XYZ" ∉ supported_extensions).
  { apply (bool_decide_eq_true_1 _). reflexivity. }
  split; [exact H|].
  exact (C5_unsupported_extension_is_immediate "output" Sample.pdf_pipeline
           Sample.docx_Document Sample.image_ocr "uploads/c.XYZ" Sample.quarters H).
Defined.

(** ** C9 *)


(** C9 as stated fails: the table block of the scenario has three lines
    (header, separator, one data row), not four. *)
Lemma C9_counterexample :
  ~ (exists block : string,
       MinerUWebConverter.document_md "output/task_1/images"
         (Sample.intro_document "Heading 1" "A" "B" "1" "2") Sample.quarters
         = (Sample.quarters, Returned ("# Intro" +:+ nl +:+ nl +:+ block)) /\
       length (Str.split_lines block) = 4%nat).
Proof.
  intros (block & Hmd & Hlines).
  vm_compute in Hmd. injection Hmd as <-.
  vm_compute in Hlines. discriminate Hlines.
Qed.

Lemma table_row_two (x y : string) :
  MinerUWebConverter.table_row [x; y] = "| " +:+ x +:+ " | " +:+ y +:+ " |".
Proof.
  unfold MinerUWebConverter.table_row, Str.join. cbn [String.concat].
  by rewrite !string_app_assoc.
Qed.

(** C9, as the code has it.  The document with one paragraph "Intro" of
    style "Heading 1" (python-docx's name of the style; "Heading1" gives the
    same) and one table of two rows and two columns gives, byte for byte,
    [# Intro], an empty line, and a table block of three lines: the header
    row, the separator row and one data row, the cell texts stripped.  No
    file is written. *)
Theorem C9_heading_and_table_markdown
    (local_image_dir : string) (a b c d : string) (w : world) :
  let header := "| " +:+ Str.strip a +:+ " | " +:+ Str.strip b +:+ " |" in
  let separator := "| --- | --- |" in
  let data := "| " +:+ Str.strip c +:+ " | " +:+ Str.strip d +:+ " |" in
  let expected := "# Intro" +:+ nl +:+ nl +:+ header +:+ nl +:+ separator +:+ nl +:+ data in
  MinerUWebConverter.table_md {| Docx.rows := [[a; b]; [c; d]] |}
    = Returned [header; separator; data] /\
  MinerUWebConverter.document_md local_image_dir
    (Sample.intro_document "Heading 1" a b c d) w = (w, Returned expected) /\
  MinerUWebConverter.document_md local_image_dir
    (Sample.intro_document "Heading1" a b c d) w = (w, Returned expected).
Proof.
  cbv zeta.
  assert (Htable : MinerUWebConverter.table_md {| Docx.rows := [[a; b]; [c; d]] |}
            = Returned [ "| " +:+ Str.strip a +:+ " | " +:+ Str.strip b +:+ " |";
                         "| --- | --- |";
                         "| " +:+ Str.strip c +:+ " | " +:+ Str.strip d +:+ " |" ]).
  { unfold MinerUWebConverter.table_md. cbn [Docx.rows map length repeat].
    by rewrite !table_row_two. }
  split; [exact Htable|].
  assert (Hdoc : forall style,
            MinerUWebConverter.paragraph_text
              {| Docx.text := "Intro"; Docx.style_name := style; Docx.runs := [] |} []
              = Returned ["# Intro"] ->
            MinerUWebConverter.document_md local_image_dir
              (Sample.intro_document style a b c d) w
            = (w, Returned ("# Intro" +:+ nl +:+ nl +:+
                 ("| " +:+ Str.strip a +:+ " | " +:+ Str.strip b +:+ " |") +:+ nl +:+
                 "| --- | --- |" +:+ nl +:+
                 "| " +:+ Str.strip c +:+ " | " +:+ Str.strip d +:+ " |"))).
  { intros style Hpar.
    unfold MinerUWebConverter.document_md, Sample.intro_document.
    cbn [Docx.paragraphs Docx.tables fold_M].
    unfold MinerUWebConverter.paragraph_md at 1. cbn [fst snd Docx.runs].
    rewrite Hpar. cbn [bind of_outcome fold_M ret fst snd MinerUWebConverter.tables_md].
    rewrite Htable. cbn [app Str.join String.concat].
    by rewrite !string_app_assoc. }
  split; apply Hdoc; reflexivity.
Qed.

(** The bytes of the scenario's Markdown for the cells A, B, 1, 2. *)
Example C9_bytes :
  snd (MinerUWebConverter.document_md "images"
         (Sample.intro_document "Heading 1" " A" "B " "1" "2") Sample.quarters)
  = Returned ("# Intro" +:+ nl +:+ nl +:+ "| A | B |" +:+ nl +:+ "| --- | --- |" +:+ nl
                +:+ "| 1 | 2 |").
Proof. reflexivity. Qed.

(** ** C3 *)

(** Task IDs depend on the whole second of the clock reading only. *)
Lemma task_id_same_second (prefix : string) (t1 t2 : Q) :
  int_of_float t1 = int_of_float t2 ->
  MinerUWebConverter.task_id_at prefix t1 = MinerUWebConverter.task_id_at prefix t2.
Proof. unfold MinerUWebConverter.task_id_at. by intros ->. Qed.

Lemma string_app_inv_head (p s1 s2 : string) : p +:+ s1 = p +:+ s2 -> s1 = s2.
Proof. induction p as [|c p IH]; simpl; [done|]. intros [= H]. by apply IH. Qed.

Lemma task_id_other_second (prefix : string) (t1 t2 : Q) :
  int_of_float t1 <> int_of_float t2 ->
  MinerUWebConverter.task_id_at prefix t1 <> MinerUWebConverter.task_id_at prefix t2.
Proof.
  unfold MinerUWebConverter.task_id_at. intros Hne Heq. apply Hne.
  apply string_app_inv_head in Heq. by apply (inj pretty) in Heq.
Qed.

(** C3 fails on the code.  Two jobs whose clock readings 1700000000.25 and
    1700000000.50 differ but lie in the same second get the same task ID
    [task_1700000000] and the same workspace [output/task_1700000000]: the
    archive of the second job (b.docx) holds the page image that the first
    job (a.pdf) wrote into the shared image directory. *)
Theorem C3_same_second_same_workspace :
  let w0 := fst (MinerUWebConverter.__init__ "output" Sample.quarters) in
  let '(w1, r1) := Sample.process_file "a.pdf" w0 in
  let '(w2, r2) := Sample.process_file "b.docx" w1 in
  ~ (clock w0 0 == clock w0 1)%Q /\
  MinerUWebConverter.task_id_at "task_" (clock w0 0) = "task_1700000000" /\
  MinerUWebConverter.task_id_at "task_" (clock w0 1) = "task_1700000000" /\
  Path.join "output" (MinerUWebConverter.task_id_at "task_" (clock w0 0))
    = Path.join "output" (MinerUWebConverter.task_id_at "task_" (clock w0 1)) /\
  snd <$> returned r1 = Some (Some "output/task_1700000000/a.zip") /\
  snd <$> returned r2 = Some (Some "output/task_1700000000/b.zip") /\
  files w2 !! "output/task_1700000000/images/page1.png" = Some (FS.File (FS.Raw "PNG")) /\
  exists md, files w2 !! "output/task_1700000000/b.zip"
    = Some (FS.File (FS.Archive [("b.md", md); ("images/page1.png", FS.Raw "PNG")])).
Proof.
  vm_compute. repeat split; try reflexivity; try discriminate. eexists. reflexivity.
Qed.


(** ** C4 *)

Section BatchArchiveFacts.
Local Arguments String.append !s1 s2 : simpl nomatch.

End BatchArchiveFacts.




(** ** C8 *)

(** C8 as stated fails.  The batch of report.pdf and report.docx, converted
    in different seconds, returns an archive in which both jobs are written
    under the one directory [report]: the name [report/report.md] occurs
    twice. *)
Lemma C8_counterexample :
  ~ (forall (file_paths : list string) (w w' : world) (p : string) (ms : list Zip.member),
       Sample.batch_process_files file_paths w = (w', Returned p) ->
       files w' !! p = Some (FS.File (FS.Archive ms)) ->
       NoDup (map fst ms)).
Proof.
  intros H.
  pose (w := Sample.ready Sample.seconds).
  pose (w' := fst (Sample.batch_process_files ["report.pdf"; "report.docx"] w)).
  specialize (H ["report.pdf"; "report.docx"] w w'
                "output/batch_1700000000/batch_results.zip"
                [ ("report/report.md", FS.Raw "pdf text");
                  ("report/images/page1.png", FS.Raw "PNG");
                  ("report/report.md",
                   FS.Raw ("# Intro" +:+ nl +:+ nl +:+ "| A | B |" +:+ nl +:+
                           "| --- | --- |" +:+ nl +:+ "| 1 | 2 |")) ]).
  assert (Hdup : NoDup ["report/report.md"; "report/images/page1.png"; "report/report.md"]).
  { apply H; vm_compute; reflexivity. }
  apply NoDup_cons in Hdup as [Hnotin _]. apply Hnotin.
  apply list_elem_of_further, list_elem_of_here.
Qed.

(** C8, as the code has it.  No disambiguation is applied.  When the
    aggregation returns (and no result names the batch archive itself), the
    batch archive holds, result after result, the files of each archive that
    exists, each under [base_name/], the base name of the archive's file name:
    the archive's members are exactly [job_entries] of the results in order.
    Jobs whose archives have the same base name are written under the same
    directory. *)
Theorem C8_jobs_are_written_under_their_base_name
    (p : string) (results : list (string * option string)) (w w' : world) :
  MinerUWebConverter.aggregate p results w = (w', Returned tt) ->
  Forall (fun r => snd r <> Some p) results ->
  files w' !! p
    = Some (FS.File (FS.Archive (flat_map (job_entries (files w)) results))) /\
  forall md zip_path members,
    Str.truthy zip_path = true ->
    files w !! zip_path = Some (FS.File (FS.Archive members)) ->
    map fst (job_entries (files w) (md, Some zip_path))
      = map (Path.join (MinerUWebConverter.base_name zip_path))
            (map fst (Zip.extract_walk members)).
Proof.
  intros Hagg Hne. split.
  - apply aggregate_spec in Hagg as [[_ [e [=]]]|(new & Hfiles & _ & Hall)].
    rewrite Hfiles, lookup_insert_eq, (Hall eq_refl Hne). reflexivity.
  - intros md zp members Ht Hzp. unfold job_entries. simpl. rewrite Ht, Hzp.
    rewrite !List.map_map. reflexivity.
Qed.

Lemma C8_witness :
  let p := "out/batch_3/batch_results.zip" in
  let w' := fst (MinerUWebConverter.aggregate p Sample.collision_results Sample.collision) in
  MinerUWebConverter.aggregate p Sample.collision_results Sample.collision
    = (w', Returned tt) /\
  Forall (fun r => snd r <> Some p) Sample.collision_results /\
  files w' !! p
    = Some (FS.File (FS.Archive [ ("report/report.md", FS.Raw "from the PDF");
                                  ("report/report.md", FS.Raw "from the DOCX") ])).
Proof.
  intros p w'.
  assert (Hagg : MinerUWebConverter.aggregate p Sample.collision_results Sample.collision
                 = (w', Returned tt)).
  { vm_compute. reflexivity. }
  assert (Hne : Forall (fun r => snd r <> Some p) Sample.collision_results).
  { repeat constructor; discriminate. }
  split; [exact Hagg|]. split; [exact Hne|].
  destruct (C8_jobs_are_written_under_their_base_name p Sample.collision_results
              Sample.collision w' Hagg Hne) as [Harchive _].
  rewrite Harchive. vm_compute. reflexivity.
Defined.


(* ================================================================== *)
(** * Further properties: FileUtils                                    *)
(* ================================================================== *)

Section FileTypeFacts.
Variable output_dir : string.
Variable pdf_pipeline : string -> string -> string -> string -> Ext string.
Variable docx_Document : string -> Ext Docx.document.
Variable image_ocr : string -> string -> string -> Ext string.

Abbreviation process_file' :=
  (MinerUWebConverter.process_file output_dir pdf_pipeline docx_Document image_ocr).

(** The four cases of [get_file_type]. *)
Lemma get_file_type_cases (file_path : string) :
  (file_ext file_path = ".pdf" /\ FileUtils.get_file_type file_path = "pdf") \/
  (file_ext file_path ∈ [".doc"; ".docx"] /\ FileUtils.get_file_type file_path = "docx") \/
  (file_ext file_path ∈ [".jpg"; ".jpeg"; ".png"; ".gif"] /\
     FileUtils.get_file_type file_path = "image") \/
  ((file_ext file_path ∉ supported_extensions) /\
     FileUtils.get_file_type file_path = "unknown").
Proof.
  unfold FileUtils.get_file_type, supported_extensions. cbv zeta.
  change (Str.lower (snd (Path.splitext file_path))) with (file_ext file_path).
  cbn [existsb].
  destruct (String.eqb_spec (file_ext file_path) ".pdf") as [->|N1]; [by left|].
  destruct (String.eqb_spec (file_ext file_path) ".doc") as [->|N2];
    [right; left; split; [apply list_elem_of_here | reflexivity]|].
  destruct (String.eqb_spec (file_ext file_path) ".docx") as [->|N3];
    [right; left; split; [apply list_elem_of_further, list_elem_of_here | reflexivity]|].
  destruct (String.eqb_spec (file_ext file_path) ".jpg") as [->|N4];
    [right; right; left; split; [apply list_elem_of_here | reflexivity]|].
  destruct (String.eqb_spec (file_ext file_path) ".jpeg") as [->|N5];
    [right; right; left; split;
       [apply list_elem_of_further, list_elem_of_here | reflexivity]|].
  destruct (String.eqb_spec (file_ext file_path) ".png") as [->|N6];
    [right; right; left; split;
       [do 2 apply list_elem_of_further; apply list_elem_of_here | reflexivity]|].
  destruct (String.eqb_spec (file_ext file_path) ".gif") as [->|N7];
    [right; right; left; split;
       [do 3 apply list_elem_of_further; apply list_elem_of_here | reflexivity]|].
  right; right; right. split; [|reflexivity].
  intros Hin. repeat (apply elem_of_cons in Hin as [Hin|Hin]; [congruence|]).
  by apply elem_of_nil in Hin.
Qed.

(** A job that returns no archive path was not dispatched to a converter. *)
Lemma process_file_no_archive file_path w w' md :
  process_file' file_path w = (w', Returned (md, None)) ->
  file_ext file_path ∉ supported_extensions.
Proof.
  unfold MinerUWebConverter.process_file. intros H.
  apply bind_returned in H as (now & w1 & _ & H).
  change (Str.lower (snd (Path.splitext file_path))) with (file_ext file_path) in H.
  cbn [existsb] in H.
  destruct (String.eqb_spec (file_ext file_path) ".pdf") as [E|N1].
  { apply bind_returned in H as (r & w2 & _ & H). discriminate H. }
  destruct (String.eqb_spec (file_ext file_path) ".doc") as [E|N2].
  { apply bind_returned in H as (r & w2 & _ & H). discriminate H. }
  destruct (String.eqb_spec (file_ext file_path) ".docx") as [E|N3].
  { apply bind_returned in H as (r & w2 & _ & H). discriminate H. }
  cbn [orb] in H.
  destruct (String.eqb_spec (file_ext file_path) ".jpg") as [E|N4].
  { apply bind_returned in H as (r & w2 & _ & H). discriminate H. }
  destruct (String.eqb_spec (file_ext file_path) ".jpeg") as [E|N5].
  { apply bind_returned in H as (r & w2 & _ & H). discriminate H. }
  destruct (String.eqb_spec (file_ext file_path) ".png") as [E|N6].
  { apply bind_returned in H as (r & w2 & _ & H). discriminate H. }
  destruct (String.eqb_spec (file_ext file_path) ".gif") as [E|N7].
  { apply bind_returned in H as (r & w2 & _ & H). discriminate H. }
  unfold supported_extensions. intros Hin.
  repeat (apply elem_of_cons in Hin as [Hin|Hin]; [congruence|]).
  by apply elem_of_nil in Hin.
Qed.

(** The unsupported branch of [process_file]. *)
Lemma process_file_unsupported file_path w :
  file_ext file_path ∉ supported_extensions ->
  process_file' file_path w
    = ({| files := files w; clock := clock w; ticks := S (ticks w) |},
       Returned MinerUWebConverter.unsupported).
Proof.
  intros Hext. unfold MinerUWebConverter.process_file, bind, time_time.
  cbv beta iota zeta.
  change (Str.lower (snd (Path.splitext file_path))) with (file_ext file_path).
  assert (Hne : forall e, e ∈ supported_extensions ->
                  String.eqb (file_ext file_path) e = false).
  { intros e He. apply String.eqb_neq. intros Heq. rewrite Heq in Hext. contradiction. }
  unfold supported_extensions in Hne. cbn [existsb].
  rewrite !Hne by (repeat first [apply list_elem_of_here | apply list_elem_of_further]).
  reflexivity.
Qed.
End FileTypeFacts.

(** X1.  [FileUtils.get_file_type] and the dispatch of [process_file] agree:
    [get_file_type] answers "unknown" exactly for the paths on which
    [process_file] returns the unsupported-type message with no archive path,
    and it answers one of "pdf", "docx", "image", "unknown". *)
Theorem get_file_type_agrees_with_process_file
    (output_dir : string)
    (pdf_pipeline : string -> string -> string -> string -> Ext string)
    (docx_Document : string -> Ext Docx.document)
    (image_ocr : string -> string -> string -> Ext string)
    (file_path : string) (w : world) :
  (FileUtils.get_file_type file_path = "unknown" <->
   exists w', MinerUWebConverter.process_file output_dir pdf_pipeline docx_Document image_ocr
                file_path w = (w', Returned MinerUWebConverter.unsupported)) /\
  (FileUtils.get_file_type file_path = "unknown" <->
   file_ext file_path ∉ supported_extensions) /\
  FileUtils.get_file_type file_path ∈ ["pdf"; "docx"; "image"; "unknown"].
Proof.
  assert (Hiff : FileUtils.get_file_type file_path = "unknown" <->
                 file_ext file_path ∉ supported_extensions).
  { destruct (get_file_type_cases file_path)
      as [[E T]|[[E T]|[[E T]|[E T]]]]; rewrite T; split; try discriminate; try done.
    - intros N. exfalso. apply N. rewrite E. apply list_elem_of_here.
    - intros N. exfalso. apply N. unfold supported_extensions.
      apply elem_of_cons in E as [->|E]; [|apply elem_of_cons in E as [->|E]].
      + apply list_elem_of_further, list_elem_of_here.
      + do 2 apply list_elem_of_further. apply list_elem_of_here.
      + by apply elem_of_nil in E.
    - intros N. exfalso. apply N. unfold supported_extensions.
      do 3 apply list_elem_of_further. exact E. }
  split; [|split; [exact Hiff|]].
  - rewrite Hiff. split.
    + intros N. eexists. by apply process_file_unsupported.
    + intros [w' H]. by eapply process_file_no_archive.
  - destruct (get_file_type_cases file_path)
      as [[_ ->]|[[_ ->]|[[_ ->]|[_ ->]]]];
      repeat first [apply list_elem_of_here | apply list_elem_of_further].
Qed.

Section CleanFilenameFacts.
Local Arguments String.append !s1 s2 : simpl nomatch.







End CleanFilenameFacts.



Section EnsureDirFacts.
Implicit Types (fs : gmap string FS.node) (p q : string).

Lemma mkdir_returned p fs fs' :
  FS.mkdir p fs = Returned fs' -> fs !! p = None /\ fs' = <[p := FS.Dir]> fs.
Proof.
  unfold FS.mkdir, FS.exists_. destruct (negb (Str.truthy p)); [discriminate|].
  destruct (fs !! p) as [n|] eqn:L.
  - rewrite bool_decide_eq_true_2 by eauto. discriminate.
  - rewrite bool_decide_eq_false_2 by (by intros [? ?]).
    destruct (FS.parent_is_dir fs p); [|discriminate]. by intros [= <-].
Qed.

(** [os.makedirs] only adds directories, and the last one is [name]. *)
Lemma makedirs_go_returned hs name fs fs' :
  FS.makedirs_go hs name fs = Returned fs' ->
  (forall q n, fs !! q = Some n -> fs' !! q = Some n) /\
  (forall q n, fs' !! q = Some n -> fs !! q = Some n \/ n = FS.Dir) /\
  FS.isdir fs' name = true.
Proof.
  revert fs. induction hs as [|h hs IH]; intros fs; cbn [FS.makedirs_go].
  - destruct (FS.mkdir name fs) as [fs1|e] eqn:E.
    + intros [= <-]. apply mkdir_returned in E as [L ->].
      split; [|split].
      * intros q n Hq. rewrite lookup_insert_ne; [assumption | congruence].
      * intros q n. rewrite lookup_insert. case_decide; [intros [= <-]; by right | by left].
      * unfold FS.isdir. by rewrite lookup_insert_eq.
    + destruct (FS.isdir fs name) eqn:D; [|discriminate]. intros [= <-]. by auto.
  - destruct (FS.exists_ fs h); [apply IH|].
    destruct (FS.mkdir h fs) as [fs1|e] eqn:E; [|discriminate].
    apply mkdir_returned in E as [L ->]. intros H.
    apply IH in H as (K & A & D). split; [|split; [|exact D]].
    + intros q n Hq. apply K. rewrite lookup_insert_ne; [assumption | congruence].
    + intros q n Hq. destruct (A q n Hq) as [Hq' | ->]; [|by right].
      rewrite lookup_insert in Hq'. case_decide; [injection Hq' as <-; by right | by left].
Qed.

Lemma isdir_exists fs p : FS.isdir fs p = true -> FS.exists_ fs p = true.
Proof.
  unfold FS.isdir, FS.exists_. destruct (fs !! p) as [n|]; [|discriminate].
  intros _. apply bool_decide_eq_true_2. eauto.
Qed.

Lemma ensure_dir_existing directory w :
  FS.exists_ (files w) directory = true ->
  FileUtils.ensure_dir directory w = (w, Returned directory).
Proof. intros E. unfold FileUtils.ensure_dir, bind, read_files, ret. by rewrite E. Qed.
End EnsureDirFacts.

(** X3.  [FileUtils.ensure_dir] never removes or changes what is there: every
    node present before is present unchanged afterwards, and what it adds are
    directories only.  When it returns, it returns its argument, the path
    exists, and a second call changes nothing.  A path that exists already, be
    it a directory or a regular file, is accepted as it is. *)
Theorem ensure_dir_keeps_what_exists (directory : string) (w : world) :
  let '(w', o) := FileUtils.ensure_dir directory w in
  (forall q n, files w !! q = Some n -> files w' !! q = Some n) /\
  (forall q n, files w' !! q = Some n -> files w !! q = Some n \/ n = FS.Dir) /\
  clock w' = clock w /\ ticks w' = ticks w /\
  ((exists e, o = Raised e) \/
   (o = Returned directory /\
    FS.exists_ (files w') directory = true /\
    FileUtils.ensure_dir directory w' = (w', Returned directory))) /\
  (FS.exists_ (files w) directory = true -> w' = w /\ o = Returned directory).
Proof.
  destruct (FS.exists_ (files w) directory) eqn:E.
  - rewrite (ensure_dir_existing _ _ E).
    repeat split; auto. right. split; [reflexivity|]. split; [assumption|].
    by apply ensure_dir_existing.
  - unfold FileUtils.ensure_dir, bind, read_files, ret, with_files. rewrite E.
    destruct (FS.makedirs directory (files w)) as [fs'|e] eqn:M.
    + apply makedirs_go_returned in M as (K & A & D). simpl.
      split; [exact K|]. split; [exact A|]. split; [reflexivity|]. split; [reflexivity|].
      split; [|discriminate]. right. split; [reflexivity|].
      apply isdir_exists in D. split; [exact D|].
      by apply (ensure_dir_existing directory {| files := fs'; clock := clock w; ticks := ticks w |}).
    + simpl. repeat split; auto; try discriminate. left. eauto.
Qed.


(* ================================================================== *)
(** * Further properties: ProgressTracker                              *)
(* ================================================================== *)

Section TrackerFacts.
Import ProgressTracker.
Variable fl : Q -> Q.




Hypothesis fl_mono : forall q r : Q, (q <= r)%Q -> (fl q <= fl r)%Q.
Hypothesis fl_0 : (fl 0 == 0)%Q.
Hypothesis fl_1 : (fl 1 == 1)%Q.
Hypothesis fl_100 : (fl 100 == 100)%Q.



End TrackerFacts.





(* ================================================================== *)
(** * Further properties: ParallelProcessor                            *)
(* ================================================================== *)

(** X6.  An exception outside [Exception] (KeyboardInterrupt, SystemExit)
    raised by a job is not caught by the loop: [process_items] raises the
    first such exception in submission order.  Every job of the batch has run
    all the same, but only the items submitted before the failing one got their
    results collected and their callback calls; the later ones get none. *)
Theorem first_base_exception_leaves_process_items {I V W C : Type}
    (items : list I) (process_func : I -> W -> W * outcome V)
    (callback : option (ParallelProcessor.callback_t I V C)) (w : W) (s : C)
    (before after : list (I * outcome V)) (item : I) (e : exn) :
  snd (ParallelProcessor.submit_all process_func items w)
    = before ++ (item, Raised e) :: after ->
  is_Exception e = false ->
  catchable_jobs before ->
  catchable_callback callback ->
  exists st,
    ParallelProcessor.process_items items process_func callback w s
      = (fst (ParallelProcessor.submit_all process_func items w), st, Raised e) /\
    ParallelProcessor.results st = returned_values before /\
    ParallelProcessor.calls st = calls_of callback before.
Proof.
  intros Hfut He Hj Hc.
  rewrite process_items_unfold. cbv zeta. rewrite Hfut, collect_app.
  destruct (collect_catchable callback before (ParallelProcessor.start s) Hj Hc) as [st Est].
  rewrite Est. cbn [ParallelProcessor.collect ParallelProcessor.handle_future].
  unfold ParallelProcessor.except_Exception. rewrite He. simpl.
  apply collect_spec in Est as (R & Cs & _). simpl in R, Cs.
  exists st. repeat split; assumption.
Qed.

Lemma first_base_exception_leaves_process_items_witness :
  snd (ParallelProcessor.submit_all Sample2.interrupted_job [1; 2; 3]%nat tt)
    = [(1%nat, Returned 10%nat)] ++ (2%nat, Raised (BaseException "KeyboardInterrupt"))
        :: [(3%nat, Returned 30%nat)] /\
  is_Exception (BaseException "KeyboardInterrupt") = false /\
  catchable_jobs [(1%nat, Returned 10%nat)] /\
  catchable_callback (Some Sample.count_calls) /\
  exists st,
    ParallelProcessor.process_items [1; 2; 3]%nat Sample2.interrupted_job
      (Some Sample.count_calls) tt 0%nat
      = (tt, st, Raised (BaseException "KeyboardInterrupt")) /\
    ParallelProcessor.results st = [10%nat] /\
    ParallelProcessor.calls st = [(1%nat, 10%nat)].
Proof.
  assert (Hj : catchable_jobs [(1%nat, Returned 10%nat)]) by (repeat constructor).
  assert (Hc : catchable_callback (Some Sample.count_calls)).
  { intros cb [= <-] i v n e. discriminate. }
  split; [reflexivity|]. split; [reflexivity|]. split; [exact Hj|]. split; [exact Hc|].
  exact (first_base_exception_leaves_process_items [1; 2; 3]%nat Sample2.interrupted_job
           (Some Sample.count_calls) tt 0%nat
           [(1%nat, Returned 10%nat)] [(3%nat, Returned 30%nat)] 2%nat
           (BaseException "KeyboardInterrupt") eq_refl eq_refl Hj Hc).
Defined.

Section ProgressCallbackFacts.
Import ParallelProcessor.
Variable fl : Q -> Q.
Context {W : Type}.
Implicit Types (futures : list (string * outcome (string * option string))).

Abbreviation callback' := (Some (MinerUWebConverter.process_callback fl)).

(** While the counter is below the total the progress callback returns,
    having counted one more. *)
Lemma process_callback_counts file_path result (progress : ProgressTracker.t) :
  0 <= ProgressTracker.current progress ->
  ProgressTracker.current progress < ProgressTracker.total progress ->
  MinerUWebConverter.process_callback fl file_path result progress
    = ({| ProgressTracker.total := ProgressTracker.total progress;
          ProgressTracker.current := ProgressTracker.current progress + 1;
          ProgressTracker.description := ProgressTracker.description progress |}, None).
Proof.
  intros Hc Ht. unfold MinerUWebConverter.process_callback, ProgressTracker.update,
    ProgressTracker.get_progress, ProgressTracker.info.
  cbn [ProgressTracker.total ProgressTracker.current].
  destruct (ProgressTracker.total progress =? 0) eqn:E; [apply Z.eqb_eq in E; lia|].
  pose proof float_bound_gt_1.
  rewrite no_overflow by (lia || nia). reflexivity.
Qed.

Lemma collect_progress futures (st : loop_state string (string * option string) ProgressTracker.t) :
  0 <= ProgressTracker.current (cb_state st) ->
  ProgressTracker.current (cb_state st) + Z.of_nat (length (returned_values futures))
    <= ProgressTracker.total (cb_state st) ->
  catchable_jobs futures ->
  exists st',
    collect callback' futures st = (st', None) /\
    ProgressTracker.total (cb_state st') = ProgressTracker.total (cb_state st) /\
    ProgressTracker.current (cb_state st')
      = ProgressTracker.current (cb_state st) + Z.of_nat (length (returned_values futures)) /\
    errors st' = errors st ++ raised_errors futures.
Proof.
  intros Hc Ht Hj. revert st Hc Ht.
  induction Hj as [|[item o] rest Hhd Htl IH]; intros st Hc Ht.
  - exists st. simpl. rewrite app_nil_r. repeat split; lia.
  - cbn [collect]. simpl in Hhd. destruct o as [v|e].
    + assert (Hlen : length (returned_values ((item, Returned v) :: rest))
                     = S (length (returned_values rest))) by reflexivity.
      rewrite Hlen in Ht |- *.
      unfold handle_future. cbn [cb_state results calls errors].
      rewrite process_callback_counts by lia. cbn [cb_state results calls errors].
      edestruct IH as (st' & E & T & Cu & Er); [| |rewrite E].
      * cbn [cb_state ProgressTracker.current]. lia.
      * cbn [cb_state ProgressTracker.current ProgressTracker.total]. lia.
      * exists st'. split; [reflexivity|]. simpl in T, Cu, Er |- *.
        repeat split; [assumption | lia | assumption].
    + assert (Hlen : length (returned_values ((item, Raised e) :: rest))
                     = length (returned_values rest)) by reflexivity.
      rewrite Hlen in Ht |- *.
      unfold handle_future, except_Exception. rewrite Hhd.
      edestruct (IH (log_error e st)) as (st' & E & T & Cu & Er); [exact Hc | exact Ht |].
      rewrite E. exists st'. split; [reflexivity|]. simpl in T, Cu, Er |- *.
      repeat split; [assumption | assumption |].
      rewrite Er, <- app_assoc. reflexivity.
Qed.
End ProgressCallbackFacts.

(** X7.  In a batch the progress callback never raises: the tracker is
    constructed with the number of submitted paths, and the callback is only
    called when there is at least one.  When the jobs raise nothing outside
    [Exception], the tracker ends with its counter at the number of jobs that
    returned, and the errors handed to the logger are exactly the exceptions
    of the jobs that raised: a job that raised is never counted, so the
    progress does not reach the total when a job failed. *)
Theorem batch_progress_counts_returned_jobs {W : Type}
    (fl : Q -> Q) (process_func : string -> W -> W * outcome (string * option string))
    (file_paths : list string) (w : W) (description : string) :
  let futures := snd (ParallelProcessor.submit_all process_func file_paths w) in
  catchable_jobs futures ->
  exists w' st,
    ParallelProcessor.process_items file_paths process_func
      (Some (MinerUWebConverter.process_callback fl)) w
      (ProgressTracker.__init__ (Z.of_nat (length file_paths)) description)
      = (w', st, Returned (returned_values futures)) /\
    ProgressTracker.current (ParallelProcessor.cb_state st)
      = Z.of_nat (length (returned_values futures)) /\
    ProgressTracker.total (ParallelProcessor.cb_state st) = Z.of_nat (length file_paths) /\
    ParallelProcessor.errors st = raised_errors futures /\
    (length (returned_values futures) + length (raised_errors futures))%nat
      = length file_paths.
Proof.
  intros futures Hj.
  assert (Hlen : length futures = length file_paths).
  { unfold futures. rewrite <- (List.length_map fst), submit_all_items. reflexivity. }
  pose proof (returned_raised_length futures) as Hsum.
  rewrite process_items_unfold. fold futures. cbv zeta.
  edestruct (collect_progress fl futures
               (ParallelProcessor.start
                  (ProgressTracker.__init__ (Z.of_nat (length file_paths)) description)))
    as (st & E & T & Cu & Er); [| |exact Hj|].
  - simpl. lia.
  - simpl. lia.
  - rewrite E. cbn [fst snd].
    pose proof (collect_spec _ _ _ _ E) as (R & _ & _). simpl in R, T, Cu, Er.
    eexists _, st. rewrite R.
    repeat split; try assumption. lia.
Qed.

Lemma batch_progress_counts_returned_jobs_witness :
  let futures :=
    snd (ParallelProcessor.submit_all Sample2.path_job Sample.scenario_paths tt) in
  catchable_jobs futures /\
  length (returned_values futures) = 2%nat /\
  exists w' st,
    ParallelProcessor.process_items Sample.scenario_paths Sample2.path_job
      (Some (MinerUWebConverter.process_callback Sample.fl)) tt
      (ProgressTracker.__init__ 3 "batch")
      = (w', st, Returned (returned_values futures)) /\
    ProgressTracker.current (ParallelProcessor.cb_state st) = 2 /\
    ProgressTracker.total (ParallelProcessor.cb_state st) = 3 /\
    ParallelProcessor.errors st = [Exception "PackageNotFoundError"].
Proof.
  assert (Hj : catchable_jobs
                 (snd (ParallelProcessor.submit_all Sample2.path_job Sample.scenario_paths tt)))
    by (repeat constructor).
  split; [exact Hj|]. split; [reflexivity|].
  destruct (batch_progress_counts_returned_jobs Sample.fl Sample2.path_job
              Sample.scenario_paths tt "batch" Hj) as (w' & st & E & Cu & T & Er & _).
  exists w', st. split; [exact E|]. split; [exact Cu|]. split; [exact T | exact Er].
Defined.


Section PoolProgress.
Import ParallelProcessor ParallelProcessor.Pool.
Context {I V C : Type}.
Variable max_workers : nat.
Variable futures : list (I * outcome V).
Variable callback : option (callback_t I V C).

Abbreviation n := (length futures).
Abbreviation steps := (rtc (step max_workers futures callback)).

Lemma well_formed_step c c' :
  well_formed n c -> step max_workers futures callback c c' -> well_formed n c'.
Proof.
  intros (Hs & Hst & Hnd & Hfin & Haw) Hstep.
  destruct Hstep as [c Hlt | c Hlt Hw | c k Hlt Hnew | c item o st' r Hsub Hnone Hfut Hdone Hh];
    unfold well_formed; cbn [submitted started finished awaited].
  - repeat split; [lia | lia | assumption | assumption | assumption].
  - repeat split; [assumption | lia | assumption | | assumption].
    intros k Hk. specialize (Hfin k Hk). lia.
  - repeat split; [assumption | assumption | | | assumption].
    + apply NoDup_app. repeat split; [assumption | | apply NoDup_singleton].
      intros x Hx Hx'. apply list_elem_of_singleton in Hx' as ->. contradiction.
    + intros x [Hx|Hx]%elem_of_app; [by apply Hfin|].
      apply list_elem_of_singleton in Hx as ->. assumption.
  - repeat split; try assumption. apply lookup_lt_Some in Hfut. lia.
Qed.

Lemma well_formed_steps c c' : well_formed n c -> steps c c' -> well_formed n c'.
Proof. intros Hwf H. induction H; [assumption|]. eauto using well_formed_step. Qed.

Lemma well_formed_init (s : C) : well_formed n (init (I := I) (V := V) s).
Proof.
  unfold well_formed. simpl. repeat split; [lia | lia | apply NoDup_nil_2 | | lia].
  by intros k ?%elem_of_nil.
Qed.

(** Counting the finished jobs. *)
Lemma finished_bound (l : list nat) (m : nat) :
  NoDup l -> (forall k, k ∈ l -> (k < m)%nat) -> (length l <= m)%nat.
Proof.
  intros Hnd Hlt.
  assert (Hsub : l ⊆+ seq 0 m).
  { apply NoDup_submseteq; [assumption|]. intros k Hk. apply elem_of_seq.
    specialize (Hlt k Hk). lia. }
  apply submseteq_length in Hsub. by rewrite length_seq in Hsub.
Qed.

Lemma finished_all (l : list nat) (m : nat) :
  NoDup l -> (forall k, k ∈ l -> (k < m)%nat) -> (m <= length l)%nat ->
  forall k, (k < m)%nat -> k ∈ l.
Proof.
  intros Hnd Hlt Hlen k Hk.
  assert (Hsub : l ⊆+ seq 0 m).
  { apply NoDup_submseteq; [assumption|]. intros x Hx. apply elem_of_seq.
    specialize (Hlt x Hx). lia. }
  apply submseteq_length_Permutation in Hsub; [|by rewrite length_seq].
  rewrite Hsub. apply elem_of_seq. lia.
Qed.

Lemma unfinished_exists (l : list nat) (m : nat) :
  (length l < m)%nat -> exists k, (k < m)%nat /\ k ∉ l.
Proof.
  intros Hlen.
  destruct (decide (Forall (fun k => k ∈ l) (seq 0 m))) as [Hall|Hex].
  - exfalso. assert (Hsub : seq 0 m ⊆+ l).
    { apply NoDup_submseteq; [apply NoDup_seq|]. by apply Forall_forall. }
    apply submseteq_length in Hsub. rewrite length_seq in Hsub. lia.
  - apply not_Forall_Exists, Exists_exists in Hex as (k & Hk & Hnot); [|apply _].
    exists k. apply elem_of_seq in Hk. split; [lia | exact Hnot].
Qed.

(** The calling thread can submit what is left. *)
Lemma submit_rest (d : nat) c :
  (n - submitted c = d)%nat -> well_formed n c ->
  exists c', steps c c' /\ submitted c' = n.
Proof.
  revert c. induction d as [|d IH]; intros c Hd Hwf.
  - exists c. split; [apply rtc_refl|]. destruct Hwf as (Hs & _). lia.
  - set (c1 := {| submitted := S (submitted c); started := started c;
                  finished := finished c; awaited := awaited c; loop := loop c;
                  left_loop := left_loop c;
                  trace := trace c ++ [Submit (submitted c)] |}).
    assert (Hstep : step max_workers futures callback c c1) by (apply step_submit; lia).
    assert (Hwf1 : well_formed n c1) by (eapply well_formed_step; eassumption).
    assert (Hd1 : (n - submitted c1 = d)%nat) by (unfold c1; cbn [submitted]; lia).
    destruct (IH c1 Hd1 Hwf1) as (c' & Hsteps & Hn).
    exists c'. split; [eapply rtc_l; eassumption | assumption].
Qed.

Hypothesis one_worker : (1 <= max_workers)%nat.

(** The workers can start and finish every submitted job. *)
Lemma run_jobs (m : nat) c :
  (2 * (n - started c) + (started c - length (finished c)) = m)%nat ->
  submitted c = n -> well_formed n c ->
  exists c', steps c c' /\ submitted c' = n /\
             (forall k, (k < n)%nat -> k ∈ finished c').
Proof.
  revert c. induction (lt_wf m) as [m _ IH]. intros c Hm Hsub Hwf.
  pose proof Hwf as (Hs & Hst & Hnd & Hfin & Haw).
  pose proof (finished_bound _ _ Hnd Hfin) as Hle.
  destruct (decide (length (finished c) < started c)%nat) as [Hrun|Hidle].
  - (* a started job is not finished: it finishes *)
    destruct (unfinished_exists _ _ Hrun) as (k & Hk & Hnew).
    set (c1 := {| submitted := submitted c; started := started c;
                  finished := finished c ++ [k]; awaited := awaited c; loop := loop c;
                  left_loop := left_loop c; trace := trace c ++ [Finish k] |}).
    assert (Hstep : step max_workers futures callback c c1) by (by apply step_finish).
    assert (Hwf1 : well_formed n c1) by (eapply well_formed_step; eassumption).
    assert (Hm1 : (2 * (n - started c1) + (started c1 - length (finished c1))
                   = m - 1)%nat).
    { unfold c1. cbn [started finished]. rewrite length_app. simpl. lia. }
    destruct (IH (m - 1)%nat ltac:(lia) c1 Hm1 Hsub Hwf1) as (c' & Hsteps & Hn & Hall).
    exists c'. split; [eapply rtc_l; eassumption | by split].
  - destruct (decide (started c < n)%nat) as [Hmore|Hnone].
    + (* no job is running: the next one starts *)
      set (c1 := {| submitted := submitted c; started := S (started c);
                    finished := finished c; awaited := awaited c; loop := loop c;
                    left_loop := left_loop c; trace := trace c ++ [Start (started c)] |}).
      assert (Hstep : step max_workers futures callback c c1) by (apply step_start; lia).
      assert (Hwf1 : well_formed n c1) by (eapply well_formed_step; eassumption).
      assert (Hm1 : (2 * (n - started c1) + (started c1 - length (finished c1))
                     = m - 1)%nat).
      { unfold c1. cbn [started finished]. lia. }
      destruct (IH (m - 1)%nat ltac:(lia) c1 Hm1 Hsub Hwf1) as (c' & Hsteps & Hn & Hall).
      exists c'. split; [eapply rtc_l; eassumption | by split].
    + exists c. split; [apply rtc_refl|]. split; [assumption|].
      apply (finished_all _ _ Hnd); [|lia].
      intros k Hk. specialize (Hfin k Hk). lia.
Qed.

(** The loop can take the results of finished jobs until it is over. *)
Lemma await_all (d : nat) c :
  (n - awaited c = d)%nat -> (awaited c <= n)%nat -> submitted c = n ->
  (forall k, (k < n)%nat -> k ∈ finished c) ->
  exists c', steps c c' /\ loop_done futures c'.
Proof.
  revert c. induction d as [|d IH]; intros c Hd Haw Hsub Hall.
  - exists c. split; [apply rtc_refl|]. left. lia.
  - destruct (left_loop c) as [e|] eqn:El.
    { exists c. split; [apply rtc_refl|]. right. rewrite El. eauto. }
    destruct (futures !! awaited c) as [[item o]|] eqn:Ef;
      [|apply lookup_ge_None in Ef; lia].
    destruct (handle_future callback item o (loop c)) as [st' r] eqn:Eh.
    set (c1 := {| submitted := submitted c; started := started c;
                  finished := finished c; awaited := S (awaited c); loop := st';
                  left_loop := r;
                  trace := trace c ++ events_of callback (awaited c) o |}).
    assert (Hstep : step max_workers futures callback c c1).
    { eapply step_await; try eassumption. apply Hall. lia. }
    assert (Hd1 : (n - awaited c1 = d)%nat) by (unfold c1; cbn [awaited]; lia).
    assert (Haw1 : (awaited c1 <= n)%nat) by (unfold c1; cbn [awaited]; lia).
    destruct (IH c1 Hd1 Haw1 Hsub Hall) as (c' & Hsteps & Hdone).
    exists c'. split; [eapply rtc_l; eassumption | exact Hdone].
Qed.

Lemma steps_trans c1 c2 c3 : steps c1 c2 -> steps c2 c3 -> steps c1 c3.
Proof. apply rtc_trans. Qed.

Lemma completion c :
  well_formed n c -> exists c', steps c c' /\ loop_done futures c'.
Proof.
  intros Hwf.
  destruct (submit_rest _ c eq_refl Hwf) as (c1 & S1 & N1).
  pose proof (well_formed_steps _ _ Hwf S1) as Hwf1.
  destruct (run_jobs _ c1 eq_refl N1 Hwf1) as (c2 & S2 & N2 & Hall).
  pose proof (well_formed_steps _ _ Hwf1 S2) as (_ & _ & _ & _ & Haw2).
  destruct (await_all _ c2 eq_refl Haw2 N2 Hall) as (c3 & S3 & Hdone).
  exists c3. split; [|exact Hdone].
  eapply steps_trans; [exact S1|]. eapply steps_trans; eassumption.
Qed.
End PoolProgress.

(** X8.  The pool cannot get stuck: with at least one worker, every run of
    the pool, however far it has come and in whatever order the jobs were
    started and finished, can be continued until the loop of [process_items]
    is over. *)
Theorem pool_runs_can_be_completed {I V C : Type}
    (max_workers : nat) (futures : list (I * outcome V))
    (callback : option (ParallelProcessor.callback_t I V C)) (s : C)
    (c : ParallelProcessor.Pool.config) :
  (1 <= max_workers)%nat ->
  ParallelProcessor.Pool.reachable max_workers futures callback s c ->
  exists c',
    rtc (ParallelProcessor.Pool.step max_workers futures callback) c c' /\
    ParallelProcessor.Pool.reachable max_workers futures callback s c' /\
    ParallelProcessor.Pool.loop_done futures c'.
Proof.
  intros Hw Hreach.
  assert (Hwf : well_formed (length futures) c).
  { eapply well_formed_steps; [apply well_formed_init | exact Hreach]. }
  destruct (completion max_workers futures callback Hw c Hwf) as (c' & Hsteps & Hdone).
  exists c'. split; [exact Hsteps|]. split; [|exact Hdone].
  unfold ParallelProcessor.Pool.reachable in *. eapply rtc_trans; eassumption.
Qed.

Lemma pool_runs_can_be_completed_witness :
  (1 <= 2)%nat /\
  ParallelProcessor.Pool.reachable 2 Sample.futures (Some Sample.count_calls) 0%nat
    (ParallelProcessor.Pool.init 0%nat) /\
  exists c',
    ParallelProcessor.Pool.reachable 2 Sample.futures (Some Sample.count_calls) 0%nat c' /\
    ParallelProcessor.Pool.loop_done Sample.futures c'.
Proof.
  assert (H0 : ParallelProcessor.Pool.reachable 2 Sample.futures (Some Sample.count_calls)
                 0%nat (ParallelProcessor.Pool.init 0%nat)) by apply rtc_refl.
  split; [lia|]. split; [exact H0|].
  destruct (pool_runs_can_be_completed 2 Sample.futures (Some Sample.count_calls) 0%nat
              (ParallelProcessor.Pool.init 0%nat) ltac:(lia) H0) as (c' & _ & Hr & Hd).
  exists c'. split; [exact Hr | exact Hd].
Defined.

(* ================================================================== *)
(** * Further properties: workspaces and archives of app.py           *)
(* ================================================================== *)

Section WorkspaceFacts.
Local Arguments String.append !s1 s2 : simpl nomatch.

(** [os.path.join] with the same head is injective on relative tails. *)
Lemma join_inj (a b1 b2 : string) :
  Str.startswith "/" b1 = false -> Str.startswith "/" b2 = false ->
  Path.join a b1 = Path.join a b2 -> b1 = b2.
Proof.
  unfold Path.join. intros -> ->.
  destruct (negb (Str.truthy a) || Str.endswith_char Str.slash a); intros H.
  - by apply string_app_inv_head in H.
  - by do 2 apply string_app_inv_head in H.
Qed.

Lemma task_id_relative (t : Q) :
  Str.startswith "/" (MinerUWebConverter.task_id_at "task_" t) = false /\
  Str.startswith "/" (MinerUWebConverter.task_id_at "batch_" t) = false.
Proof. split; reflexivity. Qed.
End WorkspaceFacts.

(** X10.  Two jobs share a workspace exactly when their clock readings lie in
    the same second, and so do two batches; the directory of a batch is never
    the workspace of a job, whatever the readings. *)
Theorem workspaces_coincide_exactly_within_a_second (output_dir : string) (t1 t2 : Q) :
  (Path.join output_dir (MinerUWebConverter.task_id_at "task_" t1)
     = Path.join output_dir (MinerUWebConverter.task_id_at "task_" t2)
   <-> int_of_float t1 = int_of_float t2) /\
  (Path.join output_dir (MinerUWebConverter.task_id_at "batch_" t1)
     = Path.join output_dir (MinerUWebConverter.task_id_at "batch_" t2)
   <-> int_of_float t1 = int_of_float t2) /\
  Path.join output_dir (MinerUWebConverter.task_id_at "batch_" t1)
    <> Path.join output_dir (MinerUWebConverter.task_id_at "task_" t2).
Proof.
  destruct (task_id_relative t1) as [T1 B1], (task_id_relative t2) as [T2 B2].
  split; [|split].
  - split.
    + intros H. apply join_inj in H; [|assumption..].
      destruct (decide (int_of_float t1 = int_of_float t2)) as [|Hne]; [assumption|].
      by apply (task_id_other_second "task_") in Hne.
    + intros H. by rewrite (task_id_same_second "task_" t1 t2 H).
  - split.
    + intros H. apply join_inj in H; [|assumption..].
      destruct (decide (int_of_float t1 = int_of_float t2)) as [|Hne]; [assumption|].
      by apply (task_id_other_second "batch_") in Hne.
    + intros H. by rewrite (task_id_same_second "batch_" t1 t2 H).
  - intros H. apply join_inj in H; [|assumption..]. discriminate H.
Qed.

Section ExtractFacts.
Lemma write_file_returned p c fs fs' :
  FS.write_file p c fs = Returned fs' -> fs' = <[p := FS.File c]> fs.
Proof.
  unfold FS.write_file.
  destruct (fs !! p) as [[|c']|]; try discriminate;
    destruct (FS.parent_is_dir fs p); by intros [= <-].
Qed.

Lemma write_file_raised p c fs e :
  FS.write_file p c fs = Raised e -> is_Exception e = true.
Proof.
  unfold FS.write_file.
  destruct (fs !! p) as [[|c']|]; try (by intros [= <-]);
    destruct (FS.parent_is_dir fs p); try discriminate; by intros [= <-].
Qed.

(** Writing again where a file was written succeeds. *)
Lemma write_file_twice p c c' fs fs1 :
  FS.write_file p c fs = Returned fs1 ->
  FS.write_file p c' fs1 = Returned (<[p := FS.File c']> fs).
Proof.
  unfold FS.write_file. intros H.
  assert (Hnd : FS.isdir fs p = false).
  { unfold FS.isdir. destruct (fs !! p) as [[|c0]|]; [discriminate | done | done]. }
  assert (fs1 = <[p := FS.File c]> fs /\ FS.parent_is_dir fs p = true) as [-> Hp].
  { destruct (fs !! p) as [[|c0]|]; try discriminate;
      destruct (FS.parent_is_dir fs p); try discriminate; by injection H as <-. }
  rewrite lookup_insert_eq.
  assert (Hp' : FS.parent_is_dir (<[p := FS.File c]> fs) p = true).
  { unfold FS.parent_is_dir in *. apply orb_true_iff in Hp as [Hs|Hd].
    - by rewrite Hs.
    - apply orb_true_iff. right.
      destruct (decide (Path.dirname p = p)) as [Heq|Hne].
      + rewrite Heq in Hd. congruence.
      + unfold FS.isdir in *. by rewrite lookup_insert_ne. }
  by rewrite Hp', insert_insert_eq.
Qed.

Lemma _extract_and_save_docx_image_spec
    (shape : outcome string) (image_path : string) (w : world) :
  let '(w', o) := MinerUWebConverter._extract_and_save_docx_image shape image_path w in
  (forall q, q <> image_path -> files w' !! q = files w !! q) /\
  clock w' = clock w /\ ticks w' = ticks w /\
  match o with
  | Returned true =>
      exists blob, shape = Returned blob /\
                   files w' !! image_path = Some (FS.File (FS.Raw blob))
  | Returned false =>
      w' = w \/
      (files w' !! image_path = Some (FS.File (FS.Raw "")) /\
       exists e, shape = Raised e /\ is_Exception e = true)
  | Raised e =>
      shape = Raised e /\ is_Exception e = false /\
      files w' !! image_path = Some (FS.File (FS.Raw ""))
  end.
Proof.
  unfold MinerUWebConverter._extract_and_save_docx_image, try_except, bind, with_files,
    of_outcome, ret.
  destruct (FS.write_file image_path (FS.Raw "") (files w)) as [fs1|e1] eqn:W1.
  - pose proof (write_file_returned _ _ _ _ W1) as ->. cbn [files clock ticks].
    destruct shape as [blob|e].
    + rewrite (write_file_twice _ _ (FS.Raw blob) _ _ W1). cbn [files clock ticks].
      split; [intros q Hq; by rewrite lookup_insert_ne|].
      split; [reflexivity|]. split; [reflexivity|].
      exists blob. split; [reflexivity|]. by rewrite lookup_insert_eq.
    + destruct (is_Exception e) eqn:He; cbn [files clock ticks].
      * split; [intros q Hq; by rewrite lookup_insert_ne|].
        split; [reflexivity|]. split; [reflexivity|].
        right. rewrite lookup_insert_eq. eauto.
      * split; [intros q Hq; by rewrite lookup_insert_ne|].
        split; [reflexivity|]. split; [reflexivity|].
        by rewrite lookup_insert_eq.
  - rewrite (write_file_raised _ _ _ _ W1). repeat split. by left.
Qed.
End ExtractFacts.

(** X11.  [_extract_and_save_docx_image] touches no path but [image_path] and
    raises no [Exception]: it answers [True] only when the blob could be read,
    and then the file holds exactly the blob; it answers [False] when the file
    could not be opened (nothing has changed) or when reading the blob raised
    an [Exception] (the file is left empty); only an exception outside
    [Exception] raised by reading the blob leaves the method. *)
Theorem _extract_and_save_docx_image_saves_the_blob_or_answers_False
    (shape : outcome string) (image_path : string) (w : world) :
  let '(w', o) := MinerUWebConverter._extract_and_save_docx_image shape image_path w in
  (forall q, q <> image_path -> files w' !! q = files w !! q) /\
  clock w' = clock w /\ ticks w' = ticks w /\
  match o with
  | Returned true =>
      exists blob, shape = Returned blob /\
                   files w' !! image_path = Some (FS.File (FS.Raw blob))
  | Returned false =>
      w' = w \/
      (files w' !! image_path = Some (FS.File (FS.Raw "")) /\
       exists e, shape = Raised e /\ is_Exception e = true)
  | Raised e =>
      shape = Raised e /\ is_Exception e = false /\
      files w' !! image_path = Some (FS.File (FS.Raw ""))
  end.
Proof. apply _extract_and_save_docx_image_spec. Qed.

(** X12.  Aggregating the results changes no file but the batch archive: the
    archives of the jobs and everything else are left as they were, whether
    the aggregation returns or raises part-way. *)
Theorem aggregate_touches_only_the_batch_archive
    (batch_zip_path : string) (results : list (string * option string)) (w : world)
    (q : string) :
  q <> batch_zip_path ->
  files (fst (MinerUWebConverter.aggregate batch_zip_path results w)) !! q = files w !! q.
Proof.
  intros Hq.
  destruct (MinerUWebConverter.aggregate batch_zip_path results w) as [w' o] eqn:E.
  cbn [fst].
  apply aggregate_spec in E as [[-> _]|(new & -> & _)]; [reflexivity|].
  by apply lookup_insert_ne.
Qed.

Lemma aggregate_touches_only_the_batch_archive_witness :
  "out/task_1/report.zip" <> "out/batch_3/batch_results.zip" /\
  files (fst (MinerUWebConverter.aggregate "out/batch_3/batch_results.zip"
                Sample.collision_results Sample.collision))
    !! "out/task_1/report.zip"
  = Some (FS.File (FS.Archive [("report.md", FS.Raw "from the PDF")])).
Proof.
  split; [discriminate|].
  rewrite (aggregate_touches_only_the_batch_archive "out/batch_3/batch_results.zip"
             Sample.collision_results Sample.collision "out/task_1/report.zip")
    by discriminate.
  vm_compute. reflexivity.
Defined.


Section JobArchiveFacts.
Import MinerUWebConverter.
Local Arguments String.append !s1 s2 : simpl nomatch.
Implicit Types (w : world) (p zip md dir : string).

Lemma prefix_app (p s : string) : String.prefix p (p +:+ s) = true.
Proof.
  induction p as [|a p IH]; simpl; [by destruct s|].
  by destruct (ascii_dec a a).
Qed.

Lemma join_images (n : string) :
  Str.contains Str.slash n = false -> Path.join "images" n = "images/" +:+ n.
Proof. intros H. unfold Path.join. by rewrite (startswith_slash_none n H). Qed.

Lemma with_files_returned f w w' :
  with_files f w = (w', Returned tt) ->
  f (files w) = Returned (files w') /\ clock w' = clock w /\ ticks w' = ticks w.
Proof.
  unfold with_files. destruct (f (files w)) as [fs'|e]; [|discriminate].
  by intros [= <-].
Qed.

Lemma zip_write_spec zip filename arcname w w' :
  Zip.write zip filename arcname w = (w', Returned tt) ->
  exists m, grows zip [m] w w' /\
    ((exists c, files w !! filename = Some (FS.File c) /\ m = (arcname, c)) \/
     (files w !! filename = Some FS.Dir /\ m = (arcname +:+ "/", FS.Raw ""))).
Proof.
  unfold Zip.write, bind, read_files.
  destruct (files w !! filename) as [[|c]|] eqn:L; [| |discriminate]; intros H;
    apply append_member_spec in H as [[Hg _]|[_ [e [=]]]]; eauto 8.
Qed.

(** A loop whose iterations append to the archive at [p]. *)
Lemma for_each_grows p {A} (P : Zip.member -> Prop) (body : A -> M unit) (l : list A)
    w w' :
  Forall (fun x => forall w0 w1, body x w0 = (w1, Returned tt) ->
                     exists new, grows p new w0 w1 /\ Forall P new) l ->
  for_each l body w = (w', Returned tt) ->
  exists new, grows p new w w' /\ Forall P new.
Proof.
  intros Hbody. revert w. induction Hbody as [|x l Hx _ IH]; intros w; cbn [for_each].
  - intros [= <-]. exists []. split; [apply grows_refl | constructor].
  - intros H. apply bind_returned in H as ([] & w1 & H1 & H2).
    destruct (Hx _ _ H1) as (new1 & G1 & P1), (IH _ H2) as (new2 & G2 & P2).
    exists (new1 ++ new2). split; [by eapply grows_trans | by apply Forall_app].
Qed.

Lemma listdir_names dir fs names :
  FS.listdir dir fs = Returned names ->
  Forall (fun n => Str.contains Str.slash n = false) names.
Proof.
  unfold FS.listdir. destruct (FS.isdir fs dir); [|discriminate]. intros [= <-].
  apply Forall_forall. intros n Hn. apply list_elem_of_omap in Hn as (q & _ & Hq).
  unfold FS.child_name in Hq. destruct (String.prefix _ q); [|discriminate].
  destruct (Str.truthy _ && negb _) eqn:E; [|discriminate]. injection Hq as <-.
  apply andb_true_iff in E as [_ E]. by apply negb_true_iff in E.
Qed.

(** The members that may follow the Markdown file in a job's archive. *)
Abbreviation image_entry := (fun m : Zip.member => String.prefix "images/" (fst m) = true).

Lemma zip_md_and_images_spec zip md dir w w' c :
  zip <> md -> files w !! md = Some (FS.File c) ->
  zip_md_and_images zip md dir w = (w', Returned tt) ->
  exists rest,
    files w' !! zip = Some (FS.File (FS.Archive ((Path.basename md, c) :: rest))) /\
    Forall image_entry rest.
Proof.
  intros Hne Hmd H. unfold zip_md_and_images in H.
  apply bind_returned in H as ([] & w1 & H1 & H).
  apply bind_returned in H as ([] & w2 & H2 & H).
  apply bind_returned in H as (names & w3 & H3 & H).
  unfold Zip.ZipFile_w in H1. apply with_files_returned in H1 as (H1 & _).
  apply write_file_returned in H1.
  apply zip_write_spec in H2 as (m & G2 & Hm).
  assert (Hm' : m = (Path.basename md, c)).
  { rewrite H1, lookup_insert_ne, Hmd in Hm by exact Hne.
    destruct Hm as [(c' & [= <-] & ->)|[[=] _]]. reflexivity. }
  subst m.
  assert (L2 : files w2 !! zip = Some (FS.File (FS.Archive [(Path.basename md, c)]))).
  { apply (grows_members zip _ w1 w2 []); [|exact G2]. by rewrite H1, lookup_insert_eq. }
  destruct (FS.listdir dir (files w2)) as [names'|e] eqn:Els; [|discriminate].
  injection H3 as <- <-.
  apply listdir_names in Els.
  apply (for_each_grows zip image_entry) in H as (rest & G & Hrest).
  - exists rest. split; [|exact Hrest].
    by apply (grows_members zip rest w2 w' [(Path.basename md, c)]).
  - eapply Forall_impl; [exact Els|]. intros n Hn w0 w1' Hb. cbv beta in Hb.
    unfold bind at 1, read_files in Hb.
    destruct (FS.isfile (files w0) (Path.join dir n)) eqn:Ef.
    + apply zip_write_spec in Hb as (m' & Gm & Hm'). exists [m']. split; [exact Gm|].
      constructor; [|constructor]. rewrite (join_images n Hn) in Hm'.
      destruct Hm' as [(c' & _ & ->)|[_ ->]]; cbn [fst].
      * apply prefix_app.
      * rewrite string_app_assoc. apply prefix_app.
    + injection Hb as <-. exists []. split; [apply grows_refl | constructor].
Qed.

(** The Markdown file and the archive of a job are different files. *)
Lemma zip_is_not_md task_output_dir file_path :
  Path.join task_output_dir (name_without_extension file_path +:+ ".zip")
  <> Path.join task_output_dir (name_without_extension file_path +:+ ".md").
Proof.
  intros H. apply join_inj in H.
  - apply string_app_inv_head in H. discriminate H.
  - by apply startswith_slash_none, md_name_has_no_slash.
  - by apply startswith_slash_none, md_name_has_no_slash.
Qed.

Variable output_dir : string.
Variable docx_Document : string -> Ext Docx.document.
Variable image_ocr : string -> string -> string -> Ext string.

Lemma _process_docx_archive file_path task_id w w' r :
  _process_docx output_dir docx_Document file_path task_id w = (w', Returned r) ->
  exists rest,
    files w' !! zip_path r
      = Some (FS.File (FS.Archive
                ((name_without_extension file_path +:+ ".md", FS.Raw (md_content r))
                 :: rest))) /\
    Forall image_entry rest.
Proof.
  unfold _process_docx. intros H.
  apply bind_returned in H as (? & w1 & _ & H).
  apply bind_returned in H as (doc & w2 & _ & H).
  apply bind_returned in H as (full & w3 & _ & H).
  apply bind_returned in H as ([] & w4 & H4 & H).
  apply bind_returned in H as ([] & w5 & H5 & H).
  injection H as <- <-. cbn [zip_path md_content].
  apply with_files_returned in H4 as (H4 & _). apply write_file_returned in H4.
  apply zip_md_and_images_spec with (c := FS.Raw full) in H5.
  - rewrite basename_join in H5 by (by apply md_name_has_no_slash). exact H5.
  - apply zip_is_not_md.
  - by rewrite H4, lookup_insert_eq.
Qed.

Lemma _process_image_archive file_path task_id w w' r :
  _process_image output_dir image_ocr file_path task_id w = (w', Returned r) ->
  exists rest,
    files w' !! zip_path r
      = Some (FS.File (FS.Archive
                ((name_without_extension file_path +:+ ".md", FS.Raw (md_content r))
                 :: rest))) /\
    Forall image_entry rest.
Proof.
  unfold _process_image. intros H.
  apply bind_returned in H as (? & w1 & _ & H).
  apply bind_returned in H as (data & w2 & _ & H).
  apply bind_returned in H as ([] & w3 & _ & H).
  apply bind_returned in H as (ocr_text & w4 & _ & H).
  apply bind_returned in H as ([] & w5 & H5 & H).
  apply bind_returned in H as ([] & w6 & H6 & H).
  apply bind_returned in H as ([] & w7 & H7 & H).
  apply bind_returned in H as ([] & w8 & H8 & H).
  injection H as <- <-. cbn [zip_path md_content].
  set (md := if Str.truthy (Str.strip ocr_text) then ocr_text else _) in *.
  set (task_output_dir := Path.join output_dir task_id) in *.
  apply with_files_returned in H5 as (H5 & _). apply write_file_returned in H5.
  unfold Zip.ZipFile_w in H6. apply with_files_returned in H6 as (H6 & _).
  apply write_file_returned in H6.
  apply zip_write_spec in H7 as (m1 & G7 & Hm1).
  apply zip_write_spec in H8 as (m2 & G8 & Hm2).
  assert (Hm1' : m1 = (name_without_extension file_path +:+ ".md", FS.Raw md)).
  { rewrite H6, lookup_insert_ne, H5, lookup_insert_eq in Hm1 by apply zip_is_not_md.
    rewrite basename_join in Hm1 by (by apply md_name_has_no_slash).
    destruct Hm1 as [(c' & [= <-] & ->)|[[=] _]]. reflexivity. }
  subst m1.
  exists [m2]. split.
  - apply (grows_members _ [m2] w7 w8 [_]); [|exact G8].
    apply (grows_members _ _ w6 w7 []); [|exact G7]. by rewrite H6, lookup_insert_eq.
  - constructor; [|constructor].
    rewrite (join_images _ (basename_has_no_slash file_path)) in Hm2.
    destruct Hm2 as [(c' & _ & ->)|[_ ->]]; cbn [fst].
    + apply prefix_app.
    + rewrite string_app_assoc. apply prefix_app.
Qed.
End JobArchiveFacts.

(** X13.  The archive of a DOCX or image job opens with the Markdown that the
    job returns: when [process_file] returns an archive path for a path whose
    extension is not [.pdf], the file at that path is an archive whose first
    member is [<name>.md] holding exactly the returned Markdown text, and
    every other member lies under [images/].  (For a PDF the Markdown file is
    written by the external pipeline.) *)
Theorem archive_opens_with_the_returned_markdown
    (output_dir : string)
    (pdf_pipeline : string -> string -> string -> string -> Ext string)
    (docx_Document : string -> Ext Docx.document)
    (image_ocr : string -> string -> string -> Ext string)
    (file_path : string) (w w' : world) (md zp : string) :
  MinerUWebConverter.process_file output_dir pdf_pipeline docx_Document image_ocr
    file_path w = (w', Returned (md, Some zp)) ->
  file_ext file_path <> ".pdf" ->
  exists rest,
    files w' !! zp
      = Some (FS.File (FS.Archive
                ((MinerUWebConverter.name_without_extension file_path +:+ ".md", FS.Raw md)
                 :: rest))) /\
    Forall (fun m => String.prefix "images/" (fst m) = true) rest.
Proof.
  unfold MinerUWebConverter.process_file. intros H Hpdf.
  apply bind_returned in H as (now & w1 & _ & H).
  change (Str.lower (snd (Path.splitext file_path))) with (file_ext file_path) in H.
  destruct (String.eqb_spec (file_ext file_path) ".pdf") as [|_]; [contradiction|].
  destruct (existsb (String.eqb (file_ext file_path)) [".doc"; ".docx"]).
  - apply bind_returned in H as (r & w2 & Hr & H). injection H as <- <- <-.
    by eapply _process_docx_archive.
  - destruct (existsb (String.eqb (file_ext file_path)) [".jpg"; ".jpeg"; ".png"; ".gif"]).
    + apply bind_returned in H as (r & w2 & Hr & H). injection H as <- <- <-.
      by eapply _process_image_archive.
    + discriminate H.
Qed.

Lemma archive_opens_with_the_returned_markdown_witness :
  let w := Sample.ready Sample.quarters in
  let '(w', o) := Sample.process_file "b.docx" w in
  o = Returned ("# Intro" +:+ nl +:+ nl +:+ "| A | B |" +:+ nl +:+ "| --- | --- |"
                  +:+ nl +:+ "| 1 | 2 |",
                Some "output/task_1700000000/b.zip") /\
  file_ext "b.docx" <> ".pdf" /\
  exists rest,
    files w' !! "output/task_1700000000/b.zip"
      = Some (FS.File (FS.Archive
                (("b.md", FS.Raw ("# Intro" +:+ nl +:+ nl +:+ "| A | B |" +:+ nl
                                    +:+ "| --- | --- |" +:+ nl +:+ "| 1 | 2 |"))
                 :: rest))) /\
    Forall (fun m => String.prefix "images/" (fst m) = true) rest.
Proof.
  intros w.
  destruct (Sample.process_file "b.docx" w) as [w' o] eqn:E.
  assert (Ho : o = Returned ("# Intro" +:+ nl +:+ nl +:+ "| A | B |" +:+ nl
                               +:+ "| --- | --- |" +:+ nl +:+ "| 1 | 2 |",
                             Some "output/task_1700000000/b.zip")).
  { apply (f_equal snd) in E. simpl in E. rewrite <- E. vm_compute. reflexivity. }
  subst o. split; [reflexivity|]. split; [discriminate|].
  exact (archive_opens_with_the_returned_markdown "output" Sample.pdf_pipeline
           Sample.docx_Document Sample.image_ocr "b.docx" w w' _ _ E ltac:(discriminate)).
Defined.


Section DocxImageFacts.
Import MinerUWebConverter.
Local Arguments String.append !s1 s2 : simpl nomatch.
Implicit Types (w : world) (st : list string * Z) (dir : string).

Lemma string_app_inv_tail (s1 s2 t : string) : s1 +:+ t = s2 +:+ t -> s1 = s2.
Proof.
  revert s2. induction s1 as [|a s1 IH]; intros [|b s2] H; simpl in H.
  - reflexivity.
  - apply (f_equal String.length) in H. simpl in H. rewrite string_length_app in H. lia.
  - apply (f_equal String.length) in H. simpl in H. rewrite string_length_app in H. lia.
  - injection H as -> H. by rewrite (IH _ H).
Qed.

(** Different indices give different files. *)
Lemma image_file_inj dir (i j : Z) : image_file dir i = image_file dir j -> i = j.
Proof.
  unfold image_file. intros H. apply join_inj in H; [|reflexivity..].
  apply string_app_inv_head, string_app_inv_tail in H. by apply (inj pretty) in H.
Qed.

Lemma images_saved_more dir first md md' i w :
  images_saved dir first (md, i) w -> (forall x, x ∈ md -> x ∈ md') ->
  images_saved dir first (md', i) w.
Proof.
  intros [Hle H] Hsub. split; [exact Hle|]. intros j Hj.
  destruct (H j Hj) as [Hf Hl]. split; [exact Hf | by apply Hsub].
Qed.

Lemma save_drawing_saved dir first shape st st' w w' :
  images_saved dir first st w ->
  save_drawing dir shape st w = (w', Returned st') ->
  images_saved dir first st' w'.
Proof.
  destruct st as [md i]. intros [Hle Hinv]. unfold save_drawing.
  fold (image_file dir i). fold (image_link i). intros H.
  apply bind_returned in H as (saved & w1 & Hs & H).
  pose proof (_extract_and_save_docx_image_spec shape (image_file dir i) w) as Hspec.
  rewrite Hs in Hspec. destruct Hspec as (Hother & _ & _ & Hcase).
  assert (Hkeep : forall j, first <= j < i ->
            exists blob, files w1 !! image_file dir j = Some (FS.File (FS.Raw blob))).
  { intros j Hj. rewrite Hother; [by apply Hinv|].
    intros Heq%image_file_inj. lia. }
  simpl in Hle, Hinv. destruct saved; injection H as <- <-.
  - destruct Hcase as (blob & _ & Hfile).
    split; [simpl; lia|]. simpl. intros j Hj.
    destruct (decide (j = i)) as [->|Hne].
    + split; [eauto|]. apply elem_of_app. right. apply list_elem_of_here.
    + split; [apply Hkeep; lia|]. apply elem_of_app. left. apply Hinv. lia.
  - split; [exact Hle|]. simpl. intros j Hj.
    split; [by apply Hkeep | by apply Hinv].
Qed.

Lemma fold_M_invariant {A B} (body : A -> B -> M B) (Inv : B -> world -> Prop)
    (l : list A) b w b' w' :
  (forall a b0 w0 b1 w1, Inv b0 w0 -> body a b0 w0 = (w1, Returned b1) -> Inv b1 w1) ->
  Inv b w -> fold_M body l b w = (w', Returned b') -> Inv b' w'.
Proof.
  intros Hbody. revert b w. induction l as [|a l IH]; intros b w Hinv; cbn [fold_M].
  - by intros [= <- <-].
  - intros H. apply bind_returned in H as (b1 & w1 & H1 & H). eauto.
Qed.

Lemma paragraph_text_extends para md md' :
  paragraph_text para md = Returned md' -> forall x, x ∈ md -> x ∈ md'.
Proof.
  unfold paragraph_text. intros H x Hx.
  destruct (Str.truthy _); [|by injection H as <-].
  destruct (Str.startswith _ _).
  - destruct (Str.int _); [|discriminate]. injection H as <-.
    apply elem_of_app. by left.
  - injection H as <-. apply elem_of_app. by left.
Qed.

Lemma paragraph_md_saved dir first para st st' w w' :
  images_saved dir first st w ->
  paragraph_md dir para st w = (w', Returned st') ->
  images_saved dir first st' w'.
Proof.
  intros Hinv H. unfold paragraph_md in H.
  apply bind_returned in H as (md1 & w1 & H1 & H).
  unfold of_outcome in H1. injection H1 as <- H1.
  eapply (fold_M_invariant _ (images_saved dir first)); [| |exact H].
  - intros run st0 w0 st1 w2 Hinv0 Hrun.
    eapply (fold_M_invariant _ (images_saved dir first)); [| |exact Hrun]; [|exact Hinv0].
    intros shape ? ? ? ?. apply save_drawing_saved.
  - destruct st as [md i]. eapply images_saved_more; [exact Hinv|].
    simpl in H1. by apply (paragraph_text_extends para).
Qed.
End DocxImageFacts.

(** X14.  The images of a DOCX document are numbered without gaps: after the
    loop over the paragraphs (started with index [first]) every index from
    [first] up to the final [image_index] has its file [image_<index>.png] in
    the image directory, holding a blob, and its link in the Markdown.  A
    drawing that could not be saved takes no index: the next drawing that is
    saved gets the same number and overwrites what the failed attempt
    left. *)
Theorem docx_images_are_numbered_without_gaps
    (local_image_dir : string) (paragraphs : list Docx.paragraph)
    (md_content md_content' : list string) (first image_index : Z) (w w' : world) :
  fold_M (MinerUWebConverter.paragraph_md local_image_dir) paragraphs (md_content, first) w
    = (w', Returned (md_content', image_index)) ->
  images_saved local_image_dir first (md_content', image_index) w'.
Proof.
  intros H.
  eapply (fold_M_invariant _ (images_saved local_image_dir first)); [| |exact H].
  - intros para st0 w0 st1 w1. apply paragraph_md_saved.
  - split; [simpl; lia|]. simpl. intros j Hj. lia.
Qed.

Lemma docx_images_are_numbered_without_gaps_witness :
  fold_M (MinerUWebConverter.paragraph_md "out/images") Sample2.illustrated ([], 1)
    Sample2.with_images
    = (fst (fold_M (MinerUWebConverter.paragraph_md "out/images") Sample2.illustrated ([], 1)
              Sample2.with_images),
       Returned (["Figures"; image_link 1; image_link 2], 3)) /\
  images_saved "out/images" 1 (["Figures"; image_link 1; image_link 2], 3)
    (fst (fold_M (MinerUWebConverter.paragraph_md "out/images") Sample2.illustrated ([], 1)
            Sample2.with_images)).
Proof.
  assert (H : fold_M (MinerUWebConverter.paragraph_md "out/images") Sample2.illustrated
                ([], 1) Sample2.with_images
              = (fst (fold_M (MinerUWebConverter.paragraph_md "out/images")
                        Sample2.illustrated ([], 1) Sample2.with_images),
                 Returned (["Figures"; image_link 1; image_link 2], 3))).
  { vm_compute. reflexivity. }
  split; [exact H|].
  exact (docx_images_are_numbered_without_gaps "out/images" Sample2.illustrated
           [] _ 1 3 Sample2.with_images _ H).
Defined.


Section ImageMarkdownFacts.
Import MinerUWebConverter.
Local Arguments String.append !s1 s2 : simpl nomatch.

(** A text that starts with an exclamation mark is not blank. *)
Lemma strip_bang (s : string) : Str.truthy (Str.strip (String "!" s)) = true.
Proof.
  assert (H : Str.lstrip_with Str.isspace (String "!" s) = String "!" s)
    by (destruct s as [|b [|c s]]; reflexivity).
  unfold Str.strip. rewrite H. cbn [Str.rstrip_with]. by rewrite H.
Qed.

Lemma ensure_dir_returns directory w w' d :
  FileUtils.ensure_dir directory w = (w', Returned d) -> d = directory.
Proof.
  unfold FileUtils.ensure_dir. intros H.
  do 2 apply bind_returned in H as (? & ? & _ & H). by injection H as _ <-.
Qed.

(** The link that stands for an image without text (line 273). *)
Abbreviation image_link_of file_path :=
  ("![" +:+ name_without_extension file_path +:+ "](images/"
     +:+ Path.basename file_path +:+ ")").

Lemma _process_image_markdown output_dir image_ocr file_path task_id w w' r :
  _process_image output_dir image_ocr file_path task_id w = (w', Returned r) ->
  let task_output_dir := Path.join output_dir task_id in
  let local_image_dir := Path.join task_output_dir "images" in
  exists w2 data fs' ocr_text,
    FileUtils.ensure_dir local_image_dir w = (w2, Returned local_image_dir) /\
    FS.read_file file_path (files w2) = Returned data /\
    image_ocr file_path local_image_dir task_output_dir
      (<[Path.join local_image_dir (Path.basename file_path) := FS.File data]> (files w2))
      = (fs', Returned ocr_text) /\
    md_content r = (if Str.truthy (Str.strip ocr_text) then ocr_text
                    else image_link_of file_path) /\
    Str.truthy (Str.strip (md_content r)) = true.
Proof.
  intros H task_output_dir local_image_dir. unfold _process_image in H.
  fold task_output_dir in H. fold local_image_dir in H.
  apply bind_returned in H as (d & w2 & H1 & H).
  pose proof (ensure_dir_returns _ _ _ _ H1) as ->.
  apply bind_returned in H as (data & w2' & H2 & H).
  injection H2 as <- H2.
  apply bind_returned in H as ([] & w3 & H3 & H).
  apply with_files_returned in H3 as (H3 & _). apply write_file_returned in H3.
  apply bind_returned in H as (ocr_text & w4 & H4 & H).
  unfold external in H4. rewrite H3 in H4.
  destruct (image_ocr file_path local_image_dir task_output_dir _) as [fs' o] eqn:Eocr.
  injection H4 as _ ->.
  do 4 apply bind_returned in H as ([] & ? & _ & H).
  injection H as _ <-. cbn [md_content].
  exists w2, data, fs', ocr_text.
  split; [exact H1|]. split; [exact H2|]. split; [exact Eocr|]. split; [reflexivity|].
  destruct (Str.truthy (Str.strip ocr_text)) eqn:E; [exact E|].
  simpl. apply strip_bang.
Qed.
End ImageMarkdownFacts.

(** X15.  The Markdown of an image job is the text of the OCR, unless that
    text is blank: then it is the link [![<name>](images/<file>)] to the
    copied image.  So it is never blank.  The OCR is the one call of the
    collaborator in the job, made once the image directory exists and the
    image has been copied into it. *)
Theorem image_job_markdown_is_never_blank
    (output_dir : string)
    (pdf_pipeline : string -> string -> string -> string -> Ext string)
    (docx_Document : string -> Ext Docx.document)
    (image_ocr : string -> string -> string -> Ext string)
    (file_path : string) (w w' : world) (md : string) (zp : option string) :
  MinerUWebConverter.process_file output_dir pdf_pipeline docx_Document image_ocr
    file_path w = (w', Returned (md, zp)) ->
  file_ext file_path ∈ [".jpg"; ".jpeg"; ".png"; ".gif"] ->
  let task_output_dir :=
    Path.join output_dir (MinerUWebConverter.task_id_at "task_" (clock w (ticks w))) in
  let local_image_dir := Path.join task_output_dir "images" in
  exists w2 data fs' ocr_text,
    FileUtils.ensure_dir local_image_dir
      {| files := files w; clock := clock w; ticks := S (ticks w) |}
      = (w2, Returned local_image_dir) /\
    FS.read_file file_path (files w2) = Returned data /\
    image_ocr file_path local_image_dir task_output_dir
      (<[Path.join local_image_dir (Path.basename file_path) := FS.File data]> (files w2))
      = (fs', Returned ocr_text) /\
    md = (if Str.truthy (Str.strip ocr_text) then ocr_text
          else "![" +:+ MinerUWebConverter.name_without_extension file_path +:+ "](images/"
                 +:+ Path.basename file_path +:+ ")") /\
    Str.truthy (Str.strip md) = true.
Proof.
  unfold MinerUWebConverter.process_file. intros H Hext.
  apply bind_returned in H as (now & w1 & Hnow & H).
  unfold time_time in Hnow. injection Hnow as <- <-.
  change (Str.lower (snd (Path.splitext file_path))) with (file_ext file_path) in H.
  assert (Hother : forall e, e ∈ [".pdf"; ".doc"; ".docx"] ->
                     String.eqb (file_ext file_path) e = false).
  { intros e He. apply String.eqb_neq. intros Heq. rewrite Heq in Hext.
    repeat (apply elem_of_cons in He as [->|He];
            [repeat (apply elem_of_cons in Hext as [Hext|Hext]; [discriminate Hext|]);
             by apply elem_of_nil in Hext|]).
    by apply elem_of_nil in He. }
  cbn [existsb] in H.
  rewrite !Hother in H by (repeat first [apply list_elem_of_here | apply list_elem_of_further]).
  cbn [orb] in H.
  assert (Himg : (file_ext file_path =? ".jpg")%string || ((file_ext file_path =? ".jpeg")%string
                  || ((file_ext file_path =? ".png")%string
                      || ((file_ext file_path =? ".gif")%string || false))) = true).
  { repeat (apply elem_of_cons in Hext as [->|Hext]; [reflexivity|]).
    by apply elem_of_nil in Hext. }
  rewrite Himg in H.
  apply bind_returned in H as (r & w2 & Hr & H). injection H as _ <- <-.
  exact (_process_image_markdown _ _ _ _ _ _ _ Hr).
Qed.

Lemma image_job_markdown_is_never_blank_witness :
  let w0 := Sample.ready Sample.quarters in
  let w := {| files := <["scan.PNG" := FS.File (FS.Raw "PNG")]> (files w0);
              clock := clock w0; ticks := ticks w0 |} in
  let '(w', o) :=
    MinerUWebConverter.process_file "output" Sample.pdf_pipeline Sample.docx_Document
      Sample.image_ocr "scan.PNG" w in
  o = Returned ("![scan](images/scan.PNG)", Some "output/task_1700000000/scan.zip") /\
  file_ext "scan.PNG" ∈ [".jpg"; ".jpeg"; ".png"; ".gif"] /\
  exists w2 data fs' ocr_text,
    FileUtils.ensure_dir "output/task_1700000000/images"
      {| files := files w; clock := clock w; ticks := S (ticks w) |}
      = (w2, Returned "output/task_1700000000/images") /\
    FS.read_file "scan.PNG" (files w2) = Returned data /\
    Sample.image_ocr "scan.PNG" "output/task_1700000000/images" "output/task_1700000000"
      (<["output/task_1700000000/images/scan.PNG" := FS.File data]> (files w2))
      = (fs', Returned ocr_text) /\
    "![scan](images/scan.PNG)"
      = (if Str.truthy (Str.strip ocr_text) then ocr_text else "![scan](images/scan.PNG)") /\
    Str.truthy (Str.strip "![scan](images/scan.PNG)") = true.
Proof.
  intros w0 w.
  destruct (MinerUWebConverter.process_file _ _ _ _ _ _) as [w' o] eqn:E.
  assert (Ho : o = Returned ("![scan](images/scan.PNG)",
                             Some "output/task_1700000000/scan.zip")).
  { apply (f_equal snd) in E. simpl in E. rewrite <- E. vm_compute. reflexivity. }
  subst o. split; [reflexivity|].
  assert (Hext : file_ext "scan.PNG" ∈ [".jpg"; ".jpeg"; ".png"; ".gif"]).
  { do 2 apply list_elem_of_further. apply list_elem_of_here. }
  split; [exact Hext|].
  exact (image_job_markdown_is_never_blank "output" Sample.pdf_pipeline Sample.docx_Document
           Sample.image_ocr "scan.PNG" w w' _ _ E Hext).
Defined.

Section ClockFacts.
Import MinerUWebConverter.

Lemma keeps_ret {A} (a : A) : keeps_clock (ret a).
Proof. by intros w. Qed.
Lemma keeps_raise {A} (e : exn) : keeps_clock (raise (A := A) e).
Proof. by intros w. Qed.
Lemma keeps_pure {A} (f : world -> outcome A) : keeps_clock (fun w => (w, f w)).
Proof. by intros w. Qed.
Lemma keeps_of_outcome {A} (o : outcome A) : keeps_clock (of_outcome o).
Proof. by intros w. Qed.
Lemma keeps_read_files {A} (f : gmap string FS.node -> A) : keeps_clock (read_files f).
Proof. by intros w. Qed.
Lemma keeps_with_files f : keeps_clock (with_files f).
Proof. intros w. unfold with_files. by destruct (f (files w)). Qed.
Lemma keeps_external {A} (f : Ext A) : keeps_clock (external f).
Proof. intros w. unfold external. by destruct (f (files w)). Qed.

Lemma keeps_bind {A B} (m : M A) (k : A -> M B) :
  keeps_clock m -> (forall a, keeps_clock (k a)) -> keeps_clock (bind m k).
Proof.
  intros Hm Hk w. unfold bind. specialize (Hm w).
  destruct (m w) as [w1 [a|e]]; simpl in Hm; [|exact Hm].
  destruct Hm, (Hk a w1). split; congruence.
Qed.

Lemma keeps_try_except {A} (m : M A) (h : exn -> M A) :
  keeps_clock m -> (forall e, keeps_clock (h e)) -> keeps_clock (try_except m h).
Proof.
  intros Hm Hh w. unfold try_except. specialize (Hm w).
  destruct (m w) as [w1 [a|e]]; simpl in Hm; [exact Hm|].
  destruct (is_Exception e); [|exact Hm].
  destruct Hm, (Hh e w1). split; congruence.
Qed.

Lemma keeps_for_each {A} (l : list A) (body : A -> M unit) :
  (forall a, keeps_clock (body a)) -> keeps_clock (for_each l body).
Proof.
  intros Hb. induction l as [|a l IH]; cbn [for_each]; [apply keeps_ret|].
  apply keeps_bind; [apply Hb | intros _; exact IH].
Qed.

Lemma keeps_fold_M {A B} (body : A -> B -> M B) (l : list A) (b : B) :
  (forall a b0, keeps_clock (body a b0)) -> keeps_clock (fold_M body l b).
Proof.
  intros Hb. revert b. induction l as [|a l IH]; intros b; cbn [fold_M];
    [apply keeps_ret|].
  apply keeps_bind; [apply Hb | exact IH].
Qed.

(** One step of a proof that a piece of code does not read the clock. *)
Ltac keeps_step :=
  first
    [ apply keeps_ret | apply keeps_raise | apply keeps_of_outcome
    | apply keeps_read_files | apply keeps_with_files | apply keeps_external
    | apply keeps_bind; [|intro]
    | apply keeps_try_except; [|intro]
    | apply keeps_for_each; intro
    | apply keeps_fold_M; intros
    | apply keeps_pure
    | match goal with
      | |- keeps_clock (if ?b then _ else _) => destruct b
      | |- keeps_clock (match ?n with Some _ => _ | None => _ end) => destruct n
      | |- keeps_clock (match ?n with FS.Dir => _ | FS.File _ => _ end) => destruct n
      | |- keeps_clock (match ?n with FS.Raw _ => _ | FS.Archive _ => _ end) => destruct n
      | |- keeps_clock (let '(_, _) := ?p in _) => destruct p
      end ].

Lemma keeps_ensure_dir directory : keeps_clock (FileUtils.ensure_dir directory).
Proof. unfold FileUtils.ensure_dir. repeat keeps_step. Qed.

Lemma keeps_append_member zip m : keeps_clock (Zip.append_member zip m).
Proof. unfold Zip.append_member. repeat keeps_step. Qed.

Lemma keeps_zip_write zip filename arcname : keeps_clock (Zip.write zip filename arcname).
Proof. unfold Zip.write. repeat first [apply keeps_append_member | keeps_step]. Qed.

Lemma keeps_zip_md_and_images zip md dir : keeps_clock (zip_md_and_images zip md dir).
Proof.
  unfold zip_md_and_images, Zip.ZipFile_w.
  repeat first [apply keeps_zip_write | keeps_step].
Qed.

Lemma keeps_document_md dir doc : keeps_clock (document_md dir doc).
Proof.
  unfold document_md, paragraph_md, save_drawing, _extract_and_save_docx_image.
  repeat keeps_step.
Qed.

Variable output_dir : string.
Variable pdf_pipeline : string -> string -> string -> string -> Ext string.
Variable docx_Document : string -> Ext Docx.document.
Variable image_ocr : string -> string -> string -> Ext string.
Variable fl : Q -> Q.

Lemma keeps__process_pdf file_path task_id :
  keeps_clock (_process_pdf output_dir pdf_pipeline file_path task_id).
Proof.
  unfold _process_pdf.
  repeat first [apply keeps_ensure_dir | apply keeps_zip_md_and_images | keeps_step].
Qed.

Lemma keeps__process_docx file_path task_id :
  keeps_clock (_process_docx output_dir docx_Document file_path task_id).
Proof.
  unfold _process_docx.
  repeat first [apply keeps_ensure_dir | apply keeps_zip_md_and_images
               | apply keeps_document_md | keeps_step].
Qed.

Lemma keeps__process_image file_path task_id :
  keeps_clock (_process_image output_dir image_ocr file_path task_id).
Proof.
  unfold _process_image, Zip.ZipFile_w.
  repeat first [apply keeps_ensure_dir | apply keeps_zip_write | keeps_step].
Qed.

Lemma keeps_aggregate p results : keeps_clock (aggregate p results).
Proof.
  unfold aggregate, archive_result, Zip.ZipFile_w, Zip.ZipFile_r.
  repeat first [apply keeps_append_member | keeps_step].
Qed.

Lemma process_file_ticks file_path w :
  clock (fst (process_file output_dir pdf_pipeline docx_Document image_ocr file_path w))
    = clock w /\
  ticks (fst (process_file output_dir pdf_pipeline docx_Document image_ocr file_path w))
    = S (ticks w).
Proof.
  unfold process_file, bind at 1, time_time.
  set (w1 := {| files := files w; clock := clock w; ticks := S (ticks w) |}).
  set (task_id := task_id_at _ _).
  assert (K : forall m : M (string * option string),
            keeps_clock m -> clock (fst (m w1)) = clock w /\ ticks (fst (m w1)) = S (ticks w)).
  { intros m Hm. exact (Hm w1). }
  apply K.
  repeat first [apply keeps__process_pdf | apply keeps__process_docx
               | apply keeps__process_image | keeps_step].
Qed.

Lemma submit_all_ticks {I V : Type} (f : I -> world -> world * outcome V) items w :
  (forall item w0, clock (fst (f item w0)) = clock w0 /\
                   ticks (fst (f item w0)) = S (ticks w0)) ->
  clock (fst (ParallelProcessor.submit_all f items w)) = clock w /\
  ticks (fst (ParallelProcessor.submit_all f items w)) = (ticks w + length items)%nat.
Proof.
  intros Hf. revert w. induction items as [|item rest IH]; intros w;
    cbn [ParallelProcessor.submit_all].
  - simpl. split; [reflexivity | lia].
  - specialize (Hf item w). destruct (f item w) as [w1 o]. simpl in Hf.
    specialize (IH w1). destruct (ParallelProcessor.submit_all f rest w1) as [w2 fs].
    simpl in IH |- *. destruct Hf, IH. split; [congruence | lia].
Qed.
End ClockFacts.

(** X16.  Every call of [process_file] reads the clock exactly once, whatever
    the type of the file and whether the job returns or raises; nothing else
    of the job reads or changes it. *)
Theorem every_job_reads_the_clock_once
    (output_dir : string)
    (pdf_pipeline : string -> string -> string -> string -> Ext string)
    (docx_Document : string -> Ext Docx.document)
    (image_ocr : string -> string -> string -> Ext string)
    (file_path : string) (w : world) :
  let w' := fst (MinerUWebConverter.process_file output_dir pdf_pipeline docx_Document
                   image_ocr file_path w) in
  clock w' = clock w /\ ticks w' = S (ticks w).
Proof. apply process_file_ticks. Qed.

(** X17.  A batch reads the clock once for its own ID and once for every
    submitted path, and what it leaves is what all the jobs left: when the
    batch directory could be created, every job of the batch is run, whether
    the batch then returns or raises (a job raised, the loop over the futures
    was left by an exception, the aggregation failed), and nothing but the
    batch archive differs from the state after the jobs.  Only when the batch
    directory cannot be created is no job run: the batch raises that error at
    once. *)
Theorem batch_reads_the_clock_once_per_path
    (output_dir : string)
    (pdf_pipeline : string -> string -> string -> string -> Ext string)
    (docx_Document : string -> Ext Docx.document)
    (image_ocr : string -> string -> string -> Ext string)
    (fl : Q -> Q) (file_paths : list string) (w : world) :
  let w1 := {| files := files w; clock := clock w; ticks := S (ticks w) |} in
  let task_output_dir :=
    Path.join output_dir (MinerUWebConverter.task_id_at "batch_" (clock w (ticks w))) in
  let '(w', o) :=
    MinerUWebConverter.batch_process_files output_dir pdf_pipeline docx_Document image_ocr fl
      file_paths w in
  clock w' = clock w /\
  match FileUtils.ensure_dir task_output_dir w1 with
  | (w2, Raised e) => w' = w2 /\ o = Raised e /\ ticks w' = S (ticks w)
  | (w2, Returned _) =>
      let jobs :=
        ParallelProcessor.submit_all
          (MinerUWebConverter.process_file output_dir pdf_pipeline docx_Document image_ocr)
          file_paths w2 in
      ticks w' = (ticks w + 1 + length file_paths)%nat /\
      length (snd jobs) = length file_paths /\
      forall q, q <> Path.join task_output_dir "batch_results.zip" ->
                files w' !! q = files (fst jobs) !! q
  end.
Proof.
  intros w1 task_output_dir.
  unfold MinerUWebConverter.batch_process_files, bind at 1, time_time.
  fold w1. fold task_output_dir.
  unfold bind at 1.
  pose proof (keeps_ensure_dir task_output_dir w1) as [C2 T2].
  destruct (FileUtils.ensure_dir task_output_dir w1) as [w2 [d|e]]; simpl in C2, T2.
  2:{ split; [exact C2|]. by repeat split. }
  unfold bind at 1.
  pose proof (submit_all_ticks
                (MinerUWebConverter.process_file output_dir pdf_pipeline docx_Document image_ocr)
                file_paths w2
                (process_file_ticks output_dir pdf_pipeline docx_Document image_ocr)) as [C3 T3].
  assert (Hlen : length (snd (ParallelProcessor.submit_all
                    (MinerUWebConverter.process_file output_dir pdf_pipeline docx_Document
                       image_ocr) file_paths w2)) = length file_paths).
  { rewrite <- (List.length_map fst), submit_all_items. reflexivity. }
  rewrite process_items_unfold. cbv zeta.
  set (jobs := ParallelProcessor.submit_all _ file_paths w2) in *.
  destruct (ParallelProcessor.collect _ _ _) as [st [e|]]; cbn [fst snd] in *.
  - split; [congruence|]. split; [lia|]. split; [exact Hlen | reflexivity].
  - match goal with |- context [bind ?m ?k ?x] =>
      pose proof (keeps_bind m k (keeps_aggregate _ _) (fun _ => keeps_ret _) x) as [C4 T4];
      assert (Hfiles : forall q, q <> Path.join task_output_dir "batch_results.zip" ->
                files (fst (bind m k x)) !! q = files x !! q);
      [|destruct (bind m k x) as [w4 o4]]
    end.
    { intros q Hq. unfold bind.
      destruct (MinerUWebConverter.aggregate _ _ _) as [w4 o4] eqn:Ea.
      assert (Hw4 : files w4 !! q = files (fst jobs) !! q).
      { apply aggregate_spec in Ea as [[-> _]|(new & -> & _)]; [reflexivity|].
        by apply lookup_insert_ne. }
      by destruct o4. }
    simpl in C4, T4, Hfiles. split; [congruence|]. split; [lia|].
    split; [exact Hlen | exact Hfiles].
Qed.


Section DocumentFacts.
Import MinerUWebConverter.

Lemma tables_md_raises tables md_content :
  Exists (fun t => Docx.rows t = []) tables ->
  tables_md tables md_content = Raised IndexError.
Proof.
  intros H. revert md_content.
  induction H as [t rest Ht|t rest _ IH]; intros md_content; cbn [tables_md];
    unfold table_md.
  - by rewrite Ht.
  - destruct (Docx.rows t); [reflexivity | apply IH].
Qed.

Lemma tables_md_returns tables md_content :
  Forall (fun t => Docx.rows t <> []) tables ->
  exists blocks, tables_md tables md_content = Returned (md_content ++ blocks) /\
                 length blocks = length tables.
Proof.
  intros H. revert md_content.
  induction H as [|t rest Ht _ IH]; intros md_content; cbn [tables_md].
  - exists []. by rewrite app_nil_r.
  - unfold table_md. destruct (Docx.rows t) as [|header_row data_rows]; [done|].
    destruct (IH (md_content ++ [Str.join Str.newline
                (table_row (map Str.strip header_row)
                 :: table_row (repeat "---" (length (map Str.strip header_row)))
                 :: map (fun row => table_row (map Str.strip row)) data_rows)]))
      as (blocks & -> & Hlen).
    eexists (_ :: blocks). rewrite <- app_assoc. split; [reflexivity|].
    simpl. by rewrite Hlen.
Qed.
End DocumentFacts.

(** X18.  A table without rows aborts the conversion of a DOCX document:
    [table.rows[0]] raises IndexError, no Markdown is produced for the
    document, and nothing is written for the tables before it.  When every
    table has a row, the loop over the tables returns with exactly one block
    per table appended. *)
Theorem table_without_rows_aborts_the_document
    (local_image_dir : string) (doc : Docx.document) (w : world) :
  (Exists (fun t => Docx.rows t = []) (Docx.tables doc) ->
   (forall md_content,
      MinerUWebConverter.tables_md (Docx.tables doc) md_content = Raised IndexError) /\
   exists w' e, MinerUWebConverter.document_md local_image_dir doc w = (w', Raised e)) /\
  (Forall (fun t => Docx.rows t <> []) (Docx.tables doc) ->
   forall md_content, exists blocks,
     MinerUWebConverter.tables_md (Docx.tables doc) md_content
       = Returned (md_content ++ blocks) /\
     length blocks = length (Docx.tables doc)).
Proof.
  split.
  - intros H. split; [intros md_content; by apply tables_md_raises|].
    unfold MinerUWebConverter.document_md, bind.
    destruct (fold_M _ _ _ w) as [w1 [st|e]]; [|eauto].
    unfold of_outcome. rewrite (tables_md_raises _ _ H). eauto.
  - intros H md_content. by apply tables_md_returns.
Qed.

Lemma table_without_rows_aborts_the_document_witness :
  Exists (fun t => Docx.rows t = []) (Docx.tables Sample2.with_empty_table) /\
  MinerUWebConverter.tables_md (Docx.tables Sample2.with_empty_table) ["# Intro"]
    = Raised IndexError /\
  exists w' e,
    MinerUWebConverter.document_md "out/images" Sample2.with_empty_table Sample2.with_images
      = (w', Raised e).
Proof.
  assert (He : Exists (fun t => Docx.rows t = []) (Docx.tables Sample2.with_empty_table))
    by (right; left; reflexivity).
  split; [exact He|].
  destruct (table_without_rows_aborts_the_document "out/images" Sample2.with_empty_table
              Sample2.with_images) as [H _].
  destruct (H He) as [Hraise Hdoc]. split; [apply Hraise | exact Hdoc].
Defined.

(** X19.  The built-in heading styles give their level in hashes: a paragraph
    with non-blank text whose style is [Heading n], n from 1 to 9, becomes
    one line of n hashes, a space and the paragraph's text (not stripped);
    a paragraph whose text is blank gives no line, whatever its style. *)
Theorem heading_level_gives_hashes
    (level : Z) (text : string) (runs : list (list (outcome string)))
    (md_content : list string) :
  1 <= level <= 9 ->
  let para := {| Docx.text := text; Docx.style_name := "Heading " +:+ pretty level;
                 Docx.runs := runs |} in
  MinerUWebConverter.paragraph_text para md_content
    = if Str.truthy (Str.strip text)
      then Returned (md_content ++ [Str.times "#" level +:+ " " +:+ text])
      else Returned md_content.
Proof.
  intros Hl para. unfold MinerUWebConverter.paragraph_text. cbn [Docx.text Docx.style_name para].
  destruct (Str.truthy (Str.strip text)); [|reflexivity].
  assert (Hcases : level = 1 \/ level = 2 \/ level = 3 \/ level = 4 \/ level = 5 \/
                   level = 6 \/ level = 7 \/ level = 8 \/ level = 9) by lia.
  destruct Hcases as [->|[->|[->|[->|[->|[->|[->|[->| ->]]]]]]]]; reflexivity.
Qed.

Lemma heading_level_gives_hashes_witness :
  1 <= 3 <= 9 /\
  MinerUWebConverter.paragraph_text
    {| Docx.text := "Scope "; Docx.style_name := "Heading 3"; Docx.runs := [] |} ["# Intro"]
  = Returned ["# Intro"; "### Scope "].
Proof.
  split; [lia|].
  exact (heading_level_gives_hashes 3 "Scope " [] ["# Intro"] ltac:(lia)).
Defined.


Section PdfArchiveFacts.
Import MinerUWebConverter.
Local Arguments String.append !s1 s2 : simpl nomatch.
Implicit Types (w : world) (zip md dir : string).

Abbreviation under_images := (fun m : Zip.member => String.prefix "images/" (fst m) = true).

(** Lines 96-105: the archive is the entry of the Markdown file as it is on
    disk, followed by entries under [images/]; nothing but the archive is
    written. *)
Lemma zip_md_and_images_layout zip md dir w w' :
  zip <> md ->
  zip_md_and_images zip md dir w = (w', Returned tt) ->
  exists m rest,
    files w' !! zip = Some (FS.File (FS.Archive (m :: rest))) /\
    Forall under_images rest /\
    (forall q, q <> zip -> files w' !! q = files w !! q) /\
    ((exists c, files w !! md = Some (FS.File c) /\ m = (Path.basename md, c)) \/
     (files w !! md = Some FS.Dir /\ m = (Path.basename md +:+ "/", FS.Raw ""))).
Proof.
  intros Hne H. unfold zip_md_and_images in H.
  apply bind_returned in H as ([] & w1 & H1 & H).
  apply bind_returned in H as ([] & w2 & H2 & H).
  apply bind_returned in H as (names & w3 & H3 & H).
  unfold Zip.ZipFile_w in H1. apply with_files_returned in H1 as (H1 & _).
  apply write_file_returned in H1.
  apply zip_write_spec in H2 as (m & G2 & Hm).
  rewrite H1, lookup_insert_ne in Hm by exact Hne.
  assert (L2 : files w2 !! zip = Some (FS.File (FS.Archive [m]))).
  { apply (grows_members zip _ w1 w2 []); [|exact G2]. by rewrite H1, lookup_insert_eq. }
  destruct (FS.listdir dir (files w2)) as [names'|e] eqn:Els; [|discriminate].
  injection H3 as <- <-.
  apply listdir_names in Els.
  apply (for_each_grows zip under_images) in H as (rest & G & Hrest).
  - exists m, rest. split; [by apply (grows_members zip rest w2 w' [m])|].
    split; [exact Hrest|]. split; [|exact Hm].
    intros q Hq. rewrite (grows_other _ _ _ _ q G Hq), (grows_other _ _ _ _ q G2 Hq), H1.
    by apply lookup_insert_ne.
  - eapply Forall_impl; [exact Els|]. intros n Hn w0 w1' Hb. cbv beta in Hb.
    unfold bind at 1, read_files in Hb.
    destruct (FS.isfile (files w0) (Path.join dir n)) eqn:Ef.
    + apply zip_write_spec in Hb as (m' & Gm & Hm'). exists [m']. split; [exact Gm|].
      constructor; [|constructor]. rewrite (join_images n Hn) in Hm'.
      destruct Hm' as [(c' & _ & ->)|[_ ->]]; cbn [fst].
      * apply prefix_app.
      * rewrite string_app_assoc. apply prefix_app.
    + injection Hb as <-. exists []. split; [apply grows_refl | constructor].
Qed.

Variable output_dir : string.
Variable pdf_pipeline : string -> string -> string -> string -> Ext string.

Lemma _process_pdf_archive file_path task_id w w' r :
  _process_pdf output_dir pdf_pipeline file_path task_id w = (w', Returned r) ->
  exists m rest,
    files w' !! zip_path r = Some (FS.File (FS.Archive (m :: rest))) /\
    Forall under_images rest /\
    match files w' !! md_file_path r with
    | Some (FS.File c) => m = (name_without_extension file_path +:+ ".md", c)
    | Some FS.Dir => m = ((name_without_extension file_path +:+ ".md") +:+ "/", FS.Raw "")
    | None => False
    end.
Proof.
  unfold _process_pdf. intros H.
  apply bind_returned in H as (? & w1 & _ & H).
  apply bind_returned in H as (text & w2 & _ & H).
  apply bind_returned in H as ([] & w3 & H3 & H).
  injection H as <- <-. cbn [zip_path md_file_path].
  apply zip_md_and_images_layout in H3 as (m & rest & L & Hrest & Hother & Hm);
    [|apply zip_is_not_md].
  exists m, rest. split; [exact L|]. split; [exact Hrest|].
  rewrite Hother by (apply not_eq_sym, zip_is_not_md).
  rewrite basename_join in Hm by (by apply md_name_has_no_slash).
  by destruct Hm as [(c & -> & ->)|[-> ->]].
Qed.
End PdfArchiveFacts.

(** X20.  The archive of a PDF job stores the Markdown file as the pipeline
    left it on disk: when [process_file] returns an archive path for a [.pdf]
    path, the archive's first member is the entry of the job's file
    [<name>.md] with the data that the file holds, every other member lies
    under [images/], and the job's result points to an archive in the same
    directory as the Markdown file. *)
Theorem pdf_archive_stores_the_markdown_file
    (output_dir : string)
    (pdf_pipeline : string -> string -> string -> string -> Ext string)
    (docx_Document : string -> Ext Docx.document)
    (image_ocr : string -> string -> string -> Ext string)
    (file_path : string) (w w' : world) (md zp : string) :
  MinerUWebConverter.process_file output_dir pdf_pipeline docx_Document image_ocr
    file_path w = (w', Returned (md, Some zp)) ->
  file_ext file_path = ".pdf" ->
  exists task_output_dir m rest,
    zp = Path.join task_output_dir
           (MinerUWebConverter.name_without_extension file_path +:+ ".zip") /\
    files w' !! zp = Some (FS.File (FS.Archive (m :: rest))) /\
    Forall (fun m => String.prefix "images/" (fst m) = true) rest /\
    match files w' !! Path.join task_output_dir
                        (MinerUWebConverter.name_without_extension file_path +:+ ".md") with
    | Some (FS.File c) => m = (MinerUWebConverter.name_without_extension file_path +:+ ".md", c)
    | Some FS.Dir =>
        m = ((MinerUWebConverter.name_without_extension file_path +:+ ".md") +:+ "/", FS.Raw "")
    | None => False
    end.
Proof.
  unfold MinerUWebConverter.process_file. intros H Hpdf.
  apply bind_returned in H as (now & w1 & _ & H).
  change (Str.lower (snd (Path.splitext file_path))) with (file_ext file_path) in H.
  rewrite Hpdf in H. cbn [String.eqb Ascii.eqb Bool.eqb] in H.
  apply bind_returned in H as (r & w2 & Hr & H). injection H as <- <- <-.
  pose proof (_process_pdf_zip_path _ _ _ _ _ _ _ Hr) as Hzip.
  assert (Hmd : MinerUWebConverter.md_file_path r
                = Path.join (Path.join output_dir
                               (MinerUWebConverter.task_id_at "task_" now))
                    (MinerUWebConverter.name_without_extension file_path +:+ ".md")).
  { unfold MinerUWebConverter._process_pdf in Hr.
    do 3 apply bind_returned in Hr as (? & ? & _ & Hr). by injection Hr as _ <-. }
  apply _process_pdf_archive in Hr as (m & rest & L & Hrest & Hm).
  exists (Path.join output_dir (MinerUWebConverter.task_id_at "task_" now)), m, rest.
  split; [exact Hzip|]. split; [exact L|]. split; [exact Hrest|].
  rewrite <- Hmd. exact Hm.
Qed.

Lemma pdf_archive_stores_the_markdown_file_witness :
  let w := Sample.ready Sample.quarters in
  let '(w', o) := Sample.process_file "a.pdf" w in
  o = Returned ("pdf text", Some "output/task_1700000000/a.zip") /\
  file_ext "a.pdf" = ".pdf" /\
  files w' !! "output/task_1700000000/a.zip"
    = Some (FS.File (FS.Archive [("a.md", FS.Raw "pdf text");
                                 ("images/page1.png", FS.Raw "PNG")])) /\
  exists task_output_dir m rest,
    "output/task_1700000000/a.zip" = Path.join task_output_dir "a.zip" /\
    files w' !! "output/task_1700000000/a.zip"
      = Some (FS.File (FS.Archive (m :: rest))) /\
    Forall (fun m => String.prefix "images/" (fst m) = true) rest.
Proof.
  intros w.
  destruct (Sample.process_file "a.pdf" w) as [w' o] eqn:E.
  assert (Ho : o = Returned ("pdf text", Some "output/task_1700000000/a.zip")).
  { apply (f_equal snd) in E. simpl in E. rewrite <- E. vm_compute. reflexivity. }
  subst o. split; [reflexivity|]. split; [reflexivity|].
  split.
  { apply (f_equal fst) in E. simpl in E. rewrite <- E. vm_compute. reflexivity. }
  destruct (pdf_archive_stores_the_markdown_file "output" Sample.pdf_pipeline
              Sample.docx_Document Sample.image_ocr "a.pdf" w w' _ _ E eq_refl)
    as (d & m & rest & Hzp & L & Hrest & _).
  exists d, m, rest. split; [exact Hzp|]. split; [exact L | exact Hrest].
Defined.
